(** * OpenOrganelle: dataset model and viewer-link compilation

    A shallow embedding of the TypeScript sources of the OpenOrganelle web
    application:

    - [src/api/datasets.ts] (tags, views, coordinate transforms, shaders,
      layers, viewer state, catalog loading),
    - [src/components/NeuroglancerLink.tsx] (the link button),
    - [src/components/DatasetPaper.tsx] (the layer check boxes).

    JavaScript numbers are IEEE 754 binary64 values and are modelled by Rocq's
    primitive floats; [undefined] is modelled by [None]; JavaScript strings
    are modelled by Rocq strings (sequences of 8-bit code units). *)

From Stdlib Require Import ZArith List String Ascii Bool Lia Floats.
From stdpp Require Import base option list gmap strings pretty.

#[local] Set Warnings "-inexact-float".

(* ===================================================================== *)
(** * Part I: definitions *)
(* ===================================================================== *)

(** ** The JavaScript runtime: the built-ins the sources call *)

Module JS.

(** Abrupt completions: a thrown exception, or the rejection of a promise. *)
Inductive exn : Type :=
| TypeError (msg : string)
| FetchError (reason : string).

Inductive completion (A : Type) : Type :=
| Normal (a : A)
| Throw (e : exn).
Arguments Normal {A} a.
Arguments Throw {A} e.

Definition bind {A B} (c : completion A) (k : A → completion B) : completion B :=
  match c with
  | Normal a => k a
  | Throw e => Throw e
  end.

Definition is_Throw {A} (c : completion A) : Prop := ∃ e, c = Throw e.

(** [Promise.all]: fulfilled with every value when every promise is
    fulfilled, rejected as soon as one promise is rejected.  Which reason
    wins depends on the order in which the promises settle; the model
    reports the first one in list order. *)
Fixpoint Promise_all {A} (ps : list (completion A)) : completion (list A) :=
  match ps with
  | [] => Normal []
  | p :: ps' =>
      match p, Promise_all ps' with
      | Normal a, Normal l => Normal (a :: l)
      | Throw e, _ => Throw e
      | Normal _, Throw e => Throw e
      end
  end.

(** *** Strings *)

Definition dquote : string := String "034"%char EmptyString.
Definition backslash : ascii := "092"%char.

(** *** Numbers *)

(** [ToNumber(undefined)] is [NaN]. *)
Definition ToNumber (v : option float) : float := default nan v.

Definition Math_abs (v : option float) : float := abs (ToNumber v).

(** The relational operator [<] on numbers (or [undefined]). *)
Definition lt (a b : option float) : bool := (ToNumber a <? ToNumber b)%float.

Definition le (a b : option float) : bool := (ToNumber a <=? ToNumber b)%float.

(** [Math.min] of two arguments: [NaN] if one argument converts to [NaN];
    [-0] counts as smaller than [+0]. *)
Definition Math_min (a b : option float) : float :=
  let x := ToNumber a in
  let y := ToNumber b in
  if is_nan x || is_nan y then nan
  else if (x <? y)%float then x
  else if (y <? x)%float then y
  else if get_sign x then x else y.

(** The integer a number denotes, when it is an integer of magnitude at
    most 2^53. *)
Definition safe_integer (x : float) : option Z :=
  match Prim2SF x with
  | S754_zero _ => Some 0%Z
  | S754_finite s m e =>
      let mag :=
        if (0 <=? e)%Z then Some (Z.pos m * 2 ^ e)%Z
        else if (Z.pos m mod 2 ^ (- e) =? 0)%Z then Some (Z.pos m / 2 ^ (- e))%Z
        else None in
      match mag with
      | Some v => if (v <=? 2 ^ 53)%Z then Some (if s then (- v)%Z else v) else None
      | None => None
      end
  | _ => None
  end.

(** [Number.prototype.toString] in radix 10.  The cases [NaN], the
    infinities and the integers up to 2^53 are written out; [digits]
    stands for the shortest round-trip digit generation of the runtime on
    every other number. *)
Definition Number_toString (digits : float → string) (x : float) : string :=
  if is_nan x then "NaN"
  else if is_infinity x then (if (x <? 0)%float then "-Infinity" else "Infinity")
  else match safe_integer x with
       | Some z => pretty z
       | None => digits x
       end.

(** [ToBoolean] of a number (or [undefined]): zero and [NaN] are falsy. *)
Definition truthy_number (v : option float) : bool :=
  match v with
  | Some x => negb (is_zero x || is_nan x)
  | None => false
  end.

(** *** Arrays *)

(** [Array.prototype.indexOf]: the first index holding the element, [-1]
    when there is none. *)
Fixpoint indexOf_from (l : list string) (x : string) (i : Z) : Z :=
  match l with
  | [] => (-1)%Z
  | y :: l' => if String.eqb y x then i else indexOf_from l' x (i + 1)%Z
  end.

Definition indexOf (l : list string) (x : string) : Z := indexOf_from l x 0.

(** [arr[i]]: [undefined] for an index that is negative or past the end. *)
Definition get {A} (l : list A) (i : Z) : option A :=
  if (i <? 0)%Z then None else l !! Z.to_nat i.

(** [x ?? undefined] on a value that may be [null] or [undefined]. *)
Inductive nullable (A : Type) : Type :=
| Undefined
| Null
| Value (a : A).
Arguments Undefined {A}.
Arguments Null {A}.
Arguments Value {A} a.

Definition coalesce_undefined {A} (v : nullable A) : option A :=
  match v with
  | Value a => Some a
  | Null | Undefined => None
  end.

(** What a template literal prints for a string that may be missing. *)
Definition template_nullable (v : nullable string) : string :=
  match v with
  | Value s => s
  | Null => "null"
  | Undefined => "undefined"
  end.

(** *** Maps

    A [Map] iterates in insertion order: it is modelled by an association
    list without repeated keys.  [set] overwrites the value of a key that
    is present, in place, and appends a new key. *)
Definition Map (V : Type) : Type := list (string * V).

Fixpoint Map_set {V} (k : string) (v : V) (m : Map V) : Map V :=
  match m with
  | [] => [(k, v)]
  | (k', v') :: m' =>
      if String.eqb k' k then (k, v) :: m' else (k', v') :: Map_set k v m'
  end.

Fixpoint Map_get {V} (k : string) (m : Map V) : option V :=
  match m with
  | [] => None
  | (k', v') :: m' => if String.eqb k' k then Some v' else Map_get k m'
  end.

(** [new Map(entries)]: later entries overwrite earlier ones. *)
Definition new_Map {V} (entries : list (string * V)) : Map V :=
  foldl (λ m kv, Map_set kv.1 kv.2 m) [] entries.

Definition Map_keys {V} (m : Map V) : list string := m.*1.

(** *** JSON *)

Definition hex_digit (n : N) : ascii :=
  ascii_of_N (if (n <? 10)%N then 48 + n else 87 + n).

(** One code unit of a string inside [JSON.stringify]'s quotes. *)
Definition escape_char (c : ascii) : string :=
  let n := N_of_ascii c in
  if (n =? 8)%N then String backslash "b"
  else if (n =? 9)%N then String backslash "t"
  else if (n =? 10)%N then String backslash "n"
  else if (n =? 12)%N then String backslash "f"
  else if (n =? 13)%N then String backslash "r"
  else if (n =? 34)%N then String backslash dquote
  else if (n =? 92)%N then String backslash (String backslash EmptyString)
  else if (n <? 32)%N then
    String backslash
      (String "u" (String "0" (String "0"
         (String (hex_digit (n / 16)) (String (hex_digit (n mod 16)) EmptyString)))))
  else String c EmptyString.

Fixpoint escape (s : string) : string :=
  match s with
  | EmptyString => EmptyString
  | String c s' => escape_char c +:+ escape s'
  end.

(** [JSON.stringify] of a string. *)
Definition stringify_string (s : string) : string := dquote +:+ escape s +:+ dquote.

(** Reading back one escaped code unit from the front of a string: the
    inverse of [escape_char], used to show that [stringify_string] loses
    nothing. *)
Definition unhex (c : ascii) : option N :=
  let n := N_of_ascii c in
  if ((48 <=? n) && (n <=? 57))%N then Some (n - 48)%N
  else if ((97 <=? n) && (n <=? 102))%N then Some (n - 87)%N
  else None.

Definition unescape_char (s : string) : option (ascii * string) :=
  match s with
  | EmptyString => None
  | String c r =>
      if (N_of_ascii c =? 34)%N then None
      else if (N_of_ascii c =? 92)%N then
        match r with
        | String "b" r' => Some ("008"%char, r')
        | String "t" r' => Some ("009"%char, r')
        | String "n" r' => Some ("010"%char, r')
        | String "f" r' => Some ("012"%char, r')
        | String "r" r' => Some ("013"%char, r')
        | String "u" (String "0" (String "0" (String h (String l r')))) =>
            match unhex h, unhex l with
            | Some a, Some b => Some (ascii_of_N (16 * a + b), r')
            | _, _ => None
            end
        | String d r' =>
            if (N_of_ascii d =? 34)%N then Some ("034"%char, r')
            else if (N_of_ascii d =? 92)%N then Some (backslash, r')
            else None
        | EmptyString => None
        end
      else Some (c, r)
  end.

(** *** More built-ins *)

(** [Array.prototype.findIndex]: the first index whose element satisfies
    the callback, [-1] when there is none. *)
Fixpoint findIndex_from {A} (p : A → bool) (l : list A) (i : Z) : Z :=
  match l with
  | [] => (-1)%Z
  | x :: l' => if p x then i else findIndex_from p l' (i + 1)%Z
  end.

Definition findIndex {A} (p : A → bool) (l : list A) : Z := findIndex_from p l 0.

(** [Array.prototype.includes] on strings. *)
Definition includes (l : list string) (x : string) : bool :=
  existsb (String.eqb x) l.

(** [String.prototype.startsWith] *)
Definition startsWith (s start : string) : bool := String.prefix start s.

(** [Array.prototype.join] *)
Fixpoint join (sep : string) (l : list string) : string :=
  match l with
  | [] => EmptyString
  | [x] => x
  | x :: l' => x +:+ sep +:+ join sep l'
  end.

(** The replacement of a slash at the end of the string by nothing (the
    regular expression matches one slash before the end): the string
    without its last character when that is a slash. *)
Fixpoint strip_trailing_slash (s : string) : string :=
  match s with
  | EmptyString => EmptyString
  | String c EmptyString => if Ascii.eqb c "/" then EmptyString else s
  | String c s' => String c (strip_trailing_slash s')
  end.

End JS.

(** ** [src/api/datasets.ts] *)

(** *** The class [OSet]

    [OSet<T>] wraps a [Map<string, T>] keyed by [JSON.stringify] of the
    element.  No code in the repository observes the iteration order of this
    map, so it is modelled by a finite map. *)

Module OSet.
Section OSet.
Context {T : Type} (JSON_stringify : T → string).

Record t : Type := { map : gmap string T }.

Definition new : t := {| map := ∅ |}.

Definition add (element : T) (s : t) : t :=
  {| map := <[JSON_stringify element := element]> (map s) |}.

Definition has (element : T) (s : t) : bool :=
  bool_decide (JSON_stringify element ∈ (map_to_list (map s)).*1).

(** [delete] returns the new set and whether the element was there. *)
Definition delete (element : T) (s : t) : t * bool :=
  ({| map := base.delete (JSON_stringify element) (map s) |},
   bool_decide (is_Some (map s !! JSON_stringify element))).

(** The elements the set holds (the values of the entries). *)
Definition elements (s : t) : list T := (map_to_list (map s)).*2.

Definition size (s : t) : nat := base.size (map s).
End OSet.
Arguments t : clear implicits.
End OSet.

Module Datasets.

Import JS.

(** *** Types of the manifest

    Modelled from the spec: the interfaces of [manifest.ts] and
    [dataset_metadata.ts] ([SpatialTransform], [DisplaySettings],
    [VolumeSource], [MeshSource], [DatasetView], [DatasetMetadata]) and the
    types of the package [neuroglancer-url-tools], none of which is part of
    the sources.  Each record has the fields that the code reads or writes,
    with the types of the values it treats them as. *)

Record SpatialTransform : Type := {
  axes : list string;
  units : list string;
  translate : list float;
  scale : list float
}.

(** [CoordinateSpace]: for each axis, [[size, unit]]. *)
Record CoordinateSpace : Type := {
  cs_x : float * string;
  cs_y : float * string;
  cs_z : float * string
}.

(** A matrix entry is a number, or [undefined] where an array lookup
    found nothing. *)
Record CoordinateSpaceTransform : Type := {
  matrix : list (list (option float));
  outputDimensions_of : CoordinateSpace;
  inputDimensions_of : CoordinateSpace
}.

Record ContrastLimits : Type := {
  cl_start : float;
  cl_end : float;
  cl_min : float;
  cl_max : float
}.

Record DisplaySettings : Type := {
  contrastLimits : ContrastLimits;
  invertLUT : bool;
  color : nullable string
}.

Record MeshSource : Type := {
  mesh_url : string;
  mesh_transform : SpatialTransform;
  ids : list float
}.

Record VolumeSource : Type := {
  vol_url : string;
  vol_name : string;
  vol_transform : SpatialTransform;
  contentType : string;
  sampleType : string;
  format : string;
  displaySettings : DisplaySettings;
  vol_description : string;
  subsources : list MeshSource
}.

Inductive LayerTypes : Type := image | segmentation | annotation | mesh.

(** *** SpatialTransformToNeuroglancer *)

Definition SpatialTransformToNeuroglancer
    (transform : SpatialTransform) (outputDimensions : CoordinateSpace)
    : CoordinateSpaceTransform :=
  let scale_x := get (scale transform) (indexOf (axes transform) "x") in
  let scale_y := get (scale transform) (indexOf (axes transform) "y") in
  let scale_z := get (scale transform) (indexOf (axes transform) "z") in
  let inputDimensions := {|
    cs_x := ((1e-9 * Math_abs scale_x)%float, "m");
    cs_y := ((1e-9 * Math_abs scale_y)%float, "m");
    cs_z := ((1e-9 * Math_abs scale_z)%float, "m")
  |} in
  {| matrix :=
       [ [Some (if lt scale_x (Some 0%float) then (-1)%float else 1%float);
          Some 0%float; Some 0%float;
          get (translate transform) (indexOf (axes transform) "x")];
         [Some 0%float;
          Some (if lt scale_y (Some 0%float) then (-1)%float else 1%float);
          Some 0%float;
          get (translate transform) (indexOf (axes transform) "y")];
         [Some 0%float; Some 0%float;
          Some (if lt scale_z (Some 0%float) then (-1)%float else 1%float);
          get (translate transform) (indexOf (axes transform) "z")] ];
     outputDimensions_of := outputDimensions;
     inputDimensions_of := inputDimensions |}.

(** one nanometer, expressed as a scaled meter *)
Definition nm : float * string := (1e-9%float, "m").

(** this specifies the basis vectors of the coordinate space neuroglancer
    will use for displaying all the data *)
Definition outputDimensions : CoordinateSpace :=
  {| cs_x := nm; cs_y := nm; cs_z := nm |}.

(** *** Layers ([ImageLayer] and [SegmentationLayer] of the external package)

    The classes are declared outside the repository: a layer is modelled
    by the constructor arguments the code passes that are not [undefined].
    An image layer carries an opacity; the code never passes or assigns
    an opacity for a segmentation layer. *)

Record LayerDataSource2 : Type := {
  lds_url : string;
  lds_transform : CoordinateSpaceTransform;
  lds_CoordinateSpaceTransform : CoordinateSpaceTransform
}.

Record ImageLayer : Type := {
  img_tab : string;
  img_name : string;
  img_source : LayerDataSource2;
  opacity : float;
  blend : string;
  shader : option string
}.

Inductive SegmentationSource : Type :=
| OneSource (s : LayerDataSource2)
| SourceList (l : list LayerDataSource2).

(** [seg_arg2] and [seg_arg8] are the second and eighth constructor
    arguments (both [true] in every call). *)
Record SegmentationLayer : Type := {
  seg_tab : string;
  seg_arg2 : bool;
  seg_name : string;
  seg_source : SegmentationSource;
  seg_segments : option (list float);
  seg_arg8 : bool;
  seg_color : option string
}.

Inductive Layer : Type :=
| Image (l : ImageLayer)
| Segmentation (l : SegmentationLayer).

Definition layer_name (l : Layer) : string :=
  match l with
  | Image i => img_name i
  | Segmentation g => seg_name g
  end.

(** [l.opacity], [undefined] on a layer that has none. *)
Definition layer_opacity (l : Layer) : option float :=
  match l with
  | Image i => Some (opacity i)
  | Segmentation _ => None
  end.

Definition layer_blend (l : Layer) : option string :=
  match l with
  | Image i => Some (blend i)
  | Segmentation _ => None
  end.

(** [l instanceof ImageLayer] *)
Definition instanceof_ImageLayer (l : Layer) : bool :=
  match l with
  | Image _ => true
  | Segmentation _ => false
  end.

(** *** Views *)

Record IDatasetView : Type := {
  iv_name : string;
  iv_description : string;
  iv_sources : list string;
  iv_orientation : nullable (list float);
  iv_position : nullable (list float);
  iv_scale : nullable float
}.

Definition DefaultView : IDatasetView := {|
  iv_name := "Default view";
  iv_description := "The default view of the data";
  iv_sources := [];
  iv_orientation := Value [0; 1; 0; 0]%float;
  iv_position := Undefined;
  iv_scale := Undefined
|}.

Record DatasetView : Type := {
  view_name : string;
  view_description : string;
  view_sources : list string;
  view_position : option (list float);
  view_scale : option float;
  view_orientation : option (list float)
}.

(** [new DatasetView(blob)]; the parameter defaults to [DefaultView] when
    no argument is passed. *)
Definition new_DatasetView (arg : option IDatasetView) : DatasetView :=
  let blob := default DefaultView arg in
  {| view_name := iv_name blob;
     view_description := iv_description blob;
     view_sources := iv_sources blob;
     view_position := coalesce_undefined (iv_position blob);
     view_scale := coalesce_undefined (iv_scale blob);
     view_orientation := coalesce_undefined (iv_orientation blob) |}.

(** *** Tags *)

Inductive TagCategories : Type :=
| Software_Availability
| Contributing_institution
| Volumes
| Sample_Organism
| Sample_Type
| Sample_Subtype
| Sample_Treatment
| Acquisition_institution
| Lateral_voxel_size
| Axial_voxel_size.

(** The string each category is in the source. *)
Definition category_string (c : TagCategories) : string :=
  match c with
  | Software_Availability => "Software Availability"
  | Contributing_institution => "Contributing institution"
  | Volumes => "Volumes"
  | Sample_Organism => "Sample: Organism"
  | Sample_Type => "Sample: Type"
  | Sample_Subtype => "Sample: Subtype"
  | Sample_Treatment => "Sample: Treatment"
  | Acquisition_institution => "Acquisition institution"
  | Lateral_voxel_size => "Lateral voxel size"
  | Axial_voxel_size => "Axial voxel size"
  end.

Record ITag : Type := {
  value : string;
  category : TagCategories
}.

#[export] Instance TagCategories_eq_dec : EqDecision TagCategories.
Proof. solve_decision. Defined.

#[export] Instance ITag_eq_dec : EqDecision ITag.
Proof. solve_decision. Defined.

(** [JSON.stringify] of an object literal [{value: ..., category: ...}]:
    the properties in creation order. *)
Definition JSON_stringify_tag (t : ITag) : string :=
  "{" +:+ stringify_string "value" +:+ ":" +:+ stringify_string (value t)
  +:+ "," +:+ stringify_string "category" +:+ ":"
  +:+ stringify_string (category_string (category t)) +:+ "}".

(** *** Dataset metadata ([dataset_metadata.ts]), the fields [makeTags] reads *)

Record GridSpacingValues : Type := {
  gs_x : option float;
  gs_y : option float;
  gs_z : option float
}.

Record ImagingMetadata : Type := {
  imaging_institution : string;
  gridSpacing_values : GridSpacingValues
}.

Record SampleMetadata : Type := {
  organism : list string;
  sample_type : list string;
  subtype : list string;
  treatment : list string
}.

Record DatasetMetadata : Type := {
  imaging : ImagingMetadata;
  institution : list string;
  sample : SampleMetadata;
  softwareAvailability : string
}.

Definition resolutionTagThreshold : float := 6%float.

Abbreviation TagSet := (OSet.t ITag).
Abbreviation tags_add := (OSet.add JSON_stringify_tag).

Section Externals.

(** The runtime's digit generation for numbers that are not integers
    up to 2^53 (see [JS.Number_toString]). *)
Variable digits : float → string.

Definition toString (x : float) : string := Number_toString digits x.

(** *** makeShader *)

Definition newline : string := String "010"%char EmptyString.

Definition makeShader (shaderArgs : DisplaySettings) (sampleType : string)
    : option string :=
  if String.eqb sampleType "scalar" then
    let lower := cl_min (contrastLimits shaderArgs) in
    let upper := cl_max (contrastLimits shaderArgs) in
    let cmin := cl_start (contrastLimits shaderArgs) in
    let cmax := cl_end (contrastLimits shaderArgs) in
    Some
      ("#uicontrol invlerp normalized(range=[" +:+ toString cmin +:+ ", "
         +:+ toString cmax +:+ "], window=[" +:+ toString lower +:+ ", "
         +:+ toString upper +:+ "])" +:+ newline
       +:+ "        #uicontrol int invertColormap slider(min=0, max=1, step=1, default="
         +:+ toString (if invertLUT shaderArgs then 1%float else 0%float)
         +:+ ")" +:+ newline
       +:+ "        #uicontrol vec3 color color(default=" +:+ dquote
         +:+ template_nullable (color shaderArgs) +:+ dquote +:+ ")" +:+ newline
       +:+ "        float inverter(float val, int invert) {return 0.5 + ((2.0 * (-float(invert) + 0.5)) * (val - 0.5));}"
         +:+ newline
       +:+ "          void main() {" +:+ newline
       +:+ "          emitRGB(color * inverter(normalized(), invertColormap));"
         +:+ newline
       +:+ "        }")
  else if String.eqb sampleType "label" then Some EmptyString
  else None.

(** *** makeLayer *)

Definition makeSource (url : string) (transform : SpatialTransform)
    : LayerDataSource2 :=
  {| lds_url := url;
     lds_transform := SpatialTransformToNeuroglancer transform outputDimensions;
     lds_CoordinateSpaceTransform :=
       SpatialTransformToNeuroglancer transform outputDimensions |}.

Definition makeLayer (volume : VolumeSource) (layerType : LayerTypes)
    : option Layer :=
  let srcURL := format volume +:+ "://" +:+ vol_url volume in
  let source := makeSource srcURL (vol_transform volume) in
  let subsources_ :=
    (λ subsource, makeSource ("precomputed://" +:+ mesh_url subsource)
                             (mesh_transform subsource))
      <$> subsources volume in
  let color := coalesce_undefined (color (displaySettings volume)) in
  match layerType with
  | image =>
      let shader := makeShader (displaySettings volume) (sampleType volume) in
      Some (Image {| img_tab := "rendering";
                     img_name := vol_name volume;
                     img_source := source;
                     opacity := 0.75%float;
                     blend := "additive";
                     shader := shader |})
  | segmentation =>
      match subsources volume with
      | first :: _ =>
          Some (Segmentation {| seg_tab := "source";
                                seg_arg2 := true;
                                seg_name := vol_name volume;
                                seg_source := SourceList (source :: subsources_);
                                seg_segments := Some (ids first);
                                seg_arg8 := true;
                                seg_color := color |})
      | [] =>
          Some (Segmentation {| seg_tab := "source";
                                seg_arg2 := true;
                                seg_name := vol_name volume;
                                seg_source := OneSource source;
                                seg_segments := None;
                                seg_arg8 := true;
                                seg_color := color |})
      end
  | annotation | mesh => None
  end.

(** *** The class [Dataset] *)

Definition makeTags (descr : DatasetMetadata) : TagSet :=
  let tags : TagSet := OSet.new in
  let tags :=
    tags_add {| value := imaging_institution (imaging descr);
                category := Acquisition_institution |} tags in
  let tags :=
    foldl (λ tags val, tags_add {| value := val; category := Contributing_institution |} tags)
          tags (institution descr) in
  let tags :=
    foldl (λ tags val, tags_add {| value := val; category := Sample_Organism |} tags)
          tags (organism (sample descr)) in
  let tags :=
    foldl (λ tags val, tags_add {| value := val; category := Sample_Type |} tags)
          tags (sample_type (sample descr)) in
  let tags :=
    foldl (λ tags val, tags_add {| value := val; category := Sample_Subtype |} tags)
          tags (subtype (sample descr)) in
  let tags :=
    foldl (λ tags val, tags_add {| value := val; category := Sample_Treatment |} tags)
          tags (treatment (sample descr)) in
  let axvox := gs_z (gridSpacing_values (imaging descr)) in
  let tags :=
    match axvox with
    | Some _ =>
        let value :=
          if le axvox (Some resolutionTagThreshold)
          then "<= " +:+ toString resolutionTagThreshold +:+ " nm"
          else "> " +:+ toString resolutionTagThreshold +:+ " nm" in
        tags_add {| value := value; category := Axial_voxel_size |} tags
    | None => tags
    end in
  let tags :=
    if bool_decide (gs_y (gridSpacing_values (imaging descr)) ≠ None)
       || bool_decide (gs_x (gridSpacing_values (imaging descr)) ≠ None)
    then
      let latvox := Math_min (gs_y (gridSpacing_values (imaging descr)))
                             (gs_x (gridSpacing_values (imaging descr))) in
      tags_add {| value := toString latvox; category := Lateral_voxel_size |} tags
    else tags in
  tags_add {| value := softwareAvailability descr;
              category := Software_Availability |} tags.

Record Dataset : Type := {
  ds_name : string;
  space : CoordinateSpace;
  volumes : Map VolumeSource;
  description : DatasetMetadata;
  thumbnailURL : string;
  views : list DatasetView;
  tags : TagSet
}.

(** [new Dataset(name, space, volumes, description, thumbnailURL, views)] *)
Definition new_Dataset (name : string) (space : CoordinateSpace)
    (volumes : Map VolumeSource) (description : DatasetMetadata)
    (thumbnailURL : string) (views : list IDatasetView) : Dataset :=
  {| ds_name := name;
     space := space;
     volumes := volumes;
     description := description;
     thumbnailURL := thumbnailURL;
     views :=
       if (length views =? 0)%nat then [new_DatasetView None]
       else (λ v, new_DatasetView (Some v)) <$> views;
     tags := makeTags description |}.

(** *** Dataset.makeNeuroglancerViewerState *)

Record SelectedLayer : Type := {
  sl_layer : string;
  sl_visible : bool
}.

(** The arguments of [new ViewerState(...)] that are not [undefined];
    [vs_arg12] to [vs_arg14] and [vs_arg19], [vs_arg20] are named after
    their position. *)
Record ViewerState : Type := {
  vs_dimensions : CoordinateSpace;
  vs_position : option (list float);
  vs_layers : list Layer;
  vs_layout : string;
  vs_crossSectionScale : float;
  vs_crossSectionOrientation : option (list float);
  vs_projectionScale : float;
  vs_projectionOrientation : option (list float);
  vs_arg12 : bool;
  vs_arg13 : bool;
  vs_arg14 : bool;
  vs_arg19 : string;
  vs_arg20 : string;
  vs_selectedLayer : SelectedLayer
}.

(** [urlSafeStringify] and [encodeFragment] of the external package. *)
Variable urlSafeStringify : ViewerState → string.
Variable encodeFragment : string → string.

(** hack to post-hoc adjust alpha if there is only 1 layer selected *)
Definition adjust_alpha (layers : list Layer) : list Layer :=
  match layers with
  | [Image l] =>
      [Image {| img_tab := img_tab l; img_name := img_name l;
                img_source := img_source l; opacity := 1.0%float;
                blend := blend l; shader := shader l |}]
  | _ => layers
  end.

(** The [ViewerState] the method builds; reading [layers[0].name] of an
    empty array throws. *)
Definition makeViewerState (layers : list Layer)
    (viewerPosition : option (list float)) (crossSectionScale : option float)
    (crossSectionOrientation : option (list float)) : completion ViewerState :=
  let layers := adjust_alpha layers in
  let projectionOrientation := crossSectionOrientation in
  let crossSectionScale :=
    if truthy_number crossSectionScale then ToNumber crossSectionScale
    else 50%float in
  let projectionScale := 65536%float in
  match layers with
  | [] => Throw (TypeError "Cannot read properties of undefined (reading 'name')")
  | first :: _ =>
      let selectedLayer := {| sl_layer := layer_name first; sl_visible := true |} in
      Normal {| vs_dimensions := outputDimensions;
                vs_position := viewerPosition;
                vs_layers := layers;
                vs_layout := "4panel";
                vs_crossSectionScale := crossSectionScale;
                vs_crossSectionOrientation := crossSectionOrientation;
                vs_projectionScale := projectionScale;
                vs_projectionOrientation := projectionOrientation;
                vs_arg12 := true;
                vs_arg13 := true;
                vs_arg14 := true;
                vs_arg19 := "black";
                vs_arg20 := "black";
                vs_selectedLayer := selectedLayer |}
  end.

Definition makeNeuroglancerViewerState (layers : list Layer)
    (viewerPosition : option (list float)) (crossSectionScale : option float)
    (crossSectionOrientation : option (list float)) : completion string :=
  bind (makeViewerState layers viewerPosition crossSectionScale
                        crossSectionOrientation)
       (λ vState, Normal (encodeFragment (urlSafeStringify vState))).

(** *** makeDatasets

    [GithubDatasetAPI] is declared outside the repository: [api_index]
    is the outcome of awaiting [API.index], [api_get key] the outcome of
    awaiting [API.get(key)] (the thumbnail, already printed as a string,
    and the manifest).  Messages written to the console are not part of
    the model. *)

Record Manifest : Type := {
  sources : list (string * VolumeSource);
  metadata : DatasetMetadata;
  manifest_views : list IDatasetView
}.

Record Index : Type := {
  datasets : list (string * string)
}.

Record GithubDatasetAPI : Type := {
  api_index : completion Index;
  api_get : string → completion (string * Manifest)
}.

Definition Object_keys {V} (o : list (string * V)) : list string := o.*1.

Definition makeDatasets (API : GithubDatasetAPI) : completion (Map Dataset) :=
  match api_index API with
  | Throw error => Normal (new_Map [])
  | Normal index =>
      bind (Promise_all
              ((λ dataset_key,
                 bind (api_get API dataset_key)
                      (λ r, Normal (dataset_key,
                                    new_Dataset dataset_key outputDimensions
                                      (new_Map (sources r.2))
                                      (metadata r.2) r.1
                                      (manifest_views r.2))))
               <$> Object_keys (datasets index)))
           (λ entries, Normal (new_Map entries))
  end.

End Externals.

(** *** makeQuiltURL, isS3 *)

Definition makeQuiltURL (bucket prefix : string) : string :=
  "https://open.quiltdata.com/b/" +:+ bucket +:+ "/tree/" +:+ prefix +:+ "/".

Definition isS3 (url : string) : bool := startsWith url "s3://".

(** *** The class [Volume]

    [new Volume(...)]; [subsources] may be [undefined]. *)
Definition new_Volume (url name : string) (transform : SpatialTransform)
    (contentType sampleType format : string) (displaySettings : DisplaySettings)
    (description : string) (subsources : option (list MeshSource)) : VolumeSource :=
  {| vol_url := url;
     vol_name := name;
     vol_transform := transform;
     contentType := contentType;
     sampleType := sampleType;
     format := format;
     displaySettings := displaySettings;
     vol_description := description;
     subsources := match subsources with
                   | Some subsources => subsources
                   | None => []
                   end |}.

End Datasets.

(** ** [src/components/NeuroglancerLink.tsx] and [src/components/DatasetPaper.tsx] *)

Module Components.

Import JS.

(** The components were written against a revision of the dataset classes
    in which a view lists [volumeKeys] and the dataset compiles a view
    into the link fragment.  That method is not in the repository at this
    revision: it is a field of the dataset object. *)

Section Components.
Context {Volume ViewData : Type}.

Record DatasetView : Type := {
  view_data : ViewData;
  volumeKeys : list string
}.

Record Dataset : Type := {
  volumes : Map Volume;
  views : list DatasetView;
  makeNeuroglancerViewerState : DatasetView → string
}.

Record AppState : Type := {
  neuroglancerAddress : string;
  webGL2Enabled : bool
}.

(** What the link component renders. *)
Inductive element : Type :=
| NoLayersSelected
| ViewButton (href : string) (warningIcon : bool).

Definition NeuroglancerLink (dataset : Dataset) (view : DatasetView)
    (checkState : gmap string bool) (appState : AppState) : element :=
  let local_view_volumeKeys :=
    foldl (λ keys kv, if default false (checkState !! kv.1) then keys ++ [kv.1]
                      else keys)
          [] (volumes dataset) in
  let local_view := {| view_data := view_data view;
                       volumeKeys := local_view_volumeKeys |} in
  if (length (volumeKeys local_view) =? 0)%nat then NoLayersSelected
  else ViewButton (neuroglancerAddress appState
                     +:+ makeNeuroglancerViewerState dataset local_view)
                  (negb (webGL2Enabled appState)).

(** *** DatasetPaper

    [checkStates.layerCheckState] is a reference to a [Map] object:
    [Map.prototype.set] updates that object in place, [new Map(...)]
    allocates another one.  The maps live in a heap (a list, addressed
    by position) and the state holds an address. *)

Record CheckStates : Type := {
  layerCheckState : nat;
  viewCheckState : list bool
}.

Record component : Type := {
  heap : list (gmap string bool);
  checkStates : CheckStates
}.

(** The map the state refers to. *)
Definition layerChecks (σ : component) : gmap string bool :=
  default ∅ (heap σ !! layerCheckState (checkStates σ)).

Record ChangeEvent : Type := {
  target_name : string;
  target_checked : bool
}.

(** [[...m.values()].every(v => !v)] *)
Definition every_unchecked (m : gmap string bool) : bool :=
  forallb negb (map_to_list m).*2.

(** The state on the first render.  [views[0].volumeKeys] is read in the
    callback that runs once per volume key of the dataset: with a volume
    and no view that read throws; with no volume nothing is read and the
    map of layers is empty. *)
Definition initialState (dataset : Dataset) : completion component :=
  let viewCheckStateInit :=
    imap (λ idx _, bool_decide (idx = 0)) (views dataset) in
  let useState (layerCheckStateInit : gmap string bool) :=
    {| heap := [layerCheckStateInit];
       checkStates := {| layerCheckState := 0;
                         viewCheckState := viewCheckStateInit |} |} in
  match views dataset with
  | [] =>
      match Map_keys (volumes dataset) with
      | [] => Normal (useState ∅)
      | _ :: _ =>
          Throw (TypeError "Cannot read properties of undefined (reading 'volumeKeys')")
      end
  | first :: _ =>
      let layerCheckStateInit : gmap string bool :=
        foldl (λ m k, <[k := bool_decide (k ∈ volumeKeys first)]> m) ∅
              (Map_keys (volumes dataset)) in
      Normal (useState layerCheckStateInit)
  end.

Definition handleLayerChange (event : ChangeEvent) (σ : component) : component :=
  (* checkStates.layerCheckState.set(...) writes into the map of the state *)
  let r := layerCheckState (checkStates σ) in
  let updated := <[target_name event := target_checked event]> (layerChecks σ) in
  let heap1 := <[r := updated]> (heap σ) in
  (* new Map(... .entries()) is a copy at a new address *)
  let newCheckState := length heap1 in
  let heap2 := heap1 ++ [updated] in
  (* Prevent all checkboxes from being deselected *)
  if negb (every_unchecked updated) then
    {| heap := heap2;
       checkStates := {| layerCheckState := newCheckState;
                         viewCheckState := viewCheckState (checkStates σ) |} |}
  else
    {| heap := heap2; checkStates := checkStates σ |}.

(** The states the component reaches from the first render by layer check
    box events (a change of view, the other event of the component, also
    installs states; the properties below do not need it). *)
Inductive reachable (dataset : Dataset) : component → Prop :=
| reachable_init σ :
    initialState dataset = Normal σ → reachable dataset σ
| reachable_layer_change σ event :
    reachable dataset σ → reachable dataset (handleLayerChange event σ).

(** A layer of the dataset is checked in the map of the state: the keys
    of the map that are no volume keys of the dataset are no layers. *)
Definition some_layer_checked (dataset : Dataset) (σ : component) : Prop :=
  ∃ k, k ∈ Map_keys (volumes dataset) ∧ layerChecks σ !! k = Some true.

End Components.
Arguments DatasetView : clear implicits.
Arguments Dataset : clear implicits.

End Components.

(** ** [src/components/DatasetPaper.tsx]: the view check boxes *)

Module DatasetPaperEvents.

Import JS Components.

Section Events.
Context {Volume ViewData : Type}.

(** The array index that [parseInt(event.target.name)] denotes, [None] when
    the result is [NaN], negative or otherwise no array index.  The names
    of the view check boxes are given by a component that is not among the
    sources. *)
Variable parseInt_index : string → option nat.

(** [dataset.views[checkStates.viewCheckState.findIndex(a => a)]], the view
    handed to the link component. *)
Definition selectedView (dataset : Dataset Volume ViewData) (σ : component)
    : option (DatasetView ViewData) :=
  get (views dataset) (findIndex id (viewCheckState (checkStates σ))).

(** The assignment [newCheckState[i] = true].  An index past the end
    lengthens the array and leaves holes before it; a hole reads as
    [undefined], which the readers of the array take for [false], and is
    written [false] here. *)
Definition set_checked (newCheckState : list bool) (index : option nat) : list bool :=
  match index with
  | Some i =>
      if (i <? length newCheckState)%nat then <[i := true]> newCheckState
      else newCheckState ++ replicate (i - length newCheckState) false ++ [true]
  | None => newCheckState
  end.

Definition handleViewChange (event : ChangeEvent)
    (views : list (DatasetView ViewData)) (σ : component) : completion component :=
  (* Only handle selected -> unselected event *)
  if target_checked event then
    let newCheckState :=
      set_checked ((λ _, false) <$> viewCheckState (checkStates σ))
                  (parseInt_index (target_name event)) in
    let newLayerState : gmap string bool := (λ _, false) <$> layerChecks σ in
    match get views (findIndex id newCheckState) with
    | None =>
        Throw (TypeError "Cannot read properties of undefined (reading 'volumeKeys')")
    | Some view =>
        let newLayerState :=
          foldl (λ m k, <[k := true]> m) newLayerState (volumeKeys view) in
        Normal {| heap := heap σ ++ [newLayerState];
                  checkStates := {| layerCheckState := length (heap σ);
                                    viewCheckState := newCheckState |} |}
    end
  else Normal σ.

(** The states of the component: the first render, then the events of the
    layer and of the view check boxes that complete. *)
Inductive reaches (dataset : Dataset Volume ViewData) : component → Prop :=
| reaches_init σ :
    initialState dataset = Normal σ → reaches dataset σ
| reaches_layer_change σ event :
    reaches dataset σ → reaches dataset (handleLayerChange event σ)
| reaches_view_change σ event σ' :
    reaches dataset σ →
    handleViewChange event (views dataset) σ = Normal σ' →
    reaches dataset σ'.

End Events.

End DatasetPaperEvents.

(** ** [src/components/Home.tsx] and [src/components/DatasetDetails.tsx] *)

Module Pages.

Import JS.

Record AppState : Type := {
  datasets : Map Datasets.Dataset;
  datasetsLoading : bool;
  metadataEndpoint : string
}.

(** The effect of the first render of [Home]: the states it hands to
    [setAppState], in order.  [loaded] is the outcome of
    [makeDatasets(appState.metadataEndpoint)]; the promise has a handler for
    fulfilment only. *)
Definition Home_effect (loaded : completion (Map Datasets.Dataset))
    (appState : AppState) : list AppState :=
  {| datasets := datasets appState;
     datasetsLoading := true;
     metadataEndpoint := metadataEndpoint appState |}
  :: match loaded with
     | Normal ds => [ {| datasets := ds;
                         datasetsLoading := false;
                         metadataEndpoint := metadataEndpoint appState |} ]
     | Throw _ => []
     end.

(** The state the application is left in. *)
Definition Home_final (loaded : completion (Map Datasets.Dataset))
    (appState : AppState) : AppState :=
  List.last (Home_effect loaded appState) appState.

(** What [DatasetDetails] renders. *)
Inductive details : Type :=
| Skeletons
| Error404 (slug : string)
| Paper (datasetKey key : string).

Definition DatasetDetails (url slug : string) (appState : AppState) : details :=
  if datasetsLoading appState then Skeletons
  else match Map_get slug (datasets appState) with
       | None => Error404 slug
       | Some _ => Paper slug url
       end.

End Pages.

(** ** [src/components/DatasetDescriptionText.tsx] *)

Module DescriptionText.

Import JS.

Record Hyperlink : Type := {
  href : string;
  title : string
}.

Record DOI : Type := {
  doi_id : string;
  doi_DOI : string
}.

(** A value of type [DOI | Hyperlink]. *)
Inductive reference : Type :=
| IsDOI (d : DOI)
| IsHyperlink (h : Hyperlink).

(** [(val as Hyperlink).href !== undefined] *)
Definition isHyperlinkOrDOI (val : reference) : bool :=
  match val with
  | IsHyperlink _ => true
  | IsDOI _ => false
  end.

Definition doiToHyperlink (d : reference) : Hyperlink :=
  match d with
  | IsDOI d_ => {| href := "https://doi.org/" +:+ doi_DOI d_; title := doi_id d_ |}
  | IsHyperlink h => h
  end.

(** An item of the list that [HyperlinkList] renders: its key, and the
    text or the anchor it shows. *)
Inductive item : Type :=
| TextItem (key text : string)
| AnchorItem (key : string) (link : Hyperlink).

Definition HyperlinkList (links : list (string + Hyperlink)) : list item :=
  imap (λ idx link,
          let key := "publicationList" +:+ pretty idx in
          match link with
          | inl text => TextItem key text
          | inr h => AnchorItem key h
          end) links.

Record UnitfulVector : Type := {
  uv_unit : string;
  uv_values : list (string * float)
}.

Section Format.

(** [Number.prototype.toFixed] of the runtime. *)
Variable toFixed : float → float → string.

Definition StringifyUnitfulVector (vec : UnitfulVector) (decimals : float) : string :=
  let val_array := (λ v, toFixed v decimals) <$> (uv_values vec).*2 in
  let axis_array := (uv_values vec).*1 in
  if (length val_array =? 0)%nat then "N/A"
  else join " x " val_array +:+ " (" +:+ join ", " axis_array +:+ ")".

End Format.

End DescriptionText.

(** ** [src/api/datasets.ts], the earlier revision

    The revision of the dataset classes that reads one [index.json] per
    dataset from a bucket. *)

Module Legacy.

Import JS.

Definition IMAGE_DTYPES : list string := ["int8"; "uint8"; "uint16"].
Definition SEGMENTATION_DTYPES : list string := ["uint64"].

Record DisplaySettings : Type := {
  contrastMin : float;
  contrastMax : float;
  gamma : float;
  invertColormap : bool;
  color : string
}.

(** The fields of [VolumeMeta] that the code reads. *)
Record VolumeMeta : Type := {
  vm_name : string;
  vm_dataType : string;
  vm_dimensions : list float;
  vm_transform : Datasets.SpatialTransform;
  vm_contentType : string;
  vm_description : string;
  vm_displaySettings : DisplaySettings;
  vm_store : string
}.

Record DatasetIndex : Type := {
  index_name : string;
  index_volumes : list (string * VolumeMeta)
}.

(** the axis order for neuroglancer is x y z *)
Definition axisOrder (label : string) : option Z :=
  if String.eqb label "x" then Some 0%Z
  else if String.eqb label "y" then Some 1%Z
  else if String.eqb label "z" then Some 2%Z
  else None.

Definition sep : string := "/".

Definition newline : string := String "010"%char EmptyString.

(** A single n-dimensional array.  The entries of the reordered arrays
    may be [undefined]. *)
Record Volume : Type := {
  path : string;
  name : string;
  dtype : string;
  dimensions : list (option float);
  origin : list (option float);
  gridSpacing : list (option float);
  unit : option string;
  displaySettings : DisplaySettings;
  store : string;
  contentType : string
}.

(** [arg[v]] where [v] may be [undefined]. *)
Definition at_index {A} (arg : list A) (v : option Z) : option A :=
  match v with
  | Some i => get arg i
  | None => None
  end.

(** [reorder] of [fromVolumeMeta], for the axis labels [axes]. *)
Definition reorder {A} (axes : list string) (arg : list A) : list (option A) :=
  let axisIndices := axisOrder <$> axes in
  (λ v, at_index arg v) <$> axisIndices.

Record LayerDataSource : Type := {
  src_url : string;
  src_transform : Datasets.CoordinateSpaceTransform
}.

(** The [Layer] that [toLayer] builds: the constructor arguments that are
    not [undefined] and the two properties assigned afterwards. *)
Record Layer : Type := {
  layer_type : string;
  layer_source : LayerDataSource;
  layer_name : string;
  layer_shader : string;
  layer_blend : string;
  layer_opacity : float
}.

Record SelectedLayer : Type := {
  sl_layer : string;
  sl_visible : bool
}.

(** The arguments of [new ViewerState(...)] that are not [undefined]. *)
Record ViewerState : Type := {
  vs_dimensions : Datasets.CoordinateSpace;
  vs_crossSectionScale : float;
  vs_layers : list Layer;
  vs_selectedLayer : SelectedLayer
}.

Section Externals.

(** The digit generation of [JS.Number_toString]. *)
Variable digits : float → string.

Definition toString (x : float) : string := Number_toString digits x.

Definition makeShader (shaderArgs : DisplaySettings) (contentType : string) : string :=
  if String.eqb contentType "em" then
    "#uicontrol float min slider(min=0, max=1, step=0.001, default="
      +:+ toString (contrastMin shaderArgs) +:+ ")" +:+ newline
    +:+ "                #uicontrol float max slider(min=0, max=1, step=0.001, default="
      +:+ toString (contrastMax shaderArgs) +:+ ")" +:+ newline
    +:+ "                #uicontrol float gamma slider(min=0, max=3, step=0.001, default="
      +:+ toString (gamma shaderArgs) +:+ ")" +:+ newline
    +:+ "                #uicontrol int invertColormap slider(min=0, max=1, step=1, default="
      +:+ toString (if invertColormap shaderArgs then 1%float else 0%float)
      +:+ ")" +:+ newline
    +:+ "                #uicontrol vec3 color color(default=" +:+ dquote
      +:+ color shaderArgs +:+ dquote +:+ ")" +:+ newline
    +:+ "                float inverter(float val, int invert) {return 0.5 + ((2.0 * (-float(invert) + 0.5)) * (val - 0.5));}"
      +:+ newline
    +:+ "                float normer(float val) {return (clamp(val, min, max) - min) / (max-min);}"
      +:+ newline
    +:+ "                void main() {emitRGB(color * pow(inverter(normer(toNormalized(getDataValue())), invertColormap), gamma));}"
  else if String.eqb contentType "segmentation" then
    "#uicontrol vec3 color color(default=" +:+ dquote +:+ color shaderArgs
      +:+ dquote +:+ ")" +:+ newline
    +:+ "                void main() {emitRGB(color * ceil(float(getDataValue().value[0]) / 4294967295.0));}"
  else EmptyString.

(** [new URL(outerPath)] with its [pathname] replaced by
    [Path.resolve(pathname, innerPath)], printed; the constructor throws on
    a string that is no URL. *)
Variable resolveURL : string → string → completion string.

(** [Volume.fromVolumeMeta] *)
Definition fromVolumeMeta (outerPath innerPath : string) (volumeMeta : VolumeMeta)
    : completion Volume :=
  bind (resolveURL outerPath innerPath) (λ absPath,
    let axes := Datasets.axes (vm_transform volumeMeta) in
    Normal {| path := absPath;
              name := vm_description volumeMeta;
              dtype := vm_dataType volumeMeta;
              dimensions := reorder axes (vm_dimensions volumeMeta);
              origin := reorder axes (Datasets.translate (vm_transform volumeMeta));
              gridSpacing := reorder axes (Datasets.scale (vm_transform volumeMeta));
              unit := mjoin (get (reorder axes (Datasets.units (vm_transform volumeMeta))) 0);
              displaySettings := vm_displaySettings volumeMeta;
              store := vm_store volumeMeta;
              contentType := vm_contentType volumeMeta |}).

(** [this.gridSpacing[i]], [this.origin[i]] *)
Definition entry (l : list (option float)) (i : Z) : option float := mjoin (get l i).

(** [Volume.toLayer] *)
Definition toLayer (this : Volume) : Layer :=
  let srcURL := store this +:+ "://" +:+ path this in
  let inputDimensions := {|
    Datasets.cs_x := ((1e-9 * ToNumber (entry (gridSpacing this) 0))%float, "m");
    Datasets.cs_y := ((1e-9 * ToNumber (entry (gridSpacing this) 1))%float, "m");
    Datasets.cs_z := ((1e-9 * ToNumber (entry (gridSpacing this) 2))%float, "m")
  |} in
  let transform := {|
    Datasets.matrix :=
      [ [Some 1%float; Some 0%float; Some 0%float; entry (origin this) 0];
        [Some 0%float; Some 1%float; Some 0%float; entry (origin this) 1];
        [Some 0%float; Some 0%float; Some 1%float; entry (origin this) 2] ];
    Datasets.outputDimensions_of := Datasets.outputDimensions;
    Datasets.inputDimensions_of := inputDimensions
  |} in
  let source := {| src_url := srcURL; src_transform := transform |} in
  let shader :=
    if includes SEGMENTATION_DTYPES (dtype this)
    then makeShader (displaySettings this) "segmentation"
    else if includes IMAGE_DTYPES (dtype this)
    then makeShader (displaySettings this) "em"
    else EmptyString in
  {| layer_type := "image";
     layer_source := source;
     layer_name := name this;
     layer_shader := shader;
     layer_blend := "additive";
     layer_opacity := 0.75%float |}.

(** *** The class [Dataset] *)

Variable Description : Type.

Record Dataset : Type := {
  key : string;
  space : Datasets.CoordinateSpace;
  volumes : Map Volume;
  description : Description;
  thumbnailPath : string
}.

Variable urlSafeStringify : ViewerState → string.
Variable encodeFragment : string → string.

(** The [ViewerState] of [makeNeuroglancerViewerState]; reading
    [layers[0].name] of an empty array throws. *)
Definition makeViewerState (volumes : list Volume) : completion ViewerState :=
  let layers := toLayer <$> volumes in
  let crossSectionScale := 30.0%float in
  match layers with
  | [] => Throw (TypeError "Cannot read properties of undefined (reading 'name')")
  | first :: _ =>
      let selectedLayer := {| sl_layer := layer_name first; sl_visible := true |} in
      Normal {| vs_dimensions := Datasets.outputDimensions;
                vs_crossSectionScale := crossSectionScale;
                vs_layers := layers;
                vs_selectedLayer := selectedLayer |}
  end.

Definition makeNeuroglancerViewerState (volumes : list Volume) : completion string :=
  bind (makeViewerState volumes)
       (λ vState, Normal (encodeFragment (urlSafeStringify vState))).

(** *** Loading the catalog

    [bucketNameToURL], the folders that [s3ls] lists and
    [getObjectFromJSON] (at its two result types) belong to a module that is
    not among the sources. *)
Variable bucketNameToURL : string → string.
Variable s3ls_folders : string → completion (list string).
Variable getObjectFromJSON_index : string → completion (option DatasetIndex).
Variable getObjectFromJSON_description : string → completion Description.

Definition getDatasetKeys (bucket : string) : completion (list string) :=
  bind (s3ls_folders bucket) (λ datasetKeys,
    (*remove trailing "/" character*)
    Normal (strip_trailing_slash <$> datasetKeys)).

Definition getDatasetIndex (bucket datasetKey : string)
    : completion (option DatasetIndex) :=
  let bucketURL := bucketNameToURL bucket in
  let indexFile := bucketURL +:+ "/" +:+ datasetKey +:+ "/index.json" in
  getObjectFromJSON_index indexFile.

Definition getDescription (bucket key : string) : completion Description :=
  let bucketURL := bucketNameToURL bucket in
  let descriptionURL := bucketURL +:+ "/" +:+ key +:+ "/README.json" in
  getObjectFromJSON_description descriptionURL.

(** The body of the [try] block: the volumes of one index, in order. *)
Fixpoint makeVolumes (outerPath : string) (volumeMeta : list (string * VolumeMeta))
    (volumes : Map Volume) : completion (Map Volume) :=
  match volumeMeta with
  | [] => Normal volumes
  | (k, v) :: rest =>
      bind (fromVolumeMeta outerPath k v) (λ volume,
        makeVolumes outerPath rest (Map_set k volume volumes))
  end.

(** The [for] loop of [makeDatasets] over the keys that are left. *)
Fixpoint makeDatasets_loop (bucket : string) (datasetKeys : list string)
    (datasets : Map Dataset) : completion (Map Dataset) :=
  match datasetKeys with
  | [] => Normal datasets
  | key :: rest =>
      let outerPath := bucketNameToURL bucket +:+ "/" +:+ key in
      bind (getDescription bucket key) (λ description,
        let thumbnailPath := outerPath +:+ "/thumbnail.jpg" in
        bind (getDatasetIndex bucket key) (λ index,
          match index with
          | Some index =>
              match makeVolumes outerPath (new_Map (index_volumes index)) [] with
              | Normal volumes =>
                  makeDatasets_loop bucket rest
                    (Map_set key
                       {| key := key;
                          space := Datasets.outputDimensions;
                          volumes := volumes;
                          description := description;
                          thumbnailPath := thumbnailPath |}
                       datasets)
              | Throw error => makeDatasets_loop bucket rest datasets
              end
          | None => makeDatasets_loop bucket rest datasets
          end))
  end.

Definition makeDatasets (bucket : string) : completion (Map Dataset) :=
  bind (getDatasetKeys bucket) (λ datasetKeys,
    makeDatasets_loop bucket datasetKeys []).

End Externals.

End Legacy.

(** ** Vocabulary of the properties, and sample inputs *)

Import JS Datasets.

(** [axis_value labels vals a v]: [v] is the entry of [vals] at the position
    of the axis label [a] (its first position, should it be repeated). *)
Definition axis_value (labels : list string) (vals : list float)
    (a : string) (v : float) : Prop :=
  ∃ i : nat, labels !! i = Some a ∧ (∀ j, j < i → labels !! j ≠ Some a)
             ∧ vals !! i = Some v.

(** The viewer's axes, in the order of the rows of the matrix. *)
Definition viewer_axes : list string := ["x"; "y"; "z"].

Definition dimension (cs : CoordinateSpace) (i : nat) : float * string :=
  match i with
  | 0 => cs_x cs
  | 1 => cs_y cs
  | _ => cs_z cs
  end.

(** [contains s needle]: [needle] occurs in [s]. *)
Definition contains (s needle : string) : Prop :=
  ∃ before after, s = before +:+ needle +:+ after.

(** A digit generator to run the code on numbers it is never asked about. *)
Definition plain_digits : float → string := λ _, "?".

Definition transform_flipped_x : SpatialTransform :=
  {| axes := ["x"; "y"; "z"]; units := ["nm"; "nm"; "nm"];
     translate := [0; 0; 0]%float; scale := [-5; 5; 5]%float |}.

Definition transform_without_x : SpatialTransform :=
  {| axes := ["z"; "y"]; units := ["nm"; "nm"];
     translate := [1; 2]%float; scale := [4; 4]%float |}.

Definition display_plain : DisplaySettings :=
  {| contrastLimits := {| cl_start := 0; cl_end := 255; cl_min := 0; cl_max := 255 |};
     invertLUT := false;
     color := Value "white" |}.

Definition volume_without_x : VolumeSource :=
  {| vol_url := "s3://bucket/jrc_1/em.n5";
     vol_name := "em";
     vol_transform := transform_without_x;
     contentType := "em";
     sampleType := "scalar";
     format := "n5";
     displaySettings := display_plain;
     vol_description := "raw data";
     subsources := [] |}.

Definition metadata_plain : DatasetMetadata :=
  {| imaging := {| imaging_institution := "Janelia";
                   gridSpacing_values := {| gs_x := Some 8%float;
                                            gs_y := Some 4%float;
                                            gs_z := None |} |};
     institution := ["Janelia"];
     sample := {| organism := ["mouse"]; sample_type := []; subtype := [];
                  treatment := [] |};
     softwareAvailability := "open" |}.

Definition manifest_without_x : Manifest :=
  {| sources := [("em", volume_without_x)];
     metadata := metadata_plain;
     manifest_views := [] |}.

(** A catalog of one dataset, whose only volume lists the axes z and y. *)
Definition api_without_x : GithubDatasetAPI :=
  {| api_index := Normal {| datasets := [("jrc_1", "jrc_1/manifest.json")] |};
     api_get := λ key, Normal ("jrc_1/thumbnail.jpg", manifest_without_x) |}.

(** Inserting the elements of a list, in order. *)
Definition add_all {T} (JSON_stringify : T → string) (l : list T) (s : OSet.t T)
    : OSet.t T :=
  foldl (λ s x, OSet.add JSON_stringify x s) s l.

(** How many of the elements of the set are [x]. *)
Definition occurrences {T} `{EqDecision T} (x : T) (s : OSet.t T) : nat :=
  length (filter (λ y, y = x) (OSet.elements s)).

(** The tags [makeTags] inserts, in the order of insertion. *)
Definition tag_list (digits : float → string) (descr : DatasetMetadata) : list ITag :=
  let values := gridSpacing_values (imaging descr) in
  [ {| value := imaging_institution (imaging descr);
       category := Acquisition_institution |} ]
  ++ ((λ val, {| value := val; category := Contributing_institution |})
        <$> institution descr)
  ++ ((λ val, {| value := val; category := Sample_Organism |})
        <$> organism (sample descr))
  ++ ((λ val, {| value := val; category := Sample_Type |})
        <$> sample_type (sample descr))
  ++ ((λ val, {| value := val; category := Sample_Subtype |})
        <$> subtype (sample descr))
  ++ ((λ val, {| value := val; category := Sample_Treatment |})
        <$> treatment (sample descr))
  ++ match gs_z values with
     | Some axvox =>
         [ {| value := if (axvox <=? 6)%float then "<= 6 nm" else "> 6 nm";
              category := Axial_voxel_size |} ]
     | None => []
     end
  ++ match gs_y values, gs_x values with
     | None, None => []
     | y, x => [ {| value := toString digits (Math_min y x);
                    category := Lateral_voxel_size |} ]
     end
  ++ [ {| value := softwareAvailability descr; category := Software_Availability |} ].

(** The description of a dataset with the grid spacing [{x: 8}]. *)
Definition metadata_x_only : DatasetMetadata :=
  {| imaging := {| imaging_institution := "Janelia";
                   gridSpacing_values := {| gs_x := Some 8%float;
                                            gs_y := None;
                                            gs_z := None |} |};
     institution := ["Janelia"];
     sample := {| organism := ["mouse"]; sample_type := []; subtype := [];
                  treatment := [] |};
     softwareAvailability := "open" |}.

(** A segmentation volume without meshes. *)
Definition volume_segmentation : VolumeSource :=
  {| vol_url := "s3://bucket/jrc_1/mito_seg.n5";
     vol_name := "mito_seg";
     vol_transform := transform_flipped_x;
     contentType := "segmentation";
     sampleType := "label";
     format := "n5";
     displaySettings := display_plain;
     vol_description := "mitochondria";
     subsources := [] |}.

Definition volume_image : VolumeSource :=
  {| vol_url := "s3://bucket/jrc_1/em.n5";
     vol_name := "em";
     vol_transform := transform_flipped_x;
     contentType := "em";
     sampleType := "scalar";
     format := "n5";
     displaySettings := display_plain;
     vol_description := "raw data";
     subsources := [] |}.

Definition manifest_plain : Manifest :=
  {| sources := [("em", volume_image); ("mito_seg", volume_segmentation)];
     metadata := metadata_plain;
     manifest_views := [] |}.

(** A catalog of two datasets; fetching the second one fails. *)
Definition api_one_failing : GithubDatasetAPI :=
  {| api_index := Normal {| datasets := [("jrc_1", "jrc_1/manifest.json");
                                          ("jrc_2", "jrc_2/manifest.json")] |};
     api_get := λ key,
       if String.eqb key "jrc_2" then Throw (FetchError "404")
       else Normal (key +:+ "/thumbnail.jpg", manifest_plain) |}.

(** The same catalog without the second dataset. *)
Definition api_first_only : GithubDatasetAPI :=
  {| api_index := Normal {| datasets := [("jrc_1", "jrc_1/manifest.json")] |};
     api_get := api_get api_one_failing |}.

(** A dataset of the component revision: two volumes, one view that shows
    none of them. *)
Definition paper_dataset : Components.Dataset unit unit :=
  {| Components.volumes := [("em", tt); ("mito_seg", tt)];
     Components.views := [ {| Components.view_data := tt;
                              Components.volumeKeys := [] |} ];
     Components.makeNeuroglancerViewerState := λ view, "#!" |}.

Definition paper_appState : Components.AppState :=
  {| Components.neuroglancerAddress := "https://neuroglancer.example/";
     Components.webGL2Enabled := true |}.

(** The same dataset with a view that shows the first volume. *)
Definition paper_dataset_em : Components.Dataset unit unit :=
  {| Components.volumes := [("em", tt); ("mito_seg", tt)];
     Components.views := [ {| Components.view_data := tt;
                              Components.volumeKeys := ["em"] |} ];
     Components.makeNeuroglancerViewerState := λ view, "#!" |}.

Definition paper_state_em : Components.component :=
  {| Components.heap := [ {[ "em" := true; "mito_seg" := false ]} ];
     Components.checkStates := {| Components.layerCheckState := 0;
                                  Components.viewCheckState := [true] |} |}.

Definition uncheck_em : Components.ChangeEvent :=
  {| Components.target_name := "em"; Components.target_checked := false |}.

(** The layers of the selection of both volumes. *)
Definition layers_em_and_mito : list Layer :=
  omap (λ s, makeLayer plain_digits s.1 s.2)
       [(volume_image, image); (volume_segmentation, segmentation)].

(** Every entry of the set is filed under the key of its element. *)
Definition keyed {T} (key : T → string) (s : OSet.t T) : Prop :=
  ∀ k v, OSet.map s !! k = Some v → k = key v.

(** The sets that the methods of the class build. *)
Inductive built {T} (key : T → string) : OSet.t T → Prop :=
| built_new : built key OSet.new
| built_add x s : built key s → built key (OSet.add key x s)
| built_delete x s : built key s → built key (OSet.delete key x s).1.

Definition tag_mouse : ITag := {| value := "mouse"; category := Sample_Organism |}.

Definition tag_janelia : ITag :=
  {| value := "Janelia"; category := Acquisition_institution |}.

Definition check_mito_seg : Components.ChangeEvent :=
  {| Components.target_name := "mito_seg"; Components.target_checked := true |}.

(** A view with a position and a [null] scale. *)
Definition view_top : IDatasetView :=
  {| iv_name := "Top";
     iv_description := "Seen from above";
     iv_sources := ["em"];
     iv_orientation := Null;
     iv_position := Value [100; 200; 300]%float;
     iv_scale := Null |}.

(** The view check boxes with the one at position [i] checked. *)
Definition one_checked (n i : nat) : list bool := <[i := true]> (replicate n false).

(** The names of the view check boxes read as decimal numbers of one digit;
    other names denote no index. *)
Definition digit_index (name : string) : option nat :=
  match name with
  | String c EmptyString =>
      let n := N_of_ascii c in
      if ((48 <=? n) && (n <=? 57))%N then Some (N.to_nat (n - 48)) else None
  | _ => None
  end.

(** A dataset with two views: the first shows the image volume, the second
    shows a volume that the dataset does not have. *)
Definition paper_dataset_two_views : Components.Dataset unit unit :=
  {| Components.volumes := [("em", tt); ("mito_seg", tt)];
     Components.views := [ {| Components.view_data := tt;
                              Components.volumeKeys := ["em"] |};
                           {| Components.view_data := tt;
                              Components.volumeKeys := ["er_seg"] |} ];
     Components.makeNeuroglancerViewerState := λ view, "#!" |}.

Definition paper_state_two_views : Components.component :=
  {| Components.heap := [ {[ "em" := true; "mito_seg" := false ]} ];
     Components.checkStates := {| Components.layerCheckState := 0;
                                  Components.viewCheckState := [true; false] |} |}.

Definition check_second_view : Components.ChangeEvent :=
  {| Components.target_name := "1"; Components.target_checked := true |}.

(** The application state before the catalog is loaded. *)
Definition home_appState : Pages.AppState :=
  {| Pages.datasets := [];
     Pages.datasetsLoading := false;
     Pages.metadataEndpoint := "https://github.example/metadata" |}.

(** A volume of the earlier revision, stored with its axes in the order
    z, y, x. *)
Definition legacy_display : Legacy.DisplaySettings :=
  {| Legacy.contrastMin := 0;
     Legacy.contrastMax := 1;
     Legacy.gamma := 1;
     Legacy.invertColormap := false;
     Legacy.color := "white" |}.

Definition legacy_meta : Legacy.VolumeMeta :=
  {| Legacy.vm_name := "fibsem-uint8";
     Legacy.vm_dataType := "uint8";
     Legacy.vm_dimensions := [100; 200; 300]%float;
     Legacy.vm_transform := {| axes := ["z"; "y"; "x"];
                               units := ["nm"; "nm"; "nm"];
                               translate := [10; 20; 30]%float;
                               scale := [4; 8; 16]%float |};
     Legacy.vm_contentType := "em";
     Legacy.vm_description := "FIB-SEM data";
     Legacy.vm_displaySettings := legacy_display;
     Legacy.vm_store := "n5" |}.

(** A resolution of paths that puts the inner path behind the outer one and
    refuses an empty outer path. *)
Definition legacy_resolveURL (outerPath innerPath : string) : JS.completion string :=
  match outerPath with
  | EmptyString => JS.Throw (JS.TypeError "Invalid URL")
  | _ => JS.Normal (outerPath +:+ "/" +:+ innerPath)
  end.

(** A bucket of the earlier revision with two folders: the index of the
    first holds one volume, the second has no index. *)
Definition legacy_bucketNameToURL (bucket : string) : string :=
  "https://" +:+ bucket +:+ ".example".

Definition legacy_folders (bucket : string) : JS.completion (list string) :=
  JS.Normal ["jrc_1/"; "jrc_2/"].

Definition legacy_index (url : string) : JS.completion (option Legacy.DatasetIndex) :=
  if String.eqb url "https://bucket.example/jrc_1/index.json"
  then JS.Normal (Some {| Legacy.index_name := "jrc_1";
                          Legacy.index_volumes := [("em", legacy_meta)] |})
  else JS.Normal None.

Definition legacy_description (url : string) : JS.completion string :=
  JS.Normal ("The description at " +:+ url).

Definition legacy_catalog : JS.Map (Legacy.Dataset string) :=
  Eval vm_compute in
    match Legacy.makeDatasets legacy_resolveURL string legacy_bucketNameToURL
            legacy_folders legacy_index legacy_description "bucket" with
    | JS.Normal datasets => datasets
    | JS.Throw _ => []
    end.

(** A vector of two values. *)
Definition vector_xy : DescriptionText.UnitfulVector :=
  {| DescriptionText.uv_unit := "nm";
     DescriptionText.uv_values := [("x", 4%float); ("y", 8%float)] |}.

Definition check_em : Components.ChangeEvent :=
  {| Components.target_name := "em"; Components.target_checked := true |}.

(** A dataset without volumes and without views. *)
Definition paper_dataset_empty : Components.Dataset unit unit :=
  {| Components.volumes := [];
     Components.views := [];
     Components.makeNeuroglancerViewerState := λ view, "#!" |}.
(* ===================================================================== *)
(** * Part II: properties *)
(* ===================================================================== *)

(** ** Arrays and numbers *)

Lemma indexOf_from_first (l : list string) (a : string) (k : Z) (i : nat) :
  l !! i = Some a →
  (∀ j, j < i → l !! j ≠ Some a) →
  indexOf_from l a k = (k + Z.of_nat i)%Z.
Proof.
  revert k i. induction l as [|y l IH]; intros k i Hi Hfirst; [done|].
  simpl. destruct (String.eqb_spec y a) as [->|Hne].
  - destruct i as [|i]; [lia|]. exfalso. apply (Hfirst 0); [lia|done].
  - destruct i as [|i]; [simpl in Hi; congruence|].
    rewrite (IH (k + 1)%Z i Hi); [lia|].
    intros j Hj. apply (Hfirst (S j)). lia.
Qed.

Lemma indexOf_from_absent (l : list string) (a : string) (k : Z) :
  a ∉ l → indexOf_from l a k = (-1)%Z.
Proof.
  revert k. induction l as [|y l IH]; intros k Hnot; [done|].
  simpl. destruct (String.eqb_spec y a) as [->|Hne].
  - exfalso. apply Hnot. left.
  - apply IH. intros Hin. apply Hnot. by right.
Qed.

Lemma get_of_nat {A} (l : list A) (i : nat) : get l (Z.of_nat i) = l !! i.
Proof.
  unfold get. destruct (Z.ltb_spec (Z.of_nat i) 0); [lia|]. by rewrite Nat2Z.id.
Qed.

Lemma abs_opp (x : float) : abs (- x) = abs x.
Proof.
  apply Prim2SF_inj. rewrite !abs_spec, opp_spec.
  by destruct (Prim2SF x).
Qed.

Lemma ltb_positive_not_negative (s : float) :
  (0 <? s)%float = true → (s <? 0)%float = false.
Proof.
  rewrite !ltb_spec. change (Prim2SF 0) with (S754_zero false).
  destruct (Prim2SF s) as [sg|sg| |sg m e]; try destruct sg; simpl; done.
Qed.

(** ** SpatialTransformToNeuroglancer *)

(** The three rows of the matrix, one goal per viewer axis. *)
Ltac viewer_axis i Hi :=
  destruct i as [|[|[|i]]]; simpl in Hi; [| | |done]; injection Hi as <-.

Lemma axis_value_get labels vals a v :
  axis_value labels vals a v → get vals (indexOf labels a) = Some v.
Proof.
  intros (i & Hi & Hfirst & Hv). unfold indexOf.
  rewrite (indexOf_from_first _ _ _ _ Hi Hfirst), Z.add_0_l.
  by rewrite get_of_nat.
Qed.

Lemma absent_get labels (vals : list float) a :
  a ∉ labels → get vals (indexOf labels a) = None.
Proof. intros H. unfold indexOf. by rewrite indexOf_from_absent. Qed.

(** C1: for each of the axis labels x, y and z that the transform lists,
    with scale [s] and translate [t]: the input coordinate space has unit
    size [1e-9 * |s|] meters for that axis, which is the same for [s] and
    [-s]; the row of the matrix for that axis is zero except for the
    diagonal entry, which is -1 when [s] is negative and +1 when [s] is
    positive (and +1 as well in the remaining cases, a zero scale
    included, so that the entry is always one of the two), and for the last
    column, which is [t] itself. *)
Theorem C1_transform_sign_and_magnitude
    (transform : SpatialTransform) (out : CoordinateSpace)
    (i : nat) (a : string) (s t : float) :
  viewer_axes !! i = Some a →
  axis_value (axes transform) (scale transform) a s →
  axis_value (axes transform) (translate transform) a t →
  let r := SpatialTransformToNeuroglancer transform out in
  dimension (inputDimensions_of r) i = ((1e-9 * abs s)%float, "m")
  ∧ dimension (inputDimensions_of r) i = ((1e-9 * abs (- s))%float, "m")
  ∧ (∃ d : float,
        matrix r !! i
        = Some (<[i := Some d]> [Some 0%float; Some 0%float; Some 0%float; Some t])
        ∧ (d = 1%float ∨ d = (-1)%float)
        ∧ ((s <? 0)%float = true → d = (-1)%float)
        ∧ ((0 <? s)%float = true → d = 1%float)
        ∧ ((s <? 0)%float = false → d = 1%float))
  ∧ length (matrix r) = 3
  ∧ outputDimensions_of r = out.
Proof.
  intros Hi Hs Ht r.
  apply axis_value_get in Hs, Ht.
  rewrite abs_opp.
  pose proof (ltb_positive_not_negative s) as Hpos.
  viewer_axis i Hi; subst r; unfold SpatialTransformToNeuroglancer;
    simpl; rewrite Hs, Ht; unfold Math_abs, JS.lt; simpl;
    (repeat split; try done);
    (exists (if (s <? 0)%float then (-1)%float else 1%float));
    destruct (s <? 0)%float; repeat split; auto; intros H;
    first [discriminate H | specialize (Hpos H); discriminate Hpos].
Qed.

Lemma C1_transform_sign_and_magnitude_witness :
  let r := SpatialTransformToNeuroglancer transform_flipped_x outputDimensions in
  dimension (inputDimensions_of r) 0 = ((1e-9 * abs (-5))%float, "m")
  ∧ dimension (inputDimensions_of r) 0 = ((1e-9 * abs (- (-5)))%float, "m")
  ∧ (∃ d : float,
        matrix r !! 0
        = Some (<[0 := Some d]> [Some 0%float; Some 0%float; Some 0%float; Some 0%float])
        ∧ (d = 1%float ∨ d = (-1)%float)
        ∧ ((-5 <? 0)%float = true → d = (-1)%float)
        ∧ ((0 <? -5)%float = true → d = 1%float)
        ∧ ((-5 <? 0)%float = false → d = 1%float))
  ∧ length (matrix r) = 3
  ∧ outputDimensions_of r = outputDimensions.
Proof.
  apply (C1_transform_sign_and_magnitude transform_flipped_x outputDimensions
           0 "x" (-5)%float 0%float).
  - reflexivity.
  - exists 0. split; [reflexivity|]. split; [intros j Hj; lia | reflexivity].
  - exists 0. split; [reflexivity|]. split; [intros j Hj; lia | reflexivity].
Defined.

(** The scenario of the specification: scale [-5, 5, 5] on axes x, y, z
    with no translation. *)
Example transform_flipped_x_scenario :
  let r := SpatialTransformToNeuroglancer transform_flipped_x outputDimensions in
  matrix r = [ [Some (-1); Some 0; Some 0; Some 0];
               [Some 0; Some 1; Some 0; Some 0];
               [Some 0; Some 0; Some 1; Some 0] ]%float
  ∧ cs_x (inputDimensions_of r) = (5e-9%float, "m").
Proof. split; reflexivity. Qed.

(** *** A transform that lacks an axis label *)

(** C9, amended: when one of the labels x, y, z is missing from the axis
    list, building the viewer transform does not fail.  [indexOf] answers
    -1, the lookups of scale and translate at -1 answer [undefined], and the
    transform is produced with, for that axis, an input unit size of [NaN],
    a diagonal entry of +1 and an [undefined] translation entry. *)
Theorem C9_missing_axis_is_silent
    (transform : SpatialTransform) (out : CoordinateSpace) (i : nat) (a : string) :
  viewer_axes !! i = Some a →
  a ∉ axes transform →
  let r := SpatialTransformToNeuroglancer transform out in
  dimension (inputDimensions_of r) i = (nan, "m")
  ∧ matrix r !! i
    = Some (<[i := Some 1%float]> [Some 0%float; Some 0%float; Some 0%float; None]).
Proof.
  intros Hi Hnot r.
  pose proof (absent_get (axes transform) (scale transform) a Hnot) as Hs.
  pose proof (absent_get (axes transform) (translate transform) a Hnot) as Ht.
  viewer_axis i Hi; subst r; unfold SpatialTransformToNeuroglancer;
    simpl; rewrite Hs, Ht; split; reflexivity.
Qed.

Lemma C9_missing_axis_is_silent_witness :
  let r := SpatialTransformToNeuroglancer transform_without_x outputDimensions in
  dimension (inputDimensions_of r) 0 = (nan, "m")
  ∧ matrix r !! 0
    = Some (<[0 := Some 1%float]> [Some 0%float; Some 0%float; Some 0%float; None]).
Proof.
  apply (C9_missing_axis_is_silent transform_without_x outputDimensions 0 "x").
  - reflexivity.
  - unfold transform_without_x. simpl. intros H.
    apply list_elem_of_In in H. simpl in H.
    destruct H as [H|[H|[]]]; discriminate H.
Defined.

(** C9, as stated, fails: the dataset whose volume lacks the label x is
    built and listed in the catalog, and compiling that volume into a layer
    yields a source transform (with a [NaN] unit for x), not an error. *)
Lemma C9_missing_axis_counterexample :
  ("x" ∉ axes (vol_transform volume_without_x))
  ∧ (∃ m d,
        makeDatasets plain_digits api_without_x = Normal m
        ∧ Map_get "jrc_1" m = Some d
        ∧ Map_get "em" (volumes d) = Some volume_without_x)
  ∧ (∃ l,
        makeLayer plain_digits volume_without_x image = Some (Image l)
        ∧ lds_transform (img_source l)
          = SpatialTransformToNeuroglancer transform_without_x outputDimensions
        ∧ cs_x (inputDimensions_of (lds_transform (img_source l))) = (nan, "m")
        ∧ matrix (lds_transform (img_source l))
          = [ [Some 1; Some 0; Some 0; None];
              [Some 0; Some 1; Some 0; Some 2];
              [Some 0; Some 0; Some 1; Some 1] ]%float).
Proof.
  split.
  { simpl. intros H. apply list_elem_of_In in H. simpl in H.
    destruct H as [H|[H|[]]]; discriminate H. }
  split.
  - eexists _, _. split; [reflexivity|]. split; reflexivity.
  - eexists. split; [reflexivity|]. repeat split; reflexivity.
Qed.

(** ** makeShader *)

Lemma string_app_assoc (a b c : string) : (a +:+ b) +:+ c = a +:+ b +:+ c.
Proof.
  induction a as [|x a IH]; [done|].
  change (String x ((a +:+ b) +:+ c) = String x (a +:+ b +:+ c)). by f_equal.
Qed.

(** C4: [makeShader] is a total function of the display settings and the
    sample type (the embedding returns a value on every input, with no
    exceptional outcome).  For 'scalar' it yields a program with the three
    controls: the normalization window, the invert toggle and the tint
    color; for 'label' the empty program; for every other sample type
    [undefined]. *)
Theorem C4_makeShader_total
    (digits : float → string) (shaderArgs : DisplaySettings) (sampleType : string) :
  (sampleType = "scalar"
   ∧ ∃ program,
       makeShader digits shaderArgs sampleType = Some program
       ∧ contains program
           ("#uicontrol invlerp normalized(range=["
              +:+ toString digits (cl_start (contrastLimits shaderArgs)) +:+ ", "
              +:+ toString digits (cl_end (contrastLimits shaderArgs))
              +:+ "], window=["
              +:+ toString digits (cl_min (contrastLimits shaderArgs)) +:+ ", "
              +:+ toString digits (cl_max (contrastLimits shaderArgs)) +:+ "])")
       ∧ contains program
           ("#uicontrol int invertColormap slider(min=0, max=1, step=1, default="
              +:+ (if invertLUT shaderArgs then "1" else "0") +:+ ")")
       ∧ contains program
           ("#uicontrol vec3 color color(default=" +:+ dquote
              +:+ template_nullable (color shaderArgs) +:+ dquote +:+ ")"))
  ∨ (sampleType = "label"
     ∧ makeShader digits shaderArgs sampleType = Some EmptyString)
  ∨ (sampleType ≠ "scalar" ∧ sampleType ≠ "label"
     ∧ makeShader digits shaderArgs sampleType = None).
Proof.
  unfold makeShader.
  destruct (String.eqb_spec sampleType "scalar") as [->|Hscalar].
  - left. split; [done|]. eexists. split; [reflexivity|].
    set (a := toString digits (cl_start _)). set (b := toString digits (cl_end _)).
    set (c := toString digits (cl_min _)). set (d := toString digits (cl_max _)).
    set (col := template_nullable _).
    assert (Hinv : toString digits (if invertLUT shaderArgs then 1%float else 0%float)
                   = if invertLUT shaderArgs then "1" else "0")
      by (by destruct (invertLUT shaderArgs)).
    rewrite Hinv. set (inv := if invertLUT shaderArgs then "1" else "0").
    unfold contains. split; [|split].
    + exists EmptyString. eexists.
      rewrite !string_app_assoc. reflexivity.
    + exists ("#uicontrol invlerp normalized(range=[" +:+ a +:+ ", " +:+ b
                +:+ "], window=[" +:+ c +:+ ", " +:+ d +:+ "])" +:+ newline
                +:+ "        ").
      eexists. rewrite !string_app_assoc. reflexivity.
    + exists ("#uicontrol invlerp normalized(range=[" +:+ a +:+ ", " +:+ b
                +:+ "], window=[" +:+ c +:+ ", " +:+ d +:+ "])" +:+ newline
                +:+ "        #uicontrol int invertColormap slider(min=0, max=1, step=1, default="
                +:+ inv +:+ ")" +:+ newline +:+ "        ").
      eexists. rewrite !string_app_assoc. reflexivity.
  - destruct (String.eqb_spec sampleType "label") as [->|Hlabel].
    + right. left. done.
    + right. right. done.
Qed.

Example makeShader_scalar :
  makeShader plain_digits display_plain "scalar"
  = Some ("#uicontrol invlerp normalized(range=[0, 255], window=[0, 255])" +:+ newline
          +:+ "        #uicontrol int invertColormap slider(min=0, max=1, step=1, default=0)"
          +:+ newline
          +:+ "        #uicontrol vec3 color color(default=" +:+ dquote +:+ "white"
          +:+ dquote +:+ ")" +:+ newline
          +:+ "        float inverter(float val, int invert) {return 0.5 + ((2.0 * (-float(invert) + 0.5)) * (val - 0.5));}"
          +:+ newline
          +:+ "          void main() {" +:+ newline
          +:+ "          emitRGB(color * inverter(normalized(), invertColormap));"
          +:+ newline
          +:+ "        }").
Proof. vm_compute. reflexivity. Qed.

(** ** The views of a dataset *)

(** C5: a constructed dataset has at least one view; built from an empty
    view list it has exactly one, the default view, whose source list is
    empty and whose position and scale are [undefined]. *)
Theorem C5_dataset_has_a_view
    (digits : float → string) (name : string) (space : CoordinateSpace)
    (volumes : Map VolumeSource) (description : DatasetMetadata)
    (thumbnailURL : string) (views_in : list IDatasetView) :
  1 ≤ length (views (new_Dataset digits name space volumes description
                                 thumbnailURL views_in))
  ∧ views (new_Dataset digits name space volumes description thumbnailURL [])
    = [ {| view_name := "Default view";
           view_description := "The default view of the data";
           view_sources := [];
           view_position := None;
           view_scale := None;
           view_orientation := Some [0; 1; 0; 0]%float |} ].
Proof.
  split; [|reflexivity].
  unfold new_Dataset. simpl.
  destruct views_in as [|v vs]; simpl; lia.
Qed.

(** ** JSON.stringify loses nothing *)

Lemma unescape_escape_char (c : ascii) (r : string) :
  unescape_char (escape_char c +:+ r) = Some (c, r).
Proof.
  destruct c as [[] [] [] [] [] [] [] []]; vm_compute; reflexivity.
Qed.

Lemma unescape_dquote (r : string) : unescape_char (dquote +:+ r) = None.
Proof. reflexivity. Qed.

Lemma escape_nil_app (r : string) : escape EmptyString +:+ r = r.
Proof. reflexivity. Qed.

Lemma escape_cons_app (c : ascii) (s r : string) :
  escape (String c s) +:+ r = escape_char c +:+ escape s +:+ r.
Proof.
  change (escape (String c s)) with (escape_char c +:+ escape s).
  apply string_app_assoc.
Qed.

Lemma escape_inj (s1 s2 r1 r2 : string) :
  escape s1 +:+ dquote +:+ r1 = escape s2 +:+ dquote +:+ r2 →
  s1 = s2 ∧ r1 = r2.
Proof.
  revert s2. induction s1 as [|c1 s1 IH]; intros [|c2 s2];
    rewrite ?escape_nil_app, ?escape_cons_app; intros H.
  - split; [done|]. by injection H.
  - apply (f_equal unescape_char) in H.
    rewrite unescape_dquote, unescape_escape_char in H. discriminate.
  - apply (f_equal unescape_char) in H.
    rewrite unescape_dquote, unescape_escape_char in H. discriminate.
  - apply (f_equal unescape_char) in H.
    rewrite !unescape_escape_char in H.
    injection H as -> H. destruct (IH _ H) as [-> ->]. done.
Qed.

Lemma stringify_string_inj (s1 s2 r1 r2 : string) :
  stringify_string s1 +:+ r1 = stringify_string s2 +:+ r2 →
  s1 = s2 ∧ r1 = r2.
Proof.
  unfold stringify_string. rewrite !string_app_assoc. intros H.
  apply (inj (String.append dquote)) in H.
  by apply escape_inj.
Qed.

Lemma category_string_inj (c1 c2 : TagCategories) :
  category_string c1 = category_string c2 → c1 = c2.
Proof. destruct c1, c2; simpl; intros H; first [reflexivity | discriminate H]. Qed.

Lemma JSON_stringify_tag_inj (t1 t2 : ITag) :
  JSON_stringify_tag t1 = JSON_stringify_tag t2 → t1 = t2.
Proof.
  destruct t1 as [v1 c1], t2 as [v2 c2]. unfold JSON_stringify_tag. simpl.
  intros H.
  apply (inj (String.append "{")) in H.
  apply stringify_string_inj in H as [_ H].
  apply (inj (String.append ":")) in H.
  apply stringify_string_inj in H as [-> H].
  apply (inj (String.append ",")) in H.
  apply stringify_string_inj in H as [_ H].
  apply (inj (String.append ":")) in H.
  apply stringify_string_inj in H as [Hc _].
  by rewrite (category_string_inj _ _ Hc).
Qed.

(** ** OSet *)

Lemma filter_none {A} (P : A → Prop) `{∀ x, Decision (P x)} (l : list A) :
  (∀ y, y ∈ l → ¬ P y) → filter P l = [].
Proof.
  induction l as [|x l IH]; intros Hl; [done|].
  rewrite filter_cons_False by (apply Hl; left).
  apply IH. intros y Hy. apply Hl. by right.
Qed.

Section OSet_facts.
Context {T : Type} `{EqDecision T} (key : T → string).
Hypothesis key_inj : ∀ x y, key x = key y → x = y.

Lemma keyed_new : keyed key OSet.new.
Proof. intros k v H. unfold OSet.new in H. simpl in H. by rewrite lookup_empty in H. Qed.

Lemma keyed_add x s : keyed key s → keyed key (OSet.add key x s).
Proof.
  intros Hs k v. unfold OSet.add. simpl.
  rewrite lookup_insert. case_decide as Hk; [|apply Hs].
  intros [= <-]. done.
Qed.

Lemma keyed_delete x s : keyed key s → keyed key (OSet.delete key x s).1.
Proof.
  intros Hs k v. unfold OSet.delete. simpl.
  rewrite lookup_delete_Some. intros [_ Hk]. by apply Hs.
Qed.

Lemma built_keyed s : built key s → keyed key s.
Proof.
  induction 1; [apply keyed_new | by apply keyed_add | by apply keyed_delete].
Qed.

Lemma keyed_add_all l s : keyed key s → keyed key (add_all key l s).
Proof.
  revert s. induction l as [|x l IH]; intros s Hs; [done|].
  apply IH. by apply keyed_add.
Qed.

Lemma add_add x s : OSet.add key x (OSet.add key x s) = OSet.add key x s.
Proof. unfold OSet.add. simpl. by rewrite insert_insert_eq. Qed.

Lemma add_holds x s : OSet.map (OSet.add key x s) !! key x = Some x.
Proof. unfold OSet.add. simpl. by rewrite lookup_insert_eq. Qed.

Lemma add_keeps x y s :
  OSet.map s !! key x = Some x → OSet.map (OSet.add key y s) !! key x = Some x.
Proof.
  intros H. unfold OSet.add. simpl. rewrite lookup_insert.
  case_decide as Hk; [|done]. by rewrite (key_inj _ _ Hk).
Qed.

Lemma add_all_keeps x l s :
  OSet.map s !! key x = Some x → OSet.map (add_all key l s) !! key x = Some x.
Proof.
  revert s. induction l as [|y l IH]; intros s Hs; [done|].
  apply IH. by apply add_keeps.
Qed.

(** An element that a keyed set holds under its key occurs once. *)
Lemma occurrences_held x s :
  keyed key s → OSet.map s !! key x = Some x → occurrences x s = 1.
Proof.
  intros Hs Hx. unfold occurrences, OSet.elements.
  rewrite <- (map_to_list_delete _ _ _ Hx). simpl.
  rewrite filter_cons_True by done. simpl. f_equal.
  apply length_zero_iff_nil, filter_none.
  intros y Hy ->.
  apply list_elem_of_fmap in Hy as ([k v] & -> & Hkv). simpl in *.
  apply elem_of_map_to_list in Hkv.
  apply lookup_delete_Some in Hkv as [Hne Hv].
  apply Hne. symmetry. by apply Hs.
Qed.
End OSet_facts.

(** C7: inserting a tag into a tag set is idempotent.  For every tag set
    that the class builds and every tag [t], with any insertions between
    and after the two insertions of [t]: inserting [t] again right away
    leaves the set as it is, at the end [t] is an element of the set exactly
    once, and the set made of [t] inserted twice has size 1. *)
Theorem C7_tag_insertion_idempotent
    (s : TagSet) (t : ITag) (between after : list ITag) :
  built JSON_stringify_tag s →
  tags_add t (tags_add t s) = tags_add t s
  ∧ occurrences t
      (add_all JSON_stringify_tag after
         (tags_add t (add_all JSON_stringify_tag between (tags_add t s)))) = 1
  ∧ OSet.size (tags_add t (tags_add t OSet.new)) = 1.
Proof.
  intros Hs%built_keyed. split; [apply add_add|]. split.
  - apply (occurrences_held JSON_stringify_tag).
    + by apply keyed_add_all, keyed_add, keyed_add_all, keyed_add.
    + apply add_all_keeps; [apply JSON_stringify_tag_inj|]. apply add_holds.
  - rewrite add_add. unfold OSet.size, OSet.add, OSet.new. simpl.
    by rewrite insert_empty, map_size_singleton.
Qed.

Lemma C7_tag_insertion_idempotent_witness :
  tags_add tag_mouse (tags_add tag_mouse OSet.new) = tags_add tag_mouse OSet.new
  ∧ occurrences tag_mouse
      (add_all JSON_stringify_tag [tag_janelia]
         (tags_add tag_mouse
            (add_all JSON_stringify_tag [tag_janelia; tag_mouse]
               (tags_add tag_mouse OSet.new)))) = 1
  ∧ OSet.size (tags_add tag_mouse (tags_add tag_mouse OSet.new)) = 1.
Proof.
  apply (C7_tag_insertion_idempotent OSet.new tag_mouse
           [tag_janelia; tag_mouse] [tag_janelia]).
  apply built_new.
Defined.

Example tags_deduplicated :
  OSet.size
    (add_all JSON_stringify_tag
       [ {| value := "mouse"; category := Sample_Organism |};
         {| value := "Janelia"; category := Acquisition_institution |};
         {| value := "mouse"; category := Sample_Organism |} ] OSet.new)
  = 2.
Proof. vm_compute. reflexivity. Qed.

(** ** makeTags *)

Section OSet_elements.
Context {T : Type} `{EqDecision T} (key : T → string).
Hypothesis key_inj : ∀ x y, key x = key y → x = y.

Lemma elements_new (x : T) : x ∉ OSet.elements (@OSet.new T).
Proof.
  unfold OSet.elements, OSet.new. simpl. rewrite map_to_list_empty. simpl.
  apply not_elem_of_nil.
Qed.

Lemma elements_lookup (x : T) (s : OSet.t T) :
  x ∈ OSet.elements s ↔ ∃ k, OSet.map s !! k = Some x.
Proof.
  unfold OSet.elements. rewrite list_elem_of_fmap. split.
  - intros ([k v] & -> & Hkv). exists k. by apply elem_of_map_to_list.
  - intros (k & Hk). exists (k, x). split; [done|]. by apply elem_of_map_to_list.
Qed.

Lemma elements_add (x y : T) (s : OSet.t T) :
  keyed key s →
  x ∈ OSet.elements (OSet.add key y s) ↔ x = y ∨ x ∈ OSet.elements s.
Proof.
  intros Hs. rewrite !elements_lookup. unfold OSet.add. simpl. split.
  - intros (k & Hk). rewrite lookup_insert in Hk.
    case_decide; [left; congruence | right; eauto].
  - intros [->|(k & Hk)].
    + exists (key y). by rewrite lookup_insert_eq.
    + exists k. rewrite lookup_insert. case_decide as Hky; [|done].
      f_equal. apply key_inj. rewrite Hky. by apply Hs.
Qed.

Lemma elements_add_all (x : T) (l : list T) (s : OSet.t T) :
  keyed key s →
  x ∈ OSet.elements (add_all key l s) ↔ x ∈ l ∨ x ∈ OSet.elements s.
Proof.
  revert s. induction l as [|y l IH]; intros s Hs; simpl.
  - split; [by right|]. intros [H|H]; [by apply elem_of_nil in H | done].
  - rewrite IH by (by apply keyed_add). rewrite elements_add by done.
    rewrite elem_of_cons. tauto.
Qed.

Lemma add_all_app (l1 l2 : list T) (s : OSet.t T) :
  add_all key (l1 ++ l2) s = add_all key l2 (add_all key l1 s).
Proof. unfold add_all. apply foldl_app. Qed.

Lemma add_all_fmap {A} (f : A → T) (l : list A) (s : OSet.t T) :
  foldl (λ s val, OSet.add key (f val) s) s l = add_all key (f <$> l) s.
Proof. revert s. induction l as [|a l IH]; intros s; simpl; [done | apply IH]. Qed.
End OSet_elements.

Lemma toString_threshold (digits : float → string) :
  toString digits resolutionTagThreshold = "6".
Proof. reflexivity. Qed.

(** [makeTags] inserts the tags of [tag_list], in order, into an empty set. *)
Lemma makeTags_tag_list (digits : float → string) (descr : DatasetMetadata) :
  makeTags digits descr = add_all JSON_stringify_tag (tag_list digits descr) OSet.new.
Proof.
  unfold makeTags, tag_list.
  rewrite !add_all_app, !add_all_fmap, toString_threshold.
  destruct descr as [[inst [x y z]] insts [org ty sub tr] sw]; simpl.
  destruct z as [z|]; destruct y as [y|]; destruct x as [x|]; reflexivity.
Qed.

Lemma makeTags_elements (digits : float → string) (descr : DatasetMetadata) (t : ITag) :
  t ∈ OSet.elements (makeTags digits descr) ↔ t ∈ tag_list digits descr.
Proof.
  rewrite makeTags_tag_list.
  rewrite (elements_add_all _ JSON_stringify_tag_inj) by apply keyed_new.
  split; [|by left]. intros [H|H]; [done|]. by apply elements_new in H.
Qed.

(** The lateral tags among the tags inserted. *)
Lemma tag_list_lateral (digits : float → string) (descr : DatasetMetadata) (t : ITag) :
  let values := gridSpacing_values (imaging descr) in
  t ∈ tag_list digits descr ∧ category t = Lateral_voxel_size ↔
  (gs_y values ≠ None ∨ gs_x values ≠ None)
  ∧ t = {| value := toString digits (Math_min (gs_y values) (gs_x values));
           category := Lateral_voxel_size |}.
Proof.
  intros values. unfold tag_list. fold values.
  rewrite !elem_of_app, !list_elem_of_fmap, !list_elem_of_singleton.
  split.
  - intros [Hin Hcat].
    destruct Hin as [->|[(v & -> & _)|[(v & -> & _)|[(v & -> & _)|[(v & -> & _)
                    |[(v & -> & _)|[Hz|[Hl| ->]]]]]]]]; try discriminate Hcat.
    + destruct (gs_z values); [|by apply elem_of_nil in Hz].
      apply list_elem_of_singleton in Hz as ->. discriminate Hcat.
    + destruct (gs_y values) as [y|], (gs_x values) as [x|];
        try (apply list_elem_of_singleton in Hl as ->; split; [|done]; auto).
      by apply elem_of_nil in Hl.
  - intros [Hdef ->]. split; [|done].
    do 7 right. left.
    destruct (gs_y values) as [y|], (gs_x values) as [x|];
      try apply list_elem_of_singleton; try done.
    destruct Hdef; done.
Qed.

(** C6, at the inputs on which the code departs from it: when exactly one of
    the x and y grid spacings is present, [Math.min] receives [undefined],
    answers [NaN], and the lateral-voxel-size tag of the set, the only one,
    has the value "NaN" instead of the spacing that is present. *)
Theorem C6_lateral_tag_of_single_spacing
    (digits : float → string) (descr : DatasetMetadata) (v : float) :
  let values := gridSpacing_values (imaging descr) in
  (gs_x values = Some v ∧ gs_y values = None)
  ∨ (gs_x values = None ∧ gs_y values = Some v) →
  ∀ t, t ∈ OSet.elements (makeTags digits descr) ∧ category t = Lateral_voxel_size
       ↔ t = {| value := "NaN"; category := Lateral_voxel_size |}.
Proof.
  intros values Hone t.
  rewrite makeTags_elements, tag_list_lateral. fold values.
  assert (Hnan : toString digits (Math_min (gs_y values) (gs_x values)) = "NaN").
  { destruct Hone as [[-> ->]|[-> ->]]; unfold Math_min, toString, Number_toString; simpl.
    - reflexivity.
    - by rewrite orb_true_r. }
  rewrite Hnan. split; [by intros [_ ->]|]. intros ->. split; [|done].
  destruct Hone as [[-> _]|[_ ->]]; auto.
Qed.

Lemma C6_lateral_tag_of_single_spacing_witness :
  {| value := "NaN"; category := Lateral_voxel_size |}
    ∈ OSet.elements (makeTags plain_digits metadata_x_only)
  ∧ category {| value := "NaN"; category := Lateral_voxel_size |} = Lateral_voxel_size.
Proof.
  apply (C6_lateral_tag_of_single_spacing plain_digits metadata_x_only 8%float).
  - left. split; reflexivity.
  - reflexivity.
Defined.

(** Where the code agrees with C6: the tag is there exactly when x or y is
    present, and with both present its value is the printed minimum. *)
Lemma lateral_tag_present_iff (digits : float → string) (descr : DatasetMetadata) :
  let values := gridSpacing_values (imaging descr) in
  (∃ t, t ∈ OSet.elements (makeTags digits descr) ∧ category t = Lateral_voxel_size)
  ↔ ¬ (gs_x values = None ∧ gs_y values = None).
Proof.
  intros values. split.
  - intros (t & Ht). rewrite makeTags_elements in Ht.
    apply tag_list_lateral in Ht as [Hdef _]. fold values in Hdef. tauto.
  - intros Hdef. eexists. rewrite makeTags_elements. apply tag_list_lateral.
    split; [|reflexivity]. fold values.
    destruct (gs_y values), (gs_x values); first [tauto | auto].
Qed.

Lemma lateral_tag_of_both (digits : float → string) (descr : DatasetMetadata)
    (x y : float) (t : ITag) :
  gs_x (gridSpacing_values (imaging descr)) = Some x →
  gs_y (gridSpacing_values (imaging descr)) = Some y →
  t ∈ OSet.elements (makeTags digits descr) ∧ category t = Lateral_voxel_size
  ↔ t = {| value := toString digits (Math_min (Some y) (Some x));
           category := Lateral_voxel_size |}.
Proof.
  intros Hx Hy. rewrite makeTags_elements, tag_list_lateral, Hx, Hy.
  split; [by intros [_ ->]|]. intros ->. split; [|done]. by left.
Qed.

(** The scenario of the specification: [{x: 8, y: 4}] and no z. *)
Example lateral_tag_scenario :
  OSet.has JSON_stringify_tag {| value := "4"; category := Lateral_voxel_size |}
           (makeTags plain_digits metadata_plain) = true
  ∧ filter (λ t, category t = Axial_voxel_size)
           (OSet.elements (makeTags plain_digits metadata_plain)) = [].
Proof. split; vm_compute; reflexivity. Qed.

Example lateral_tag_x_only :
  OSet.has JSON_stringify_tag {| value := "NaN"; category := Lateral_voxel_size |}
           (makeTags plain_digits metadata_x_only) = true
  ∧ OSet.has JSON_stringify_tag {| value := "8"; category := Lateral_voxel_size |}
             (makeTags plain_digits metadata_x_only) = false.
Proof. split; vm_compute; reflexivity. Qed.

(** ** Opacity of the compiled layers *)

Lemma makeLayer_opacity (digits : float → string) (volume : VolumeSource)
    (layerType : LayerTypes) (l : Layer) :
  makeLayer digits volume layerType = Some l →
  instanceof_ImageLayer l = true →
  layer_opacity l = Some 0.75%float ∧ layer_blend l = Some "additive".
Proof.
  destruct layerType; simpl; [| |done|done].
  - intros [= <-] _. done.
  - destruct (subsources volume); intros [= <-]; done.
Qed.

Lemma adjust_alpha_many (l1 l2 : Layer) (ls : list Layer) :
  adjust_alpha (l1 :: l2 :: ls) = l1 :: l2 :: ls.
Proof. by destruct l1. Qed.

(** C2, amended: a selection of exactly one image volume compiles to a
    layer of opacity 1.0 with additive blending; a single segmentation layer
    is passed on as it is and has no opacity; in a selection of two or more
    layers every layer is passed on as it is, the image layers with opacity
    0.75 and additive blending. *)
Theorem C2_opacity_of_compiled_layers
    (digits : float → string)
    (viewerPosition : option (list float)) (crossSectionScale : option float)
    (crossSectionOrientation : option (list float)) :
  (∀ volume, ∃ l vState l',
      makeLayer digits volume image = Some l
      ∧ makeViewerState [l] viewerPosition crossSectionScale crossSectionOrientation
        = Normal vState
      ∧ vs_layers vState = [l']
      ∧ layer_opacity l' = Some 1.0%float
      ∧ layer_blend l' = Some "additive")
  ∧ (∀ volume l,
      makeLayer digits volume segmentation = Some l →
      ∃ vState,
        makeViewerState [l] viewerPosition crossSectionScale crossSectionOrientation
        = Normal vState
        ∧ vs_layers vState = [l]
        ∧ layer_opacity l = None)
  ∧ (∀ layers,
      2 ≤ length layers →
      (∀ l, l ∈ layers → ∃ volume layerType, makeLayer digits volume layerType = Some l) →
      ∃ vState,
        makeViewerState layers viewerPosition crossSectionScale crossSectionOrientation
        = Normal vState
        ∧ vs_layers vState = layers
        ∧ ∀ l, l ∈ layers → instanceof_ImageLayer l = true →
               layer_opacity l = Some 0.75%float ∧ layer_blend l = Some "additive").
Proof.
  split; [|split].
  - intros volume. eexists _, _, _. split; [reflexivity|].
    split; [reflexivity|]. simpl. done.
  - intros volume l Hl. simpl in Hl.
    destruct (subsources volume); injection Hl as <-;
      (eexists; split; [reflexivity|]; done).
  - intros layers Hlen Hmade.
    destruct layers as [|l1 [|l2 ls]]; simpl in Hlen; [lia|lia|].
    unfold makeViewerState. rewrite adjust_alpha_many.
    eexists. split; [reflexivity|]. split; [done|].
    intros l Hl Himg. destruct (Hmade l Hl) as (volume & layerType & Hmk).
    by apply (makeLayer_opacity digits volume layerType).
Qed.

Lemma C2_opacity_of_compiled_layers_witness :
  (∃ vState,
      makeViewerState layers_em_and_mito None None None = Normal vState
      ∧ vs_layers vState = layers_em_and_mito
      ∧ ∀ l, l ∈ layers_em_and_mito → instanceof_ImageLayer l = true →
             layer_opacity l = Some 0.75%float ∧ layer_blend l = Some "additive")
  ∧ (∃ l vState,
        makeLayer plain_digits volume_segmentation segmentation = Some l
        ∧ makeViewerState [l] None None None = Normal vState
        ∧ vs_layers vState = [l]
        ∧ layer_opacity l = None).
Proof.
  split.
  - apply (proj2 (proj2 (C2_opacity_of_compiled_layers plain_digits None None None))).
    + simpl. lia.
    + intros l Hl. apply elem_of_cons in Hl as [->|Hl].
      * exists volume_image, image. reflexivity.
      * apply list_elem_of_singleton in Hl as ->.
        exists volume_segmentation, segmentation. reflexivity.
  - eexists.
    destruct (proj1 (proj2 (C2_opacity_of_compiled_layers plain_digits None None None))
                volume_segmentation _ eq_refl) as (vState & Hstate).
    exists vState. split; [reflexivity|exact Hstate].
Defined.

(** C2, as stated, fails: the one layer of a selection of one segmentation
    volume does not have opacity 1.0. *)
Lemma C2_single_segmentation_counterexample :
  ∃ l vState,
    makeLayer plain_digits volume_segmentation segmentation = Some l
    ∧ makeViewerState [l] None None None = Normal vState
    ∧ vs_layers vState = [l]
    ∧ layer_opacity l ≠ Some 1.0%float.
Proof.
  eexists _, _. split; [reflexivity|]. split; [reflexivity|].
  split; [reflexivity|]. discriminate.
Qed.

(** ** The link component *)

Section NeuroglancerLink_facts.
Context {Volume ViewData : Type}.
Implicit Types (dataset : Components.Dataset Volume ViewData).

Lemma checked_keys_filter (checkState : gmap string bool)
    (keys : list string) (vols : Map Volume) :
  foldl (λ keys kv, if default false (checkState !! kv.1) then keys ++ [kv.1]
                    else keys) keys vols
  = keys ++ filter (λ k, checkState !! k = Some true) (Map_keys vols).
Proof.
  revert keys. induction vols as [|[k v] vols IH]; intros keys; simpl.
  - by rewrite app_nil_r.
  - rewrite IH. unfold Map_keys. simpl.
    destruct (checkState !! k) as [[]|] eqn:Hk; simpl.
    + rewrite filter_cons_True by done. by rewrite <- app_assoc.
    + rewrite filter_cons_False by congruence. done.
    + rewrite filter_cons_False by congruence. done.
Qed.

Lemma NeuroglancerLink_button dataset view checkState appState k :
  k ∈ Map_keys (Components.volumes dataset) →
  checkState !! k = Some true →
  ∃ href warning,
    Components.NeuroglancerLink dataset view checkState appState
    = Components.ViewButton href warning.
Proof.
  intros Hk Hchecked. unfold Components.NeuroglancerLink. simpl.
  rewrite checked_keys_filter. simpl.
  destruct (filter _ _) as [|k' ks] eqn:Hf; simpl; [|eauto].
  exfalso. apply (filter_nil_not_elem_of _ _ k Hf); done.
Qed.
End NeuroglancerLink_facts.

(** C3: when no volume key of the dataset is checked, the link component
    produces the refusal "No layers selected" and no link: the viewer state
    is not compiled.  (Compiling an empty layer list would not produce a
    state either: it throws.) *)
Theorem C3_empty_selection_refused {Volume ViewData : Type}
    (dataset : Components.Dataset Volume ViewData)
    (view : Components.DatasetView ViewData)
    (checkState : gmap string bool) (appState : Components.AppState) :
  (∀ k, k ∈ Map_keys (Components.volumes dataset) → checkState !! k ≠ Some true) →
  Components.NeuroglancerLink dataset view checkState appState
  = Components.NoLayersSelected
  ∧ ∀ urlSafeStringify encodeFragment viewerPosition crossSectionScale
      crossSectionOrientation,
      is_Throw (makeNeuroglancerViewerState urlSafeStringify encodeFragment []
                  viewerPosition crossSectionScale crossSectionOrientation).
Proof.
  intros Hnone. split.
  - unfold Components.NeuroglancerLink. simpl. rewrite checked_keys_filter. simpl.
    rewrite (filter_none _ _ Hnone). done.
  - intros. eexists. reflexivity.
Qed.

Lemma C3_empty_selection_refused_witness :
  Components.NeuroglancerLink paper_dataset
    {| Components.view_data := tt; Components.volumeKeys := [] |}
    {[ "em" := false; "mito_seg" := false ]} paper_appState
  = Components.NoLayersSelected
  ∧ ∀ urlSafeStringify encodeFragment viewerPosition crossSectionScale
      crossSectionOrientation,
      is_Throw (makeNeuroglancerViewerState urlSafeStringify encodeFragment []
                  viewerPosition crossSectionScale crossSectionOrientation).
Proof.
  apply (C3_empty_selection_refused paper_dataset).
  intros k Hk. vm_compute in Hk.
  apply list_elem_of_In in Hk. simpl in Hk.
  destruct Hk as [<-|[<-|[]]]; vm_compute; discriminate.
Defined.

(** ** makeDatasets *)

Lemma Promise_all_rejected {A} (ps : list (completion A)) (p : completion A) :
  p ∈ ps → is_Throw p → is_Throw (Promise_all ps).
Proof.
  intros Hin [e ->]. induction ps as [|q ps IH]; [by apply elem_of_nil in Hin|].
  apply elem_of_cons in Hin as [<-|Hin]; simpl.
  - by exists e.
  - destruct q as [a|e']; [|by exists e'].
    destruct (IH Hin) as [e'' ->]. by exists e''.
Qed.

(** A failure of the index yields the empty catalog. *)
Lemma makeDatasets_index_failure (digits : float → string) (API : GithubDatasetAPI)
    (e : exn) :
  api_index API = Throw e → makeDatasets digits API = Normal [].
Proof. intros H. unfold makeDatasets. by rewrite H. Qed.

(** A failure of one entry is the failure of the whole call. *)
Lemma makeDatasets_entry_failure (digits : float → string) (API : GithubDatasetAPI)
    (index : Index) (key : string) :
  api_index API = Normal index →
  key ∈ Object_keys (datasets index) →
  is_Throw (api_get API key) →
  is_Throw (makeDatasets digits API).
Proof.
  intros Hindex Hkey [e He]. unfold makeDatasets. rewrite Hindex.
  destruct (Promise_all_rejected
              ((λ dataset_key,
                 bind (api_get API dataset_key)
                      (λ r, Normal (dataset_key,
                                    new_Dataset digits dataset_key outputDimensions
                                      (new_Map (sources r.2)) (metadata r.2) r.1
                                      (manifest_views r.2))))
               <$> Object_keys (datasets index))
              (Throw e)) as [e' He'].
  - apply list_elem_of_fmap. exists key. split; [|done]. by rewrite He.
  - by exists e.
  - rewrite He'. by exists e'.
Qed.

(** C8, at an input on which the code departs from it: in a catalog of two
    datasets, the failure to fetch the second one makes [makeDatasets] fail
    as a whole, although the first dataset alone loads. *)
Theorem C8_failing_entry_rejects_catalog :
  is_Throw (makeDatasets plain_digits api_one_failing)
  ∧ ∃ m d, makeDatasets plain_digits api_first_only = Normal m
           ∧ m = [("jrc_1", d)].
Proof.
  split.
  - exists (FetchError "404"). reflexivity.
  - eexists _, _. split; reflexivity.
Qed.

(** ** The layer check boxes *)



Lemma every_unchecked_true (m : gmap string bool) (k : string) :
  Components.every_unchecked m = true → m !! k ≠ Some true.
Proof.
  unfold Components.every_unchecked. rewrite forallb_forall. intros H Hk.
  specialize (H true). simpl in H. enough (false = true) by done. apply H.
  apply list_elem_of_In, list_elem_of_fmap. exists (k, true).
  split; [done|]. by apply elem_of_map_to_list.
Qed.

Lemma foldl_insert_lookup (f : string → bool) (ks : list string)
    (m0 : gmap string bool) (k : string) :
  foldl (λ m k, <[k := f k]> m) m0 ks !! k
  = if decide (k ∈ ks) then Some (f k) else m0 !! k.
Proof.
  revert m0. induction ks as [|a ks IH]; intros m0; simpl.
  - destruct (decide (k ∈ [])) as [H|_]; [by apply elem_of_nil in H | done].
  - rewrite IH. destruct (decide (k ∈ ks)) as [Hin|Hnot].
    + rewrite decide_True by (by right). done.
    + rewrite lookup_insert. destruct (decide (a = k)) as [->|Hne].
      * rewrite decide_True by left. done.
      * rewrite decide_False; [done|].
        intros [Heq|Hin]%elem_of_cons; [by apply Hne | by apply Hnot].
Qed.






(** After the event the state refers to the updated map, whether it is
    the state that the event installs or, when none is installed, the
    earlier state, whose map the event has written. *)
Lemma handleLayerChange_writes_state_map
    (σ : Components.component) (event : Components.ChangeEvent) :
  Components.layerCheckState (Components.checkStates σ) < length (Components.heap σ) →
  Components.layerChecks (Components.handleLayerChange event σ)
  = <[Components.target_name event := Components.target_checked event]>
      (Components.layerChecks σ).
Proof.
  intros Hvalid. unfold Components.handleLayerChange.
  set (updated := <[_ := _]> (Components.layerChecks σ)).
  destruct (Components.every_unchecked updated); simpl;
    unfold Components.layerChecks; simpl.
  - rewrite lookup_app_l by (by rewrite length_insert).
    by rewrite list_lookup_insert_eq.
  - rewrite lookup_app_r by lia. by rewrite Nat.sub_diag.
Qed.

Example uncheck_last_layer :
  let σ' := Components.handleLayerChange uncheck_em paper_state_em in
  Components.reachable paper_dataset_em paper_state_em
  ∧ Components.some_layer_checked paper_dataset_em paper_state_em
  ∧ Components.checkStates σ' = Components.checkStates paper_state_em
  ∧ Components.layerChecks σ' = {[ "em" := false; "mito_seg" := false ]}
  ∧ Components.NeuroglancerLink paper_dataset_em
      {| Components.view_data := tt; Components.volumeKeys := ["em"] |}
      (Components.layerChecks σ') paper_appState
    = Components.NoLayersSelected.
Proof.
  split; [|split; [|split; [|split]]].
  - apply Components.reachable_init. vm_compute. reflexivity.
  - exists "em". split; [left | reflexivity].
  - reflexivity.
  - vm_compute. reflexivity.
  - vm_compute. reflexivity.
Qed.

(* ===================================================================== *)
(** * Part III: further properties of the code *)
(* ===================================================================== *)

(** ** Ordering of numbers *)

Lemma SFcompare_antisym (x y : spec_float) (c : comparison) :
  SFcompare x y = Some c → SFcompare y x = Some (CompOpp c).
Proof.
  destruct x as [sx|sx| |sx mx ex], y as [sy|sy| |sy my ey]; simpl; try discriminate;
    try (intros [= <-]; try destruct sx; try destruct sy; reflexivity).
  intros [= <-]. f_equal.
  destruct sx, sy; try reflexivity.
  - rewrite (Z.compare_antisym ex ey). destruct (ex ?= ey)%Z; simpl; try reflexivity.
    rewrite (Pos.compare_cont_antisym). simpl. by rewrite CompOpp_involutive.
  - rewrite (Z.compare_antisym ex ey). destruct (ex ?= ey)%Z; simpl; try reflexivity.
    rewrite (Pos.compare_cont_antisym). simpl. reflexivity.
Qed.

Lemma leb_of_not_ltb (x y : float) :
  is_nan x = false → is_nan y = false → (x <? y)%float = false → (y <=? x)%float = true.
Proof.
  unfold is_nan.
  rewrite !FloatAxioms.eqb_spec, FloatAxioms.ltb_spec, FloatAxioms.leb_spec.
  unfold SFeqb, SFltb, SFleb.
  destruct (SFcompare (Prim2SF x) (Prim2SF y)) as [c|] eqn:Hc.
  - rewrite (SFcompare_antisym _ _ _ Hc). by destruct c.
  - destruct (Prim2SF x), (Prim2SF y); simpl in *; try discriminate.
Qed.

Lemma leb_of_ltb (x y : float) : (x <? y)%float = true → (x <=? y)%float = true.
Proof.
  rewrite FloatAxioms.ltb_spec, FloatAxioms.leb_spec. unfold SFltb, SFleb.
  by destruct (SFcompare _ _) as [[]|].
Qed.

Lemma leb_refl (x : float) : is_nan x = false → (x <=? x)%float = true.
Proof.
  unfold is_nan. rewrite FloatAxioms.eqb_spec, FloatAxioms.leb_spec.
  unfold SFeqb, SFleb. by destruct (SFcompare _ _) as [[]|].
Qed.

(** [Math.min] of two numbers that are not [NaN] is one of them and is not
    above either. *)
Lemma Math_min_least (x y : float) :
  is_nan x = false → is_nan y = false →
  let m := Math_min (Some x) (Some y) in
  (m = x ∨ m = y) ∧ (m <=? x)%float = true ∧ (m <=? y)%float = true.
Proof.
  intros Hx Hy. unfold Math_min. simpl. rewrite Hx, Hy. simpl.
  destruct (x <? y)%float eqn:Hxy.
  - split; [by left|]. split; [by apply leb_refl | by apply leb_of_ltb].
  - destruct (y <? x)%float eqn:Hyx.
    + split; [by right|]. split; [by apply leb_of_ltb | by apply leb_refl].
    + destruct (get_sign x).
      * split; [by left|]. split; [by apply leb_refl | by apply leb_of_not_ltb].
      * split; [by right|]. split; [by apply leb_of_not_ltb | by apply leb_refl].
Qed.

(** ** The tag set *)

Lemma has_lookup {T} (key : T → string) (x : T) (s : OSet.t T) :
  OSet.has key x s = true ↔ is_Some (OSet.map s !! key x).
Proof.
  unfold OSet.has. rewrite bool_decide_eq_true, list_elem_of_fmap. split.
  - intros ([k v] & -> & Hkv). exists v. by apply elem_of_map_to_list.
  - intros [v Hv]. exists (key x, v). split; [done|]. by apply elem_of_map_to_list.
Qed.

Lemma has_elements (t : ITag) (s : TagSet) :
  keyed JSON_stringify_tag s →
  OSet.has JSON_stringify_tag t s = true ↔ t ∈ OSet.elements s.
Proof.
  intros Hs. rewrite has_lookup, elements_lookup. split.
  - intros [v Hv]. exists (JSON_stringify_tag t).
    rewrite Hv. f_equal. apply JSON_stringify_tag_inj. symmetry. by apply Hs.
  - intros [k Hk]. exists t. by rewrite <- (Hs k t Hk).
Qed.

(** X1: in a tag set that the class builds, [has] answers [true] exactly
    for the tags that are elements of the set; in particular it answers
    [true] for a tag right after its insertion, and [false] on the new
    set. *)
Theorem X1_has_reflects_membership (s : TagSet) (t u : ITag) :
  built JSON_stringify_tag s →
  (OSet.has JSON_stringify_tag t s = true ↔ t ∈ OSet.elements s)
  ∧ OSet.has JSON_stringify_tag t (tags_add t s) = true
  ∧ (OSet.has JSON_stringify_tag u (tags_add t s) = true
     ↔ u = t ∨ OSet.has JSON_stringify_tag u s = true)
  ∧ OSet.has JSON_stringify_tag t OSet.new = false.
Proof.
  intros Hs%built_keyed. split; [by apply has_elements|].
  assert (Hadd : ∀ u, OSet.has JSON_stringify_tag u (tags_add t s) = true
                      ↔ u = t ∨ OSet.has JSON_stringify_tag u s = true).
  { intros v. rewrite !has_elements by (done || by apply keyed_add).
    by apply elements_add; [apply JSON_stringify_tag_inj|]. }
  split; [apply Hadd; by left|]. split; [apply Hadd|].
  apply not_true_is_false. rewrite has_lookup. unfold OSet.new. simpl.
  rewrite lookup_empty. by intros [? ?].
Qed.

Lemma X1_has_reflects_membership_witness :
  (OSet.has JSON_stringify_tag tag_mouse (tags_add tag_janelia OSet.new) = true
   ↔ tag_mouse ∈ OSet.elements (tags_add tag_janelia OSet.new))
  ∧ OSet.has JSON_stringify_tag tag_mouse
      (tags_add tag_mouse (tags_add tag_janelia OSet.new)) = true
  ∧ (OSet.has JSON_stringify_tag tag_janelia
       (tags_add tag_mouse (tags_add tag_janelia OSet.new)) = true
     ↔ tag_janelia = tag_mouse
       ∨ OSet.has JSON_stringify_tag tag_janelia (tags_add tag_janelia OSet.new) = true)
  ∧ OSet.has JSON_stringify_tag tag_mouse OSet.new = false.
Proof.
  apply (X1_has_reflects_membership (tags_add tag_janelia OSet.new)
           tag_mouse tag_janelia).
  apply built_add, built_new.
Defined.

(** X2: [delete] on a tag set that the class builds reports whether the
    tag was an element, removes it, and keeps every other element; a tag
    inserted and deleted is gone. *)
Theorem X2_delete_removes_the_tag (s : TagSet) (t : ITag) :
  built JSON_stringify_tag s →
  let r := OSet.delete JSON_stringify_tag t s in
  r.2 = OSet.has JSON_stringify_tag t s
  ∧ OSet.has JSON_stringify_tag t r.1 = false
  ∧ (∀ u, u ∈ OSet.elements r.1 ↔ u ≠ t ∧ u ∈ OSet.elements s)
  ∧ OSet.has JSON_stringify_tag t
      (OSet.delete JSON_stringify_tag t (tags_add t s)).1 = false.
Proof.
  intros Hb. pose proof (built_keyed _ _ Hb) as Hs. intros r.
  assert (Hgone : ∀ s', OSet.has JSON_stringify_tag t
                          (OSet.delete JSON_stringify_tag t s').1 = false).
  { intros s'. apply not_true_is_false. rewrite has_lookup. unfold OSet.delete. simpl.
    rewrite lookup_delete_eq. by intros [? ?]. }
  split; [|split; [apply Hgone|split; [|apply Hgone]]].
  - subst r. unfold OSet.delete. simpl.
    apply bool_decide_ext. rewrite <- (has_lookup JSON_stringify_tag t s).
    unfold OSet.has. by rewrite bool_decide_eq_true.
  - intros u. subst r. rewrite !elements_lookup. unfold OSet.delete. simpl. split.
    + intros [k Hk]. apply lookup_delete_Some in Hk as [Hne Hk].
      split; [|by exists k]. intros ->. apply Hne. symmetry. by apply Hs.
    + intros [Hne [k Hk]]. exists k. apply lookup_delete_Some. split; [|done].
      intros <-. apply Hne. apply JSON_stringify_tag_inj. symmetry. by apply Hs.
Qed.

Lemma X2_delete_removes_the_tag_witness :
  let r := OSet.delete JSON_stringify_tag tag_mouse
             (tags_add tag_mouse (tags_add tag_janelia OSet.new)) in
  r.2 = OSet.has JSON_stringify_tag tag_mouse
          (tags_add tag_mouse (tags_add tag_janelia OSet.new))
  ∧ OSet.has JSON_stringify_tag tag_mouse r.1 = false
  ∧ (∀ u, u ∈ OSet.elements r.1
          ↔ u ≠ tag_mouse
            ∧ u ∈ OSet.elements (tags_add tag_mouse (tags_add tag_janelia OSet.new)))
  ∧ OSet.has JSON_stringify_tag tag_mouse
      (OSet.delete JSON_stringify_tag tag_mouse
         (tags_add tag_mouse (tags_add tag_mouse (tags_add tag_janelia OSet.new)))).1
    = false.
Proof.
  apply (X2_delete_removes_the_tag (tags_add tag_mouse (tags_add tag_janelia OSet.new))
           tag_mouse).
  apply built_add, built_add, built_new.
Defined.

Lemma elements_NoDup {T} (key : T → string) (s : OSet.t T) :
  keyed key s → NoDup (OSet.elements s).
Proof.
  intros Hs. unfold OSet.elements.
  apply NoDup_fmap_2_strong; [|apply NoDup_map_to_list].
  intros [k1 v1] [k2 v2] H1%elem_of_map_to_list H2%elem_of_map_to_list Hv.
  simpl in Hv. subst v2. f_equal.
  by rewrite (Hs _ _ H1), (Hs _ _ H2).
Qed.

Lemma size_elements {T} (s : OSet.t T) : OSet.size s = length (OSet.elements s).
Proof.
  unfold OSet.size, OSet.elements. by rewrite length_fmap, length_map_to_list.
Qed.

Lemma remove_dups_length {A} `{EqDecision A} (l : list A) :
  length (remove_dups l) ≤ length l.
Proof.
  induction l as [|x l IH]; simpl; [done|].
  destruct (decide_rel elem_of x l); simpl; lia.
Qed.

Lemma add_all_size (l : list ITag) :
  OSet.size (add_all JSON_stringify_tag l OSet.new) = length (remove_dups l).
Proof.
  rewrite size_elements. apply Permutation_length, NoDup_Permutation.
  - apply (elements_NoDup JSON_stringify_tag), keyed_add_all, keyed_new.
  - apply NoDup_remove_dups.
  - intros t. rewrite elem_of_remove_dups.
    rewrite (elements_add_all _ JSON_stringify_tag_inj) by apply keyed_new.
    split; [|by left]. intros [H|H]; [done|]. by apply elements_new in H.
Qed.

(** X3: the size of a tag set is the number of different tags inserted:
    for the tags of a list inserted into the new set, and so for the tag
    set of a dataset, which never holds more than the three single tags,
    the axial and the lateral tag and one tag per entry of the five
    lists. *)
Theorem X3_size_counts_distinct_tags
    (digits : float → string) (descr : DatasetMetadata) (l : list ITag) :
  OSet.size (add_all JSON_stringify_tag l OSet.new) = length (remove_dups l)
  ∧ OSet.size (makeTags digits descr) = length (remove_dups (tag_list digits descr))
  ∧ OSet.size (makeTags digits descr)
    ≤ 4 + length (institution descr) + length (organism (sample descr))
      + length (sample_type (sample descr)) + length (subtype (sample descr))
      + length (treatment (sample descr)).
Proof.
  split; [apply add_all_size|].
  rewrite makeTags_tag_list, add_all_size. split; [done|].
  etrans; [apply remove_dups_length|].
  unfold tag_list. rewrite !length_app, !length_fmap. simpl.
  destruct (gs_z _), (gs_y _), (gs_x _); simpl; lia.
Qed.

Lemma tag_fmap_elem (cat : TagCategories) (l : list string) (t : ITag) :
  t ∈ (λ val, {| value := val; category := cat |}) <$> l
  ↔ category t = cat ∧ value t ∈ l.
Proof.
  rewrite list_elem_of_fmap. split.
  - intros (v & -> & Hv). done.
  - intros [<- Hv]. exists (value t). by destruct t.
Qed.

(** The tags of a dataset, one case per insertion of [makeTags]. *)
Lemma makeTags_cases (digits : float → string) (descr : DatasetMetadata) (t : ITag) :
  let values := gridSpacing_values (imaging descr) in
  t ∈ OSet.elements (makeTags digits descr) ↔
    t = {| value := imaging_institution (imaging descr);
           category := Acquisition_institution |}
    ∨ (category t = Contributing_institution ∧ value t ∈ institution descr)
    ∨ (category t = Sample_Organism ∧ value t ∈ organism (sample descr))
    ∨ (category t = Sample_Type ∧ value t ∈ sample_type (sample descr))
    ∨ (category t = Sample_Subtype ∧ value t ∈ subtype (sample descr))
    ∨ (category t = Sample_Treatment ∧ value t ∈ treatment (sample descr))
    ∨ (∃ z, gs_z values = Some z
            ∧ t = {| value := if (z <=? 6)%float then "<= 6 nm" else "> 6 nm";
                     category := Axial_voxel_size |})
    ∨ ((gs_y values ≠ None ∨ gs_x values ≠ None)
       ∧ t = {| value := toString digits (Math_min (gs_y values) (gs_x values));
                category := Lateral_voxel_size |})
    ∨ t = {| value := softwareAvailability descr; category := Software_Availability |}.
Proof.
  intros values. rewrite makeTags_elements. unfold tag_list. fold values.
  rewrite !elem_of_app, !tag_fmap_elem, !list_elem_of_singleton.
  assert (Hz : t ∈ match gs_z values with
                   | Some axvox =>
                       [ {| value := if (axvox <=? 6)%float then "<= 6 nm" else "> 6 nm";
                            category := Axial_voxel_size |} ]
                   | None => []
                   end
               ↔ ∃ z, gs_z values = Some z
                      ∧ t = {| value := if (z <=? 6)%float then "<= 6 nm" else "> 6 nm";
                               category := Axial_voxel_size |}).
  { destruct (gs_z values) as [z|].
    - rewrite list_elem_of_singleton. split; [intros ->; by exists z|].
      by intros (z' & [= <-] & ->).
    - split; [by intros ?%elem_of_nil | by intros (z' & [=] & _)]. }
  assert (Hl : t ∈ match gs_y values, gs_x values with
                   | None, None => []
                   | y, x => [ {| value := toString digits (Math_min y x);
                                  category := Lateral_voxel_size |} ]
                   end
               ↔ (gs_y values ≠ None ∨ gs_x values ≠ None)
                 ∧ t = {| value := toString digits (Math_min (gs_y values) (gs_x values));
                          category := Lateral_voxel_size |}).
  { destruct (gs_y values) as [y|], (gs_x values) as [x|];
      rewrite ?list_elem_of_singleton; try (split; [intros ->; split; auto | by intros [_ ->]]).
    split; [by intros ?%elem_of_nil | intros [[H|H] _]; done]. }
  rewrite Hz, Hl. tauto.
Qed.

(** The insertion that a tag of a given category comes from. *)
Ltac tag_cases :=
  let Hq := fresh "Hq" in
  let Hv := fresh "Hv" in
  intros [Hq|[[Hq Hv]|[[Hq Hv]|[[Hq Hv]|[[Hq Hv]|[[Hq Hv]|[(? & _ & Hq)|[[_ Hq]|Hq]]]]]]]];
  first [discriminate Hq | exact Hv | by injection Hq].

(** X4: the tags of a dataset in the categories that come from a list are
    the entries of that list: a tag of the category is in the set exactly
    when its value is an entry (an empty list gives no tag); the
    acquisition-institution and software tags are the two single fields;
    no tag has the category "Volumes". *)
Theorem X4_tags_by_category
    (digits : float → string) (descr : DatasetMetadata) (t : ITag) :
  let tags := OSet.elements (makeTags digits descr) in
  (category t = Contributing_institution → t ∈ tags ↔ value t ∈ institution descr)
  ∧ (category t = Sample_Organism → t ∈ tags ↔ value t ∈ organism (sample descr))
  ∧ (category t = Sample_Type → t ∈ tags ↔ value t ∈ sample_type (sample descr))
  ∧ (category t = Sample_Subtype → t ∈ tags ↔ value t ∈ subtype (sample descr))
  ∧ (category t = Sample_Treatment → t ∈ tags ↔ value t ∈ treatment (sample descr))
  ∧ (category t = Acquisition_institution →
     t ∈ tags ↔ value t = imaging_institution (imaging descr))
  ∧ (category t = Software_Availability →
     t ∈ tags ↔ value t = softwareAvailability descr)
  ∧ (category t = Volumes → t ∉ tags).
Proof.
  intros tags. subst tags.
  pose proof (makeTags_cases digits descr t) as H. simpl in H.
  destruct t as [v c]. simpl in *.
  repeat (split; [intros ->; rewrite H; clear H; split; [tag_cases|intros Hv; subst; auto 12]|]).
  intros -> Hin. apply H in Hin. revert Hin. tag_cases.
Qed.

Lemma SFcompare_refl (x : spec_float) : x ≠ S754_nan → SFcompare x x = Some Eq.
Proof.
  destruct x as [s|s| |s m e]; simpl; intros H; try done.
  - by destruct s.
  - rewrite Z.compare_refl, Pos.compare_cont_refl. by destruct s.
Qed.

Lemma is_nan_Prim2SF (z : float) : is_nan z = true → Prim2SF z = S754_nan.
Proof.
  unfold is_nan. rewrite FloatAxioms.eqb_spec. unfold SFeqb. intros H.
  destruct (Prim2SF z) as [s|s| |s m e] eqn:Hz; [..|done|];
    by rewrite SFcompare_refl in H.
Qed.

Lemma leb_nan (z y : float) : is_nan z = true → (z <=? y)%float = false.
Proof.
  intros H%is_nan_Prim2SF. rewrite FloatAxioms.leb_spec, H. reflexivity.
Qed.

(** X5: the axial-voxel-size tag is there exactly when the z grid spacing
    is present; its value is "<= 6 nm" when z is at most 6 and "> 6 nm"
    otherwise, which includes a z that is [NaN]. *)
Theorem X5_axial_tag (digits : float → string) (descr : DatasetMetadata) (t : ITag) :
  let tags := OSet.elements (makeTags digits descr) in
  let z := gs_z (gridSpacing_values (imaging descr)) in
  (t ∈ tags ∧ category t = Axial_voxel_size
   ↔ ∃ v, z = Some v
          ∧ t = {| value := if (v <=? 6)%float then "<= 6 nm" else "> 6 nm";
                   category := Axial_voxel_size |})
  ∧ (∀ v, z = Some v → is_nan v = true →
          {| value := "> 6 nm"; category := Axial_voxel_size |} ∈ tags).
Proof.
  intros tags z. subst tags z. split.
  - rewrite makeTags_cases. split.
    + intros [Hin Hc]. revert Hin. destruct t as [v c]. simpl in Hc. subst c.
      intros [Hq|[[Hq _]|[[Hq _]|[[Hq _]|[[Hq _]|[[Hq _]|[Hz|[[_ Hq]|Hq]]]]]]]];
        try discriminate Hq. exact Hz.
    + intros (v & Hv & ->). split; [|done]. do 6 right. left. by exists v.
  - intros v Hv Hnan. rewrite makeTags_cases. do 6 right. left. exists v.
    split; [done|]. by rewrite (leb_nan _ _ Hnan).
Qed.

(** X6: with both the x and the y grid spacing present and numbers, the
    lateral-voxel-size tag is the one tag whose value prints one of the two
    spacings, one that is not above the other. *)
Theorem X6_lateral_tag_is_the_minimum
    (digits : float → string) (descr : DatasetMetadata) (x y : float) :
  gs_x (gridSpacing_values (imaging descr)) = Some x →
  gs_y (gridSpacing_values (imaging descr)) = Some y →
  is_nan x = false → is_nan y = false →
  ∃ m, (m = x ∨ m = y) ∧ (m <=? x)%float = true ∧ (m <=? y)%float = true
       ∧ ∀ t, t ∈ OSet.elements (makeTags digits descr) ∧ category t = Lateral_voxel_size
              ↔ t = {| value := toString digits m; category := Lateral_voxel_size |}.
Proof.
  intros Hx Hy Hnx Hny.
  destruct (Math_min_least y x Hny Hnx) as (Hm & Hmy & Hmx).
  exists (Math_min (Some y) (Some x)).
  split; [tauto|]. split; [done|]. split; [done|].
  intros t. by apply lateral_tag_of_both.
Qed.

Lemma X6_lateral_tag_is_the_minimum_witness :
  ∃ m, (m = 8%float ∨ m = 4%float)
       ∧ (m <=? 8)%float = true ∧ (m <=? 4)%float = true
       ∧ ∀ t, t ∈ OSet.elements (makeTags plain_digits metadata_plain)
              ∧ category t = Lateral_voxel_size
              ↔ t = {| value := toString plain_digits m; category := Lateral_voxel_size |}.
Proof.
  apply (X6_lateral_tag_is_the_minimum plain_digits metadata_plain 8%float 4%float);
    reflexivity.
Defined.

(** ** The views of a dataset *)

(** X7: a dataset built from a view list that is not empty has one view
    per entry, in the same order, with the name, the description and the
    sources of the entry; a position, scale or orientation of the view is
    the value of the entry, and there is none when the entry has [null] or
    nothing there. *)
Theorem X7_views_in_order
    (digits : float → string) (name : string) (space : CoordinateSpace)
    (volumes : Map VolumeSource) (description : DatasetMetadata)
    (thumbnailURL : string) (views_in : list IDatasetView) :
  views_in ≠ [] →
  let vs := views (new_Dataset digits name space volumes description
                               thumbnailURL views_in) in
  length vs = length views_in
  ∧ ∀ i blob, views_in !! i = Some blob →
      ∃ v, vs !! i = Some v
           ∧ view_name v = iv_name blob
           ∧ view_description v = iv_description blob
           ∧ view_sources v = iv_sources blob
           ∧ (∀ p, view_position v = Some p ↔ iv_position blob = Value p)
           ∧ (∀ p, view_scale v = Some p ↔ iv_scale blob = Value p)
           ∧ (∀ p, view_orientation v = Some p ↔ iv_orientation blob = Value p).
Proof.
  intros Hne vs. subst vs. unfold new_Dataset. simpl.
  destruct views_in as [|b bs]; [done|]. clear Hne.
  change (length (b :: bs) =? 0)%nat with false. cbv iota.
  split; [by rewrite length_fmap|].
  intros i blob Hi. exists (new_DatasetView (Some blob)).
  split; [by rewrite list_lookup_fmap, Hi|].
  unfold new_DatasetView. simpl. repeat split; try done;
    intros H;
    first [ destruct (iv_position blob); simpl in *; congruence
          | destruct (iv_scale blob); simpl in *; congruence
          | destruct (iv_orientation blob); simpl in *; congruence ].
Qed.

Lemma X7_views_in_order_witness :
  let vs := views (new_Dataset plain_digits "jrc_1" outputDimensions [] metadata_plain
                               "thumbnail.jpg" [view_top; DefaultView]) in
  length vs = length [view_top; DefaultView]
  ∧ ∀ i blob, [view_top; DefaultView] !! i = Some blob →
      ∃ v, vs !! i = Some v
           ∧ view_name v = iv_name blob
           ∧ view_description v = iv_description blob
           ∧ view_sources v = iv_sources blob
           ∧ (∀ p, view_position v = Some p ↔ iv_position blob = Value p)
           ∧ (∀ p, view_scale v = Some p ↔ iv_scale blob = Value p)
           ∧ (∀ p, view_orientation v = Some p ↔ iv_orientation blob = Value p).
Proof.
  apply (X7_views_in_order plain_digits "jrc_1" outputDimensions [] metadata_plain
           "thumbnail.jpg" [view_top; DefaultView]).
  discriminate.
Defined.

(** ** makeLayer *)

(** X8: a segmentation layer lists the volume's own source first, at
    [format://url] with the volume's transform, followed by one source per
    mesh, in order, at [precomputed://] and the mesh's url with the mesh's
    transform, and selects the ids of the first mesh; without meshes (also
    for a volume constructed without sub-sources) it has the one source and
    selects nothing. *)
Theorem X8_segmentation_sources (digits : float → string) (volume : VolumeSource) :
  let primary :=
    {| lds_url := format volume +:+ "://" +:+ vol_url volume;
       lds_transform :=
         SpatialTransformToNeuroglancer (vol_transform volume) outputDimensions;
       lds_CoordinateSpaceTransform :=
         SpatialTransformToNeuroglancer (vol_transform volume) outputDimensions |} in
  (∃ g, makeLayer digits volume segmentation = Some (Segmentation g)
        ∧ seg_name g = vol_name volume
        ∧ match subsources volume with
          | [] => seg_source g = OneSource primary ∧ seg_segments g = None
          | first :: _ =>
              seg_segments g = Some (ids first)
              ∧ ∃ meshes,
                  seg_source g = SourceList (primary :: meshes)
                  ∧ length meshes = length (subsources volume)
                  ∧ ∀ i m, subsources volume !! i = Some m →
                      ∃ src, meshes !! i = Some src
                             ∧ lds_url src = "precomputed://" +:+ mesh_url m
                             ∧ lds_transform src
                               = SpatialTransformToNeuroglancer (mesh_transform m)
                                                                outputDimensions
                             ∧ lds_CoordinateSpaceTransform src = lds_transform src
          end)
  ∧ ∀ url name transform contentType sampleType format displaySettings description,
      ∃ g, makeLayer digits
             (new_Volume url name transform contentType sampleType format
                         displaySettings description None) segmentation
           = Some (Segmentation g)
           ∧ seg_segments g = None
           ∧ ∃ source, seg_source g = OneSource source
                       ∧ lds_url source = format +:+ "://" +:+ url.
Proof.
  intros primary. split.
  - unfold makeLayer. destruct (subsources volume) as [|first rest] eqn:Hsub.
    + eexists. split; [reflexivity|]. done.
    + eexists. split; [reflexivity|].
      cbn [seg_name seg_source seg_segments]. split; [done|]. split; [done|].
      eexists. split; [reflexivity|]. split; [by rewrite length_fmap|].
      intros i m Hi. eexists. rewrite list_lookup_fmap, Hi. done.
  - intros. eexists. split; [reflexivity|]. simpl. split; [done|].
    eexists. split; reflexivity.
Qed.

(** X9: [makeLayer] yields no layer exactly for the layer types
    'annotation' and 'mesh'; a layer it yields has the name of the volume
    and is an image layer exactly when the type is 'image'; an image layer
    has its source at [format://url], with the same transform under both
    names, and has no shader exactly when the sample type is neither
    'scalar' nor 'label'. *)
Theorem X9_makeLayer_by_type
    (digits : float → string) (volume : VolumeSource) (layerType : LayerTypes) :
  (makeLayer digits volume layerType = None
   ↔ layerType = annotation ∨ layerType = mesh)
  ∧ (∀ l, makeLayer digits volume layerType = Some l →
          layer_name l = vol_name volume
          ∧ (instanceof_ImageLayer l = true ↔ layerType = image))
  ∧ ∃ i, makeLayer digits volume image = Some (Image i)
         ∧ lds_url (img_source i) = format volume +:+ "://" +:+ vol_url volume
         ∧ lds_transform (img_source i)
           = SpatialTransformToNeuroglancer (vol_transform volume) outputDimensions
         ∧ lds_CoordinateSpaceTransform (img_source i) = lds_transform (img_source i)
         ∧ (shader i = None
            ↔ sampleType volume ≠ "scalar" ∧ sampleType volume ≠ "label").
Proof.
  split; [|split].
  - destruct layerType; simpl.
    + split; [discriminate | intros [H|H]; discriminate H].
    + destruct (subsources volume);
        (split; [discriminate | intros [H|H]; discriminate H]).
    + split; [by left | done].
    + split; [by right | done].
  - intros l. destruct layerType; simpl.
    + intros [= <-]. split; [done|]. by split.
    + destruct (subsources volume); intros [= <-];
        (split; [done|]; split; discriminate).
    + discriminate.
    + discriminate.
  - eexists. split; [reflexivity|].
    cbn [img_source shader makeSource lds_url lds_transform lds_CoordinateSpaceTransform].
    split; [done|]. split; [done|]. split; [done|].
    unfold makeShader.
    destruct (String.eqb_spec (sampleType volume) "scalar") as [Hs|Hs].
    { split; [discriminate | intros [H _]; done]. }
    destruct (String.eqb_spec (sampleType volume) "label") as [Hl|Hl].
    { split; [discriminate | intros [_ H]; done]. }
    done.
Qed.

(** ** The viewer state *)

Lemma adjust_alpha_names (layers : list Layer) :
  layer_name <$> adjust_alpha layers = layer_name <$> layers.
Proof. destruct layers as [|[i|g] [|l2 ls]]; reflexivity. Qed.

Lemma adjust_alpha_nil (layers : list Layer) :
  adjust_alpha layers = [] ↔ layers = [].
Proof. destruct layers as [|[i|g] [|l2 ls]]; simpl; split; congruence. Qed.

(** X10: the viewer state is built exactly when there is a layer (on an
    empty layer list the method throws).  The state names the first layer
    as the selected, visible layer, holds the layers under the same names
    in the same order, passes position and orientation on (the orientation
    also as projection orientation), and has the four-panel layout, the
    projection scale 65536 and the nanometer output space; the link fragment
    is the encoding of that state. *)
Theorem X10_viewer_state
    (urlSafeStringify : ViewerState → string) (encodeFragment : string → string)
    (layers : list Layer) (viewerPosition : option (list float))
    (crossSectionScale : option float) (crossSectionOrientation : option (list float)) :
  let state := makeViewerState layers viewerPosition crossSectionScale
                               crossSectionOrientation in
  (is_Throw state ↔ layers = [])
  ∧ (∀ first rest, layers = first :: rest →
       ∃ vState,
         state = Normal vState
         ∧ makeNeuroglancerViewerState urlSafeStringify encodeFragment layers
             viewerPosition crossSectionScale crossSectionOrientation
           = Normal (encodeFragment (urlSafeStringify vState))
         ∧ vs_selectedLayer vState
           = {| sl_layer := layer_name first; sl_visible := true |}
         ∧ layer_name <$> vs_layers vState = layer_name <$> layers
         ∧ vs_position vState = viewerPosition
         ∧ vs_crossSectionOrientation vState = crossSectionOrientation
         ∧ vs_projectionOrientation vState = crossSectionOrientation
         ∧ vs_projectionScale vState = 65536%float
         ∧ vs_layout vState = "4panel"
         ∧ vs_dimensions vState = outputDimensions).
Proof.
  intros state. subst state. unfold makeNeuroglancerViewerState, makeViewerState.
  pose proof (adjust_alpha_names layers) as Hnames.
  pose proof (adjust_alpha_nil layers) as Hnil.
  destruct (adjust_alpha layers) as [|l ls] eqn:Hadj.
  - split.
    + split; [intros _; by apply Hnil | intros _; by eexists].
    + intros first rest ->. by destruct first, rest.
  - split.
    + split; [intros [e He]; discriminate He | intros ->; discriminate Hadj].
    + intros first rest ->. eexists. split; [reflexivity|]. simpl.
      split; [reflexivity|]. split; [|done].
      simpl in Hnames. injection Hnames as -> _. done.
Qed.

Lemma truthy_cases (s : float) :
  truthy_number (Some s) = negb ((s =? 0)%float || is_nan s).
Proof. reflexivity. Qed.

(** X11: the cross-section scale of the viewer state is the scale passed
    in when that is a number other than zero and [NaN], and 50 in every
    other case: no scale, a scale of zero, a scale that is [NaN]. *)
Theorem X11_crossSectionScale_default
    (first : Layer) (rest : list Layer) (viewerPosition : option (list float))
    (crossSectionScale : option float) (crossSectionOrientation : option (list float)) :
  ∃ vState,
    makeViewerState (first :: rest) viewerPosition crossSectionScale
                    crossSectionOrientation = Normal vState
    ∧ (crossSectionScale = None → vs_crossSectionScale vState = 50%float)
    ∧ (∀ s, crossSectionScale = Some s → (s =? 0)%float = true ∨ is_nan s = true →
            vs_crossSectionScale vState = 50%float)
    ∧ (∀ s, crossSectionScale = Some s → (s =? 0)%float = false → is_nan s = false →
            vs_crossSectionScale vState = s).
Proof.
  unfold makeViewerState.
  pose proof (adjust_alpha_nil (first :: rest)) as Hnil.
  destruct (adjust_alpha (first :: rest)) as [|l ls].
  { discriminate (proj1 Hnil eq_refl). }
  eexists. split; [reflexivity|]. simpl. split; [by intros ->|]. split.
  - intros s -> H. rewrite truthy_cases.
    destruct H as [-> | ->]; [done | by rewrite orb_true_r].
  - intros s -> H1 H2. by rewrite truthy_cases, H1, H2.
Qed.


(** ** makeQuiltURL, isS3 *)

Lemma prefix_app (s1 s2 : string) :
  String.prefix s1 s2 = true ↔ ∃ rest, s2 = s1 +:+ rest.
Proof.
  revert s2. induction s1 as [|a s1 IH]; intros s2.
  - split; [intros _; exists s2; reflexivity | intros _; by destruct s2].
  - destruct s2 as [|b s2].
    + split; [discriminate | intros [rest H]; discriminate H].
    + change (String.prefix (String a s1) (String b s2))
        with (if ascii_dec a b then String.prefix s1 s2 else false).
      destruct (ascii_dec a b) as [->|Hne].
      * rewrite IH. split; intros [rest H]; exists rest.
        -- rewrite H. reflexivity.
        -- injection H as H. exact H.
      * split; [discriminate|]. intros [rest H]. injection H as H1 H2. by destruct Hne.
Qed.

(** X13: [isS3] holds exactly of the strings that begin with [s3://]; the
    browse address that [makeQuiltURL] builds never does. *)
Theorem X13_isS3 (url bucket prefix : string) :
  (isS3 url = true ↔ ∃ rest, url = "s3://" +:+ rest)
  ∧ isS3 (makeQuiltURL bucket prefix) = false.
Proof.
  split; [apply prefix_app | reflexivity].
Qed.

(** ** Maps in insertion order *)

Lemma Map_set_fresh {V} (k : string) (v : V) (m : Map V) :
  k ∉ Map_keys m → Map_set k v m = m ++ [(k, v)].
Proof.
  induction m as [|[k' v'] m IH]; intros Hk; simpl; [done|].
  destruct (String.eqb_spec k' k) as [->|Hne].
  - exfalso. apply Hk. left.
  - f_equal. apply IH. intros Hin. apply Hk. by right.
Qed.

Lemma foldl_Map_set {V} (acc l : list (string * V)) :
  NoDup (acc ++ l).*1 →
  foldl (λ m kv, Map_set kv.1 kv.2 m) acc l = acc ++ l.
Proof.
  revert acc. induction l as [|[k v] l IH]; intros acc Hnd; simpl.
  - by rewrite app_nil_r.
  - rewrite Map_set_fresh.
    + rewrite IH; [by rewrite <- app_assoc | by rewrite <- app_assoc].
    + rewrite fmap_app in Hnd. apply NoDup_app in Hnd as (_ & Hdis & _).
      intros Hin. apply (Hdis k Hin). left.
Qed.

Lemma new_Map_NoDup {V} (l : list (string * V)) : NoDup l.*1 → new_Map l = l.
Proof. intros H. unfold new_Map. by rewrite foldl_Map_set. Qed.

Lemma Map_get_set_eq {V} (k : string) (v : V) (m : Map V) :
  Map_get k (Map_set k v m) = Some v.
Proof.
  induction m as [|[k' v'] m IH]; simpl.
  - by rewrite String.eqb_refl.
  - destruct (String.eqb_spec k' k) as [->|Hne]; simpl.
    + by rewrite String.eqb_refl.
    + by destruct (String.eqb_spec k' k).
Qed.

Lemma Map_get_set_ne {V} (k k' : string) (v : V) (m : Map V) :
  k ≠ k' → Map_get k (Map_set k' v m) = Map_get k m.
Proof.
  intros Hne. induction m as [|[k0 v0] m IH]; simpl.
  - by destruct (String.eqb_spec k' k) as [->|].
  - destruct (String.eqb_spec k0 k') as [->|Hne0]; simpl.
    + destruct (String.eqb_spec k' k) as [->|]; done.
    + destruct (String.eqb_spec k0 k); done.
Qed.

Lemma Map_get_None {V} (k : string) (m : Map V) :
  Map_get k m = None ↔ k ∉ Map_keys m.
Proof.
  induction m as [|[k' v'] m IH]; simpl.
  - split; [intros _; apply not_elem_of_nil | done].
  - unfold Map_keys in *. simpl. rewrite not_elem_of_cons.
    destruct (String.eqb_spec k' k) as [->|Hne].
    + split; [discriminate | intros [H _]; done].
    + rewrite IH. split; [intros H; split; [congruence | done] | by intros [_ H]].
Qed.

Lemma Map_get_fmap {A V} (f : A → V) (key : A → string) (l : list A) (a : A) :
  a ∈ l →
  (∀ b, b ∈ l → key b = key a → b = a) →
  Map_get (key a) ((λ x, (key x, f x)) <$> l) = Some (f a).
Proof.
  induction l as [|b l IH]; intros Hin Hkey; [by apply elem_of_nil in Hin|].
  simpl. destruct (String.eqb_spec (key b) (key a)) as [Heq|Hne].
  - f_equal. f_equal. apply Hkey; [left | done].
  - apply IH.
    + apply elem_of_cons in Hin as [->|Hin]; done.
    + intros c Hc. apply Hkey. by right.
Qed.

Lemma Promise_all_fulfilled {A} (l : list A) : Promise_all (Normal <$> l) = Normal l.
Proof.
  induction l as [|a l IH]; [done|].
  rewrite fmap_cons. cbn [Promise_all]. by rewrite IH.
Qed.

(** ** makeDatasets *)

(** X12: when the index and every entry of it are fetched, the catalog
    holds one dataset per key of the index, in the order of the index; the
    dataset of a key is named by the key, is built from what was fetched
    for the key and has at least one view. *)
Theorem X12_makeDatasets_loads_every_entry
    (digits : float → string) (API : GithubDatasetAPI) (index : Index)
    (fetched : string → string * Manifest) :
  api_index API = Normal index →
  NoDup (Object_keys (datasets index)) →
  (∀ key, key ∈ Object_keys (datasets index) →
          api_get API key = Normal (fetched key)) →
  ∃ m, makeDatasets digits API = Normal m
       ∧ Map_keys m = Object_keys (datasets index)
       ∧ ∀ key, key ∈ Object_keys (datasets index) →
           ∃ d, Map_get key m = Some d
                ∧ d = new_Dataset digits key outputDimensions
                        (new_Map (sources (fetched key).2))
                        (metadata (fetched key).2) (fetched key).1
                        (manifest_views (fetched key).2)
                ∧ ds_name d = key
                ∧ 1 ≤ length (views d).
Proof.
  intros Hindex Hnd Hget. unfold makeDatasets. rewrite Hindex.
  set (keys := Object_keys (datasets index)) in *.
  set (build := λ key : string,
         new_Dataset digits key outputDimensions
           (new_Map (sources (fetched key).2)) (metadata (fetched key).2)
           (fetched key).1 (manifest_views (fetched key).2)).
  assert (Hall : (λ dataset_key,
                    bind (api_get API dataset_key)
                         (λ r, Normal (dataset_key,
                                       new_Dataset digits dataset_key outputDimensions
                                         (new_Map (sources r.2)) (metadata r.2) r.1
                                         (manifest_views r.2)))) <$> keys
                 = Normal <$> ((λ key, (key, build key)) <$> keys)).
  { rewrite <- list_fmap_compose. apply Forall_fmap_ext_1, Forall_forall.
    intros key Hkey. simpl. by rewrite (Hget key Hkey). }
  rewrite Hall, Promise_all_fulfilled. simpl.
  assert (Hkeys : ((λ key, (key, build key)) <$> keys).*1 = keys).
  { rewrite <- list_fmap_compose. by rewrite list_fmap_id. }
  rewrite new_Map_NoDup by (by rewrite Hkeys).
  eexists. split; [reflexivity|]. split; [exact Hkeys|].
  intros key Hkey. exists (build key).
  split; [|split; [done|split; [done|]]].
  - apply (Map_get_fmap build id keys key Hkey). done.
  - subst build. simpl. destruct (manifest_views _); simpl; lia.
Qed.

Lemma X12_makeDatasets_loads_every_entry_witness :
  ∃ m, makeDatasets plain_digits api_first_only = Normal m
       ∧ Map_keys m = ["jrc_1"]
       ∧ ∀ key, key ∈ ["jrc_1"] →
           ∃ d, Map_get key m = Some d
                ∧ d = new_Dataset plain_digits key outputDimensions
                        (new_Map (sources manifest_plain))
                        (metadata manifest_plain) (key +:+ "/thumbnail.jpg")
                        (manifest_views manifest_plain)
                ∧ ds_name d = key
                ∧ 1 ≤ length (views d).
Proof.
  apply (X12_makeDatasets_loads_every_entry plain_digits api_first_only
           {| datasets := [("jrc_1", "jrc_1/manifest.json")] |}
           (λ key, (key +:+ "/thumbnail.jpg", manifest_plain))).
  - reflexivity.
  - apply NoDup_singleton.
  - intros key Hkey. apply list_elem_of_singleton in Hkey as ->. reflexivity.
Defined.

(** ** The link component and the check boxes *)

(** X14: the link component compiles the view with its volume keys
    replaced by the keys of the dataset's volumes that are checked, in the
    order of the dataset's volumes, and links to the viewer address followed
    by the result; keys that are checked but name no volume of the dataset,
    and the volume keys of the view itself, play no part.  With no such key
    it shows the refusal. *)
Theorem X14_link_of_checked_volumes {Volume ViewData : Type}
    (dataset : Components.Dataset Volume ViewData)
    (view : Components.DatasetView ViewData)
    (checkState : gmap string bool) (appState : Components.AppState) :
  Components.NeuroglancerLink dataset view checkState appState
  = match filter (λ k, checkState !! k = Some true)
                 (Map_keys (Components.volumes dataset)) with
    | [] => Components.NoLayersSelected
    | keys =>
        Components.ViewButton
          (Components.neuroglancerAddress appState
             +:+ Components.makeNeuroglancerViewerState dataset
                   {| Components.view_data := Components.view_data view;
                      Components.volumeKeys := keys |})
          (negb (Components.webGL2Enabled appState))
    end.
Proof.
  unfold Components.NeuroglancerLink. simpl. rewrite checked_keys_filter. simpl.
  by destruct (filter _ _).
Qed.

(** X15: a layer check box event writes the box of the event into the map
    that the current state refers to, in place and whether or not it then
    installs a new state, and leaves the other maps as they are; a state
    that it installs refers to a copy at a new address.  So the event that
    unchecks the last checked box installs no state and still leaves the
    current state with a map in which no box is checked. *)
Theorem X15_layer_change_writes_the_state_map
    (σ : Components.component) (event : Components.ChangeEvent) :
  Components.layerCheckState (Components.checkStates σ) < length (Components.heap σ) →
  let r := Components.layerCheckState (Components.checkStates σ) in
  let updated :=
    <[Components.target_name event := Components.target_checked event]>
      (Components.layerChecks σ) in
  let σ' := Components.handleLayerChange event σ in
  Components.heap σ' !! r = Some updated
  ∧ (∀ a, a ≠ r → a < length (Components.heap σ) →
          Components.heap σ' !! a = Components.heap σ !! a)
  ∧ (Components.every_unchecked updated = true →
     Components.checkStates σ' = Components.checkStates σ
     ∧ Components.layerChecks σ' = updated
     ∧ ∀ k, Components.layerChecks σ' !! k ≠ Some true)
  ∧ (Components.every_unchecked updated = false →
     Components.layerCheckState (Components.checkStates σ') = length (Components.heap σ)
     ∧ Components.layerCheckState (Components.checkStates σ') ≠ r
     ∧ Components.layerChecks σ' = updated).
Proof.
  intros Hvalid r updated σ'.
  assert (Hheap : Components.heap σ' = <[r := updated]> (Components.heap σ) ++ [updated]).
  { subst σ'. unfold Components.handleLayerChange. fold r. fold updated.
    by destruct (Components.every_unchecked updated). }
  assert (Hmap : Components.layerChecks σ' = updated)
    by (by apply handleLayerChange_writes_state_map).
  split; [|split; [|split]].
  - rewrite Hheap, lookup_app_l by (by rewrite length_insert).
    by apply list_lookup_insert_eq.
  - intros a Ha Hlt. rewrite Hheap, lookup_app_l by (by rewrite length_insert).
    by apply list_lookup_insert_ne.
  - intros Hev. split; [|split; [done|]].
    + subst σ'. unfold Components.handleLayerChange. fold updated. by rewrite Hev.
    + intros k. rewrite Hmap. by apply every_unchecked_true.
  - intros Hev.
    assert (Haddr : Components.layerCheckState (Components.checkStates σ')
                    = length (Components.heap σ)).
    { subst σ'. unfold Components.handleLayerChange. fold updated. rewrite Hev. simpl.
      by rewrite length_insert. }
    split; [done|]. split; [|done]. rewrite Haddr. subst r. lia.
Qed.

Lemma X15_layer_change_writes_the_state_map_witness :
  Components.heap (Components.handleLayerChange uncheck_em paper_state_em) !! 0
  = Some (<["em" := false]> (Components.layerChecks paper_state_em))
  ∧ (∀ a, a ≠ 0 → a < length (Components.heap paper_state_em) →
          Components.heap (Components.handleLayerChange uncheck_em paper_state_em) !! a
          = Components.heap paper_state_em !! a)
  ∧ (Components.every_unchecked
       (<["em" := false]> (Components.layerChecks paper_state_em)) = true →
     Components.checkStates (Components.handleLayerChange uncheck_em paper_state_em)
     = Components.checkStates paper_state_em
     ∧ Components.layerChecks (Components.handleLayerChange uncheck_em paper_state_em)
       = <["em" := false]> (Components.layerChecks paper_state_em)
     ∧ ∀ k, Components.layerChecks
              (Components.handleLayerChange uncheck_em paper_state_em) !! k
            ≠ Some true)
  ∧ (Components.every_unchecked
       (<["em" := false]> (Components.layerChecks paper_state_em)) = false →
     Components.layerCheckState
       (Components.checkStates (Components.handleLayerChange uncheck_em paper_state_em))
     = length (Components.heap paper_state_em)
     ∧ Components.layerCheckState
         (Components.checkStates (Components.handleLayerChange uncheck_em paper_state_em))
       ≠ 0
     ∧ Components.layerChecks (Components.handleLayerChange uncheck_em paper_state_em)
       = <["em" := false]> (Components.layerChecks paper_state_em)).
Proof.
  apply (X15_layer_change_writes_the_state_map paper_state_em uncheck_em).
  simpl. lia.
Defined.

(** The map of the earlier state is written also by an event that installs
    a state: after the check of the second layer, the map at the earlier
    address holds the new box as the map at the new address does. *)
Example installing_event_writes_the_earlier_map :
  let σ' := Components.handleLayerChange check_mito_seg paper_state_em in
  Components.layerCheckState (Components.checkStates σ') = 1
  ∧ Components.heap σ' !! 0 = Some {[ "em" := true; "mito_seg" := true ]}
  ∧ Components.heap σ' !! 1 = Some {[ "em" := true; "mito_seg" := true ]}.
Proof. split; [|split]; vm_compute; reflexivity. Qed.

Lemma imap_const_false {A} (g : nat → A → bool) (l : list A) :
  (∀ i x, g i x = false) → imap g l = replicate (length l) false.
Proof.
  revert g. induction l as [|x l IH]; intros g Hg; simpl; [done|].
  rewrite Hg. f_equal. apply IH. intros i y. apply Hg.
Qed.

Lemma imap_first_checked {A} (l : list A) :
  l ≠ [] →
  imap (λ idx _, bool_decide (idx = 0)) l = one_checked (length l) 0.
Proof.
  destruct l as [|x l]; [done|]. intros _. unfold one_checked. simpl. f_equal.
  by apply imap_const_false.
Qed.

(** The first state of a dataset that has a view. *)
Lemma initialState_first {Volume ViewData : Type}
    (dataset : Components.Dataset Volume ViewData)
    (first : Components.DatasetView ViewData)
    (rest : list (Components.DatasetView ViewData)) :
  Components.views dataset = first :: rest →
  ∃ σ, Components.initialState dataset = Normal σ
       ∧ Components.layerCheckState (Components.checkStates σ)
         < length (Components.heap σ)
       ∧ Components.viewCheckState (Components.checkStates σ)
         = one_checked (length (Components.views dataset)) 0
       ∧ ∀ k, Components.layerChecks σ !! k
              = if decide (k ∈ Map_keys (Components.volumes dataset))
                then Some (bool_decide (k ∈ Components.volumeKeys first))
                else None.
Proof.
  intros Hviews. unfold Components.initialState. rewrite Hviews.
  eexists. split; [reflexivity|].
  split; [simpl; lia|]. split; [by apply imap_first_checked|].
  intros k. unfold Components.layerChecks. simpl.
  rewrite foldl_insert_lookup. by rewrite lookup_empty.
Qed.

(** X16: the first state can fail to exist only for a dataset without
    views: with volumes and no view, reading the first view throws.  For a
    dataset with a view it has a check box for every volume key of the
    dataset and for nothing else, checked exactly for the keys the first
    view lists, and one view check box per view of which the first alone is
    checked. *)
Theorem X16_first_state {Volume ViewData : Type}
    (dataset : Components.Dataset Volume ViewData) :
  (is_Throw (Components.initialState dataset) → Components.views dataset = [])
  ∧ (Components.views dataset = [] →
     Map_keys (Components.volumes dataset) ≠ [] →
     is_Throw (Components.initialState dataset))
  ∧ ∀ first rest, Components.views dataset = first :: rest →
      ∃ σ, Components.initialState dataset = Normal σ
           ∧ Components.layerCheckState (Components.checkStates σ)
             < length (Components.heap σ)
           ∧ Components.viewCheckState (Components.checkStates σ)
             = one_checked (length (Components.views dataset)) 0
           ∧ ∀ k, Components.layerChecks σ !! k
                  = if decide (k ∈ Map_keys (Components.volumes dataset))
                    then Some (bool_decide (k ∈ Components.volumeKeys first))
                    else None.
Proof.
  split; [|split; [|apply initialState_first]];
    unfold Components.initialState;
    destruct (Components.views dataset) as [|first rest].
  - done.
  - intros [e He]. discriminate He.
  - intros _ Hkeys. destruct (Map_keys (Components.volumes dataset)); [done|].
    by eexists.
  - discriminate.
Qed.

(** *** The view check boxes *)

Lemma findIndex_from_all_false (n : nat) (k : Z) :
  findIndex_from id (replicate n false) k = (-1)%Z.
Proof. revert k. induction n as [|n IH]; intros k; simpl; [done | apply IH]. Qed.

Lemma findIndex_from_one_checked (n i : nat) (k : Z) :
  i < n → findIndex_from id (one_checked n i) k = (k + Z.of_nat i)%Z.
Proof.
  unfold one_checked. revert i k. induction n as [|n IH]; intros i k Hi; [lia|].
  destruct i as [|i]; simpl; [lia|].
  rewrite IH by lia. lia.
Qed.

Lemma findIndex_from_past_end (n j : nat) (k : Z) :
  findIndex_from id (replicate n false ++ replicate j false ++ [true]) k
  = (k + Z.of_nat (n + j))%Z.
Proof.
  rewrite app_assoc, <- replicate_add.
  generalize (n + j) as m. clear n j. intros m. revert k.
  induction m as [|m IH]; intros k; simpl; [lia|]. rewrite IH. lia.
Qed.

Lemma fmap_const_false (l : list bool) : (λ _, false) <$> l = replicate (length l) false.
Proof. induction l as [|b l IH]; simpl; [done | by f_equal]. Qed.

Section view_change.
Context {Volume ViewData : Type} (parseInt_index : string → option nat).
Implicit Types (σ : Components.component) (event : Components.ChangeEvent).
Implicit Types (views : list (Components.DatasetView ViewData)).

(** The state after the selection of the view at position [i]. *)
Lemma handleViewChange_in_range event views σ (i : nat)
    (view : Components.DatasetView ViewData) :
  Components.target_checked event = true →
  parseInt_index (Components.target_name event) = Some i →
  length (Components.viewCheckState (Components.checkStates σ)) = length views →
  views !! i = Some view →
  ∃ σ', DatasetPaperEvents.handleViewChange parseInt_index event views σ = Normal σ'
        ∧ Components.heap σ' = Components.heap σ ++ [Components.layerChecks σ']
        ∧ Components.layerCheckState (Components.checkStates σ')
          = length (Components.heap σ)
        ∧ Components.viewCheckState (Components.checkStates σ')
          = one_checked (length views) i
        ∧ ∀ k, Components.layerChecks σ' !! k
               = if decide (k ∈ Components.volumeKeys view) then Some true
                 else (λ _, false) <$> Components.layerChecks σ !! k.
Proof.
  intros Hchecked Hparse Hlen Hview.
  pose proof (lookup_lt_Some _ _ _ Hview) as Hi.
  unfold DatasetPaperEvents.handleViewChange, DatasetPaperEvents.set_checked.
  rewrite Hchecked, Hparse, fmap_const_false, length_replicate, Hlen.
  destruct (Nat.ltb_spec i (length views)) as [_|]; [|lia].
  fold (one_checked (length views) i).
  unfold findIndex. rewrite findIndex_from_one_checked by done.
  rewrite Z.add_0_l, get_of_nat, Hview.
  set (new := foldl _ _ _).
  assert (Hnew : Components.layerChecks
                   {| Components.heap := Components.heap σ ++ [new];
                      Components.checkStates :=
                        {| Components.layerCheckState := length (Components.heap σ);
                           Components.viewCheckState := one_checked (length views) i |} |}
                 = new).
  { unfold Components.layerChecks. simpl.
    rewrite lookup_app_r by lia. by rewrite Nat.sub_diag. }
  eexists. split; [reflexivity|]. rewrite Hnew. simpl.
  split; [done|]. split; [done|]. split; [done|].
  intros k. subst new.
  rewrite (foldl_insert_lookup (λ _, true)). by rewrite lookup_fmap.
Qed.

Lemma handleViewChange_out_of_range event views σ :
  Components.target_checked event = true →
  length (Components.viewCheckState (Components.checkStates σ)) = length views →
  (∀ i, parseInt_index (Components.target_name event) = Some i → length views ≤ i) →
  is_Throw (DatasetPaperEvents.handleViewChange parseInt_index event views σ).
Proof.
  intros Hchecked Hlen Hfar.
  unfold DatasetPaperEvents.handleViewChange, DatasetPaperEvents.set_checked.
  rewrite Hchecked, fmap_const_false, length_replicate, Hlen.
  destruct (parseInt_index _) as [i|].
  - specialize (Hfar i eq_refl).
    destruct (Nat.ltb_spec i (length views)) as [|_]; [lia|].
    unfold findIndex. rewrite findIndex_from_past_end, Z.add_0_l.
    replace (length views + (i - length views)) with i by lia.
    rewrite get_of_nat, (lookup_ge_None_2 views i) by lia. by eexists.
  - unfold findIndex. rewrite findIndex_from_all_false. by eexists.
Qed.
End view_change.

(** X17: a view check box event that unchecks is ignored.  One that checks
    the box of a view of the list installs a state in which that view alone
    is checked and in which the layers checked are the volume keys of that
    view, every other layer box that was there being unchecked (a key of
    the view that names no earlier box gets a checked box of its own); one
    whose name denotes no view of the list throws and installs nothing. *)
Theorem X17_view_change {ViewData : Type}
    (parseInt_index : string → option nat)
    (event : Components.ChangeEvent)
    (views : list (Components.DatasetView ViewData)) (σ : Components.component) :
  length (Components.viewCheckState (Components.checkStates σ)) = length views →
  let outcome := DatasetPaperEvents.handleViewChange parseInt_index event views σ in
  (Components.target_checked event = false → outcome = Normal σ)
  ∧ (Components.target_checked event = true →
     ∀ i view,
       parseInt_index (Components.target_name event) = Some i →
       views !! i = Some view →
       ∃ σ', outcome = Normal σ'
             ∧ Components.viewCheckState (Components.checkStates σ')
               = one_checked (length views) i
             ∧ (∀ k, Components.layerChecks σ' !! k = Some true
                     ↔ k ∈ Components.volumeKeys view)
             ∧ (∀ k, Components.layerChecks σ' !! k = Some false
                     ↔ (k ∉ Components.volumeKeys view)
                       ∧ is_Some (Components.layerChecks σ !! k)))
  ∧ (Components.target_checked event = true →
     (∀ i, parseInt_index (Components.target_name event) = Some i → length views ≤ i) →
     is_Throw outcome).
Proof.
  intros Hlen outcome. subst outcome. split; [|split].
  - intros Hc. unfold DatasetPaperEvents.handleViewChange. by rewrite Hc.
  - intros Hc i view Hparse Hview.
    destruct (handleViewChange_in_range parseInt_index event views σ i view
                Hc Hparse Hlen Hview) as (σ' & Hσ' & _ & _ & Hvcs & Hmap).
    exists σ'. split; [done|]. split; [done|]. split.
    + intros k. rewrite Hmap. case_decide as Hk; [done|].
      destruct (Components.layerChecks σ !! k); simpl; split; done.
    + intros k. rewrite Hmap. case_decide as Hk.
      * split; [discriminate | intros [? _]; done].
      * destruct (Components.layerChecks σ !! k) as [b|]; simpl.
        -- split; [intros _; split; [done | by exists b] | done].
        -- split; [discriminate | intros [_ [? ?]]; done].
  - intros Hc Hfar. by apply handleViewChange_out_of_range.
Qed.

Lemma X17_view_change_witness :
  let outcome := DatasetPaperEvents.handleViewChange digit_index check_second_view
                   (Components.views paper_dataset_two_views) paper_state_two_views in
  (Components.target_checked check_second_view = false →
   outcome = Normal paper_state_two_views)
  ∧ (Components.target_checked check_second_view = true →
     ∀ i view,
       digit_index (Components.target_name check_second_view) = Some i →
       Components.views paper_dataset_two_views !! i = Some view →
       ∃ σ', outcome = Normal σ'
             ∧ Components.viewCheckState (Components.checkStates σ')
               = one_checked (length (Components.views paper_dataset_two_views)) i
             ∧ (∀ k, Components.layerChecks σ' !! k = Some true
                     ↔ k ∈ Components.volumeKeys view)
             ∧ (∀ k, Components.layerChecks σ' !! k = Some false
                     ↔ (k ∉ Components.volumeKeys view)
                       ∧ is_Some (Components.layerChecks paper_state_two_views !! k)))
  ∧ (Components.target_checked check_second_view = true →
     (∀ i, digit_index (Components.target_name check_second_view) = Some i →
           length (Components.views paper_dataset_two_views) ≤ i) →
     is_Throw outcome).
Proof.
  apply (X17_view_change digit_index check_second_view
           (Components.views paper_dataset_two_views) paper_state_two_views).
  reflexivity.
Defined.

Example view_change_to_second_view :
  ∃ σ', DatasetPaperEvents.handleViewChange digit_index check_second_view
          (Components.views paper_dataset_two_views) paper_state_two_views = Normal σ'
        ∧ Components.viewCheckState (Components.checkStates σ') = [false; true]
        ∧ Components.layerChecks σ'
          = {[ "em" := false; "mito_seg" := false; "er_seg" := true ]}.
Proof.
  eexists. split; [reflexivity|]. split; [reflexivity|]. vm_compute. reflexivity.
Qed.

Lemma selectedView_one_checked {Volume ViewData : Type}
    (dataset : Components.Dataset Volume ViewData) (σ : Components.component) (i : nat) :
  i < length (Components.views dataset) →
  Components.viewCheckState (Components.checkStates σ)
  = one_checked (length (Components.views dataset)) i →
  DatasetPaperEvents.selectedView dataset σ = Components.views dataset !! i.
Proof.
  intros Hi Hvcs. unfold DatasetPaperEvents.selectedView, findIndex.
  by rewrite Hvcs, findIndex_from_one_checked, Z.add_0_l, get_of_nat.
Qed.

(** X18: for a dataset that has a view, in every state that the component
    reaches from the first render by events of the layer and view check
    boxes, exactly one view check box is checked, the view handed to the
    link component is the view at that position, the state refers to a map
    of the heap, and every volume key of the dataset has a layer check
    box. *)
Theorem X18_reached_states_select_one_view {Volume ViewData : Type}
    (parseInt_index : string → option nat)
    (dataset : Components.Dataset Volume ViewData) (σ : Components.component) :
  Components.views dataset ≠ [] →
  DatasetPaperEvents.reaches parseInt_index dataset σ →
  (∃ i view,
      Components.views dataset !! i = Some view
      ∧ Components.viewCheckState (Components.checkStates σ)
        = one_checked (length (Components.views dataset)) i
      ∧ DatasetPaperEvents.selectedView dataset σ = Some view)
  ∧ Components.layerCheckState (Components.checkStates σ) < length (Components.heap σ)
  ∧ ∀ k, k ∈ Map_keys (Components.volumes dataset) →
         is_Some (Components.layerChecks σ !! k).
Proof.
  intros Hsome Hreaches.
  induction Hreaches as [σ Hinit|σ event Hreach IH|σ event σ' Hreach IH Hchange].
  - destruct (Components.views dataset) as [|first rest] eqn:Hviews; [done|].
    destruct (initialState_first dataset first rest Hviews)
      as (σ0 & Hσ0 & Hvalid & Hvcs & Hmap).
    rewrite Hσ0 in Hinit. injection Hinit as <-. rewrite Hviews in Hvcs.
    split; [|split; [done|]].
    + exists 0, first. split; [done|]. split; [done|].
      rewrite (selectedView_one_checked dataset σ0 0); rewrite Hviews; simpl;
        [done | lia | done].
    + intros k Hk. rewrite Hmap. by rewrite decide_True.
  - destruct IH as ((i & view & Hview & Hvcs & Hsel) & Hvalid & Hdom).
    assert (Hsame : Components.viewCheckState
                      (Components.checkStates (Components.handleLayerChange event σ))
                    = Components.viewCheckState (Components.checkStates σ)).
    { unfold Components.handleLayerChange. by destruct (negb _). }
    split; [|split].
    + exists i, view. split; [done|]. split; [by rewrite Hsame|].
      unfold DatasetPaperEvents.selectedView in *. by rewrite Hsame.
    + unfold Components.handleLayerChange. destruct (negb _); simpl;
        rewrite ?length_app, ?length_insert; simpl; lia.
    + intros k Hk. rewrite handleLayerChange_writes_state_map by done.
      rewrite lookup_insert. case_decide; [by eexists | by apply Hdom].
  - destruct IH as ((i & view & Hview & Hvcs & Hsel) & Hvalid & Hdom).
    assert (Hlen : length (Components.viewCheckState (Components.checkStates σ))
                   = length (Components.views dataset)).
    { rewrite Hvcs. unfold one_checked. by rewrite length_insert, length_replicate. }
    destruct (Components.target_checked event) eqn:Hchecked.
    2:{ unfold DatasetPaperEvents.handleViewChange in Hchange.
        rewrite Hchecked in Hchange. injection Hchange as <-.
        split; [by exists i, view | done]. }
    destruct (parseInt_index (Components.target_name event)) as [j|] eqn:Hparse.
    2:{ destruct (handleViewChange_out_of_range parseInt_index event
                    (Components.views dataset) σ Hchecked Hlen) as [e He].
        - intros j Hj. congruence.
        - congruence. }
    destruct (Components.views dataset !! j) as [view'|] eqn:Hview'.
    2:{ destruct (handleViewChange_out_of_range parseInt_index event
                    (Components.views dataset) σ Hchecked Hlen) as [e He].
        - intros j' Hj'. assert (j' = j) as -> by congruence.
          by apply lookup_ge_None.
        - congruence. }
    destruct (handleViewChange_in_range parseInt_index event
                (Components.views dataset) σ j view' Hchecked Hparse Hlen Hview')
      as (σ'' & Hσ'' & Hheap & Href & Hvcs' & Hmap).
    rewrite Hσ'' in Hchange. injection Hchange as <-.
    split; [|split].
    + exists j, view'. split; [done|]. split; [done|].
      rewrite (selectedView_one_checked dataset σ'' j); [done| |done].
      by apply lookup_lt_Some in Hview'.
    + rewrite Href, Hheap, length_app. simpl. lia.
    + intros k Hk. rewrite Hmap. case_decide; [by eexists|].
      destruct (Hdom k Hk) as [b ->]. by eexists.
Qed.

Lemma X18_reached_states_select_one_view_witness :
  (∃ i view,
      Components.views paper_dataset_two_views !! i = Some view
      ∧ Components.viewCheckState (Components.checkStates paper_state_two_views)
        = one_checked (length (Components.views paper_dataset_two_views)) i
      ∧ DatasetPaperEvents.selectedView paper_dataset_two_views paper_state_two_views
        = Some view)
  ∧ Components.layerCheckState (Components.checkStates paper_state_two_views)
    < length (Components.heap paper_state_two_views)
  ∧ ∀ k, k ∈ Map_keys (Components.volumes paper_dataset_two_views) →
         is_Some (Components.layerChecks paper_state_two_views !! k).
Proof.
  apply (X18_reached_states_select_one_view digit_index paper_dataset_two_views
           paper_state_two_views).
  - discriminate.
  - apply DatasetPaperEvents.reaches_init. vm_compute. reflexivity.
Defined.

(** X19: after the selection of a view, the link component is handed that
    view and links to its compilation with the volume keys of the view that
    are volumes of the dataset, in the order of the dataset; for a view
    that lists no volume of the dataset it shows the refusal. *)
Theorem X19_link_after_view_change {Volume ViewData : Type}
    (parseInt_index : string → option nat)
    (dataset : Components.Dataset Volume ViewData)
    (event : Components.ChangeEvent) (σ : Components.component)
    (appState : Components.AppState)
    (i : nat) (view : Components.DatasetView ViewData) :
  Components.target_checked event = true →
  parseInt_index (Components.target_name event) = Some i →
  Components.views dataset !! i = Some view →
  length (Components.viewCheckState (Components.checkStates σ))
  = length (Components.views dataset) →
  ∃ σ', DatasetPaperEvents.handleViewChange parseInt_index event
          (Components.views dataset) σ = Normal σ'
        ∧ DatasetPaperEvents.selectedView dataset σ' = Some view
        ∧ Components.NeuroglancerLink dataset view (Components.layerChecks σ') appState
          = match filter (λ k, k ∈ Components.volumeKeys view)
                         (Map_keys (Components.volumes dataset)) with
            | [] => Components.NoLayersSelected
            | keys =>
                Components.ViewButton
                  (Components.neuroglancerAddress appState
                     +:+ Components.makeNeuroglancerViewerState dataset
                           {| Components.view_data := Components.view_data view;
                              Components.volumeKeys := keys |})
                  (negb (Components.webGL2Enabled appState))
            end.
Proof.
  intros Hchecked Hparse Hview Hlen.
  destruct (handleViewChange_in_range parseInt_index event
              (Components.views dataset) σ i view Hchecked Hparse Hlen Hview)
    as (σ' & Hσ' & _ & _ & Hvcs & Hmap).
  exists σ'. split; [done|]. split.
  - rewrite (selectedView_one_checked dataset σ' i); [done| |done].
    by apply lookup_lt_Some in Hview.
  - unfold Components.NeuroglancerLink. simpl. rewrite checked_keys_filter. simpl.
    rewrite (list_filter_iff (λ k, Components.layerChecks σ' !! k = Some true)
                             (λ k, k ∈ Components.volumeKeys view)).
    + by destruct (filter _ _).
    + intros k. rewrite Hmap. case_decide; [done|].
      destruct (Components.layerChecks σ !! k); simpl; split; done.
Qed.

Lemma X19_link_after_view_change_witness :
  ∃ σ', DatasetPaperEvents.handleViewChange digit_index check_second_view
          (Components.views paper_dataset_two_views) paper_state_two_views = Normal σ'
        ∧ DatasetPaperEvents.selectedView paper_dataset_two_views σ'
          = Some {| Components.view_data := tt; Components.volumeKeys := ["er_seg"] |}
        ∧ Components.NeuroglancerLink paper_dataset_two_views
            {| Components.view_data := tt; Components.volumeKeys := ["er_seg"] |}
            (Components.layerChecks σ') paper_appState
          = match filter (λ k, k ∈ ["er_seg"])
                         (Map_keys (Components.volumes paper_dataset_two_views)) with
            | [] => Components.NoLayersSelected
            | keys =>
                Components.ViewButton
                  (Components.neuroglancerAddress paper_appState
                     +:+ Components.makeNeuroglancerViewerState paper_dataset_two_views
                           {| Components.view_data := tt;
                              Components.volumeKeys := keys |})
                  (negb (Components.webGL2Enabled paper_appState))
            end.
Proof.
  apply (X19_link_after_view_change digit_index paper_dataset_two_views
           check_second_view paper_state_two_views paper_appState 1
           {| Components.view_data := tt; Components.volumeKeys := ["er_seg"] |});
    reflexivity.
Defined.

Example second_view_shows_the_refusal :
  ∃ σ', DatasetPaperEvents.handleViewChange digit_index check_second_view
          (Components.views paper_dataset_two_views) paper_state_two_views = Normal σ'
        ∧ Components.NeuroglancerLink paper_dataset_two_views
            {| Components.view_data := tt; Components.volumeKeys := ["er_seg"] |}
            (Components.layerChecks σ') paper_appState
          = Components.NoLayersSelected.
Proof. eexists. split; [reflexivity|]. vm_compute. reflexivity. Qed.

(** *** The boxes of the selection map

    The selection map has boxes for volumes of the dataset only: in the
    first state, after a layer event of the box of a volume, and after the
    selection of a view as long as the views list volumes of the dataset
    only.  In such states every checked entry is a layer of the dataset. *)

Lemma layer_boxes_first_state {Volume ViewData : Type}
    (dataset : Components.Dataset Volume ViewData) (σ : Components.component) :
  Components.initialState dataset = Normal σ →
  ∀ k, is_Some (Components.layerChecks σ !! k) →
       k ∈ Map_keys (Components.volumes dataset).
Proof.
  unfold Components.initialState, Components.layerChecks.
  destruct (Components.views dataset) as [|first rest].
  - destruct (Map_keys (Components.volumes dataset)) as [|key keys]; [|done].
    intros [= <-] k. simpl. rewrite lookup_empty. by intros [v Hv].
  - intros [= <-] k. simpl. rewrite foldl_insert_lookup.
    case_decide; [done|]. rewrite lookup_empty. by intros [v Hv].
Qed.

Lemma layer_boxes_layer_change {Volume ViewData : Type}
    (dataset : Components.Dataset Volume ViewData)
    (σ : Components.component) (event : Components.ChangeEvent) :
  Components.layerCheckState (Components.checkStates σ) < length (Components.heap σ) →
  (∀ k, is_Some (Components.layerChecks σ !! k) →
        k ∈ Map_keys (Components.volumes dataset)) →
  Components.target_name event ∈ Map_keys (Components.volumes dataset) →
  (∀ k, <[Components.target_name event := Components.target_checked event]>
          (Components.layerChecks σ) !! k = Some true →
        k ∈ Map_keys (Components.volumes dataset))
  ∧ ∀ k, is_Some (Components.layerChecks (Components.handleLayerChange event σ) !! k) →
         k ∈ Map_keys (Components.volumes dataset).
Proof.
  intros Hvalid Hboxes Hname.
  assert (Hupdated : ∀ k, is_Some (<[Components.target_name event
                                     := Components.target_checked event]>
                                     (Components.layerChecks σ) !! k) →
                          k ∈ Map_keys (Components.volumes dataset)).
  { intros k. destruct (decide (Components.target_name event = k)) as [<-|Hne]; [done|].
    rewrite lookup_insert_ne by done. apply Hboxes. }
  split.
  - intros k Hk. apply Hupdated. by rewrite Hk.
  - intros k. rewrite handleLayerChange_writes_state_map by done. apply Hupdated.
Qed.

Lemma layer_boxes_view_change {Volume ViewData : Type}
    (parseInt_index : string → option nat)
    (dataset : Components.Dataset Volume ViewData)
    (σ σ' : Components.component) (event : Components.ChangeEvent) :
  DatasetPaperEvents.handleViewChange parseInt_index event
    (Components.views dataset) σ = Normal σ' →
  (∀ view k, view ∈ Components.views dataset → k ∈ Components.volumeKeys view →
             k ∈ Map_keys (Components.volumes dataset)) →
  (∀ k, is_Some (Components.layerChecks σ !! k) →
        k ∈ Map_keys (Components.volumes dataset)) →
  ∀ k, is_Some (Components.layerChecks σ' !! k) →
       k ∈ Map_keys (Components.volumes dataset).
Proof.
  unfold DatasetPaperEvents.handleViewChange. intros Hchange Hviews Hboxes.
  destruct (Components.target_checked event); [|by injection Hchange as <-].
  destruct (get _ _) as [view|] eqn:Hview; [|done]. injection Hchange as <-.
  assert (Hin : view ∈ Components.views dataset).
  { unfold get in Hview. destruct (_ <? 0)%Z; [done|].
    by eapply list_elem_of_lookup_2. }
  intros k. unfold Components.layerChecks at 1. simpl.
  rewrite lookup_app_r by lia. rewrite Nat.sub_diag. simpl.
  rewrite (foldl_insert_lookup (λ _, true)). case_decide as Hk.
  - intros _. by apply (Hviews view k).
  - rewrite lookup_fmap. intros [v Hv]. apply Hboxes.
    destruct (Components.layerChecks σ !! k); [by eexists | done].
Qed.

(** After the selection of a view that lists a key that is no volume of
    the dataset, the entry of that key counts for the guard of the layer
    check boxes: the events that check and then uncheck the image install
    a state in which no layer of the dataset is checked, and the link shows
    the refusal. *)
Example layer_events_after_a_foreign_view :
  ∃ σ1,
    DatasetPaperEvents.handleViewChange digit_index check_second_view
      (Components.views paper_dataset_two_views) paper_state_two_views = Normal σ1
    ∧ let σ2 := Components.handleLayerChange check_em σ1 in
      let σ3 := Components.handleLayerChange uncheck_em σ2 in
      DatasetPaperEvents.reaches digit_index paper_dataset_two_views σ3
      ∧ Components.layerCheckState (Components.checkStates σ3)
        ≠ Components.layerCheckState (Components.checkStates σ2)
      ∧ Components.layerChecks σ3
        = {[ "em" := false; "mito_seg" := false; "er_seg" := true ]}
      ∧ ¬ Components.some_layer_checked paper_dataset_two_views σ3
      ∧ Components.NeuroglancerLink paper_dataset_two_views
          {| Components.view_data := tt; Components.volumeKeys := ["er_seg"] |}
          (Components.layerChecks σ3) paper_appState
        = Components.NoLayersSelected.
Proof.
  eexists. split; [reflexivity|]. split; [|split; [|split; [|split]]].
  - do 2 apply DatasetPaperEvents.reaches_layer_change.
    apply DatasetPaperEvents.reaches_view_change
      with (σ := paper_state_two_views) (event := check_second_view); [|reflexivity].
    apply DatasetPaperEvents.reaches_init. reflexivity.
  - vm_compute. lia.
  - vm_compute. reflexivity.
  - intros (k & Hin & Hk).
    apply elem_of_cons in Hin as [->|Hin]; [by vm_compute in Hk|].
    apply elem_of_cons in Hin as [->|Hin]; [by vm_compute in Hk|].
    by apply elem_of_nil in Hin.
  - vm_compute. reflexivity.
Qed.

(** Without volumes the first view is not read: a dataset without volumes
    and without views has a first state, with no check box at all. *)
Example first_state_without_volumes :
  Components.initialState paper_dataset_empty
  = Normal {| Components.heap := [∅];
              Components.checkStates := {| Components.layerCheckState := 0;
                                           Components.viewCheckState := [] |} |}.
Proof. reflexivity. Qed.

(** ** The pages: [Home] and [DatasetDetails] *)

Lemma Map_keys_set {V} (k k' : string) (v : V) (m : Map V) :
  k' ∈ Map_keys (Map_set k v m) ↔ k' = k ∨ k' ∈ Map_keys m.
Proof.
  unfold Map_keys. induction m as [|[k0 v0] m IH]; simpl.
  - rewrite list_elem_of_singleton. split; [by left | intros [H|H]; [done|]].
    by apply elem_of_nil in H.
  - destruct (String.eqb_spec k0 k) as [->|Hne]; simpl.
    + rewrite !elem_of_cons. tauto.
    + rewrite !elem_of_cons, IH. tauto.
Qed.

Lemma Map_keys_foldl {V} (acc l : list (string * V)) (k : string) :
  k ∈ Map_keys (foldl (λ m kv, Map_set kv.1 kv.2 m) acc l)
  ↔ k ∈ Map_keys acc ∨ k ∈ l.*1.
Proof.
  revert acc. induction l as [|[k0 v0] l IH]; intros acc; simpl.
  - split; [by left | intros [H|H]; [done|]]. by apply elem_of_nil in H.
  - rewrite IH, Map_keys_set, elem_of_cons. tauto.
Qed.

Lemma Map_keys_new_Map {V} (l : list (string * V)) (k : string) :
  k ∈ Map_keys (new_Map l) ↔ k ∈ l.*1.
Proof.
  unfold new_Map. rewrite Map_keys_foldl. split; [intros [H|H]; [|done] | by right].
  by apply elem_of_nil in H.
Qed.

Lemma Promise_all_none_rejected {A} (ps : list (completion A)) :
  Forall (λ p, ¬ is_Throw p) ps → ∃ l, ps = Normal <$> l ∧ Promise_all ps = Normal l.
Proof.
  induction 1 as [|p ps Hp _ (l & -> & IH)].
  - by exists [].
  - destruct p as [a|e]; [|destruct Hp; by exists e].
    exists (a :: l). split; [done|]. rewrite <- fmap_cons. apply Promise_all_fulfilled.
Qed.

(** The entries of a catalog that is loaded carry the keys of the index. *)
Lemma makeDatasets_keys (digits : float → string) (API : GithubDatasetAPI)
    (index : Index) :
  api_index API = Normal index →
  (∀ key, key ∈ Object_keys (datasets index) → ¬ is_Throw (api_get API key)) →
  ∃ m, makeDatasets digits API = Normal m
       ∧ ∀ key, key ∈ Map_keys m ↔ key ∈ Object_keys (datasets index).
Proof.
  intros Hindex Hget. unfold makeDatasets. rewrite Hindex.
  set (keys := Object_keys (datasets index)) in *. clearbody keys.
  set (entry := λ dataset_key : string, bind (api_get API dataset_key) _).
  destruct (Promise_all_none_rejected (entry <$> keys)) as (l & Hl & ->).
  { apply Forall_fmap, Forall_forall. intros key Hkey [e He]. subst entry. simpl in He.
    destruct (api_get API key) as [r|e'] eqn:Hr; [done|].
    apply (Hget key Hkey). by exists e'. }
  simpl. eexists. split; [reflexivity|]. intros key. rewrite Map_keys_new_Map.
  assert (l.*1 = keys) as ->; [|done].
  clear Hget. revert l Hl. induction keys as [|k keys IH]; intros [|[k' d] l] Hl;
    try done.
  rewrite !fmap_cons in Hl. injection Hl as Hk Hl. rewrite fmap_cons.
  f_equal; [|by apply IH].
  subst entry. simpl in Hk. destruct (api_get API k); [|done]. simpl in Hk. by injection Hk as <- _.
Qed.

(** X20: a catalog load that is rejected, as it is when one entry of the
    index cannot be fetched, leaves the application loading for good: the
    only state [Home] installs is the loading one, and every details page
    shows the skeletons, whatever dataset it asks for. *)
Theorem X20_failed_entry_leaves_the_skeletons
    (digits : float → string) (API : GithubDatasetAPI) (index : Index)
    (key : string) (appState : Pages.AppState) (url slug : string) :
  api_index API = Normal index →
  key ∈ Object_keys (datasets index) →
  is_Throw (api_get API key) →
  Pages.Home_effect (makeDatasets digits API) appState
  = [ {| Pages.datasets := Pages.datasets appState;
         Pages.datasetsLoading := true;
         Pages.metadataEndpoint := Pages.metadataEndpoint appState |} ]
  ∧ Pages.DatasetDetails url slug (Pages.Home_final (makeDatasets digits API) appState)
    = Pages.Skeletons.
Proof.
  intros Hindex Hkey Hget.
  destruct (makeDatasets_entry_failure digits API index key Hindex Hkey Hget) as [e He].
  unfold Pages.Home_final, Pages.Home_effect. rewrite He. done.
Qed.

Lemma X20_failed_entry_leaves_the_skeletons_witness :
  Pages.Home_effect (makeDatasets plain_digits api_one_failing) home_appState
  = [ {| Pages.datasets := Pages.datasets home_appState;
         Pages.datasetsLoading := true;
         Pages.metadataEndpoint := Pages.metadataEndpoint home_appState |} ]
  ∧ Pages.DatasetDetails "/datasets/jrc_1" "jrc_1"
      (Pages.Home_final (makeDatasets plain_digits api_one_failing) home_appState)
    = Pages.Skeletons.
Proof.
  apply (X20_failed_entry_leaves_the_skeletons plain_digits api_one_failing
           {| datasets := [("jrc_1", "jrc_1/manifest.json");
                           ("jrc_2", "jrc_2/manifest.json")] |}
           "jrc_2" home_appState "/datasets/jrc_1" "jrc_1").
  - reflexivity.
  - right. left.
  - by exists (FetchError "404").
Defined.

(** X21: when the catalog load completes, a details page shows the dataset
    paper for the keys of the index and the 404 message for every other
    key; after a failure to fetch the index itself the load completes with
    an empty catalog, and every details page shows the 404 message. *)
Theorem X21_details_after_load
    (digits : float → string) (API : GithubDatasetAPI)
    (appState : Pages.AppState) (url slug : string) :
  (is_Throw (api_index API) →
   Pages.DatasetDetails url slug (Pages.Home_final (makeDatasets digits API) appState)
   = Pages.Error404 slug)
  ∧ (∀ index, api_index API = Normal index →
       (∀ key, key ∈ Object_keys (datasets index) → ¬ is_Throw (api_get API key)) →
       Pages.DatasetDetails url slug
         (Pages.Home_final (makeDatasets digits API) appState)
       = if bool_decide (slug ∈ Object_keys (datasets index))
         then Pages.Paper slug url else Pages.Error404 slug).
Proof.
  split.
  - intros [e He]. by rewrite (makeDatasets_index_failure digits API e He).
  - intros index Hindex Hget.
    destruct (makeDatasets_keys digits API index Hindex Hget) as (m & -> & Hkeys).
    unfold Pages.Home_final, Pages.Home_effect, Pages.DatasetDetails. simpl.
    destruct (Map_get slug m) as [d|] eqn:Hslug.
    + rewrite bool_decide_eq_true_2; [done|]. apply Hkeys.
      destruct (decide (slug ∈ Map_keys m)) as [|Hn]; [done|].
      apply Map_get_None in Hn. congruence.
    + rewrite bool_decide_eq_false_2; [done|]. rewrite <- Hkeys.
      by apply Map_get_None.
Qed.

Example details_of_a_loaded_catalog :
  Pages.DatasetDetails "/datasets/jrc_1" "jrc_1"
    (Pages.Home_final (makeDatasets plain_digits api_first_only) home_appState)
  = Pages.Paper "jrc_1" "/datasets/jrc_1"
  ∧ Pages.DatasetDetails "/datasets/jrc_2" "jrc_2"
      (Pages.Home_final (makeDatasets plain_digits api_first_only) home_appState)
    = Pages.Error404 "jrc_2".
Proof. split; vm_compute; reflexivity. Qed.

(** ** The earlier revision of the dataset classes *)

Lemma reorder_lookup {A} (axes : list string) (arg : list A) (k : nat) :
  Legacy.reorder axes arg !! k
  = (λ b, Legacy.at_index arg (Legacy.axisOrder b)) <$> axes !! k.
Proof.
  unfold Legacy.reorder. rewrite <- list_fmap_compose. by rewrite list_lookup_fmap.
Qed.

(** X22: [reorder] puts at position [k] the entry of its argument that is
    stored at the viewer position of the [k]th axis.  This brings the
    entry of every axis to the viewer position of that axis exactly when
    the axis order is its own inverse, as z, y, x is; for the other orders
    the entries come out misplaced. *)
Theorem X22_reorder_right_iff_self_inverse {A : Type}
    (axes : list string) (arg : list A) :
  length arg = length axes →
  NoDup arg →
  (∀ a, a ∈ axes → ∃ k, Legacy.axisOrder a = Some (Z.of_nat k) ∧ k < length axes) →
  (∀ j a k, axes !! j = Some a → Legacy.axisOrder a = Some (Z.of_nat k) →
            Legacy.reorder axes arg !! k = Some (arg !! j))
  ↔ (∀ j a k, axes !! j = Some a → Legacy.axisOrder a = Some (Z.of_nat k) →
              ∃ b, axes !! k = Some b ∧ Legacy.axisOrder b = Some (Z.of_nat j)).
Proof.
  intros Hlen Hnd Hlabels. split.
  - intros Hright j a k Hj Ha.
    specialize (Hright j a k Hj Ha). rewrite reorder_lookup in Hright.
    destruct (axes !! k) as [b|] eqn:Hk; [|done]. exists b. split; [done|].
    simpl in Hright. injection Hright as Hright.
    destruct (Hlabels b) as (m & Hb & Hm); [by eapply list_elem_of_lookup_2|].
    rewrite Hb in Hright |- *. simpl in Hright. rewrite get_of_nat in Hright.
    destruct (lookup_lt_is_Some_2 arg j) as [v Hv].
    { rewrite Hlen. by eapply lookup_lt_Some. }
    rewrite Hv in Hright. by rewrite (NoDup_lookup arg m j v Hnd Hright Hv).
  - intros Hinv j a k Hj Ha.
    destruct (Hinv j a k Hj Ha) as (b & Hk & Hb).
    rewrite reorder_lookup, Hk. simpl. rewrite Hb. simpl. by rewrite get_of_nat.
Qed.

Lemma X22_reorder_right_iff_self_inverse_witness :
  (∀ j a k, ["z"; "y"; "x"] !! j = Some a → Legacy.axisOrder a = Some (Z.of_nat k) →
            Legacy.reorder ["z"; "y"; "x"] ["4"; "8"; "16"] !! k
            = Some (["4"; "8"; "16"] !! j))
  ↔ (∀ j a k, ["z"; "y"; "x"] !! j = Some a → Legacy.axisOrder a = Some (Z.of_nat k) →
              ∃ b, ["z"; "y"; "x"] !! k = Some b
                   ∧ Legacy.axisOrder b = Some (Z.of_nat j)).
Proof.
  apply (X22_reorder_right_iff_self_inverse ["z"; "y"; "x"] ["4"; "8"; "16"]).
  - reflexivity.
  - apply (bool_decide_unpack _). vm_compute. reflexivity.
  - intros a Ha.
    apply elem_of_cons in Ha as [->|Ha]; [exists 2; split; [reflexivity | simpl; lia]|].
    apply elem_of_cons in Ha as [->|Ha]; [exists 1; split; [reflexivity | simpl; lia]|].
    apply elem_of_cons in Ha as [->|Ha]; [exists 0; split; [reflexivity | simpl; lia]|].
    by apply elem_of_nil in Ha.
Defined.

(** With the axes in the order y, z, x the entry of x lands at the viewer
    position of z, that of y at the position of x. *)
Example reorder_of_a_cyclic_order :
  Legacy.reorder ["y"; "z"; "x"] ["8"; "16"; "4"] = [Some "16"; Some "4"; Some "8"].
Proof. reflexivity. Qed.

Lemma reorder_self_inverse {A} (axes : list string) (arg : list A) (j k : nat) (a : string) :
  (∀ j a k, axes !! j = Some a → Legacy.axisOrder a = Some (Z.of_nat k) →
            ∃ b, axes !! k = Some b ∧ Legacy.axisOrder b = Some (Z.of_nat j)) →
  axes !! j = Some a → Legacy.axisOrder a = Some (Z.of_nat k) →
  mjoin (get (Legacy.reorder axes arg) (Z.of_nat k)) = arg !! j.
Proof.
  intros Hinv Hj Ha. destruct (Hinv j a k Hj Ha) as (b & Hk & Hb).
  rewrite get_of_nat, reorder_lookup, Hk. simpl.
  rewrite Hb. simpl. by rewrite get_of_nat.
Qed.

(** X23: the layer of a volume made from its metadata is named by the
    description of the volume, not by its name, and its source is the store
    and the resolved path.  When the axis order of the metadata is its own
    inverse, the input dimension of each axis is its scale times 1e-9, in
    metres and with the sign it has, and the last column of the matrix
    holds its translation. *)
Theorem X23_layer_of_volume_metadata
    (digits : float → string) (resolveURL : string → string → completion string)
    (outerPath innerPath absPath : string) (volumeMeta : Legacy.VolumeMeta) :
  resolveURL outerPath innerPath = Normal absPath →
  (∀ j a k, axes (Legacy.vm_transform volumeMeta) !! j = Some a →
            Legacy.axisOrder a = Some (Z.of_nat k) →
            ∃ b, axes (Legacy.vm_transform volumeMeta) !! k = Some b
                 ∧ Legacy.axisOrder b = Some (Z.of_nat j)) →
  ∃ volume,
    Legacy.fromVolumeMeta resolveURL outerPath innerPath volumeMeta = Normal volume
    ∧ Legacy.layer_name (Legacy.toLayer digits volume) = Legacy.vm_description volumeMeta
    ∧ Legacy.src_url (Legacy.layer_source (Legacy.toLayer digits volume))
      = Legacy.vm_store volumeMeta +:+ "://" +:+ absPath
    ∧ ∀ j a k,
        axes (Legacy.vm_transform volumeMeta) !! j = Some a →
        Legacy.axisOrder a = Some (Z.of_nat k) →
        dimension (inputDimensions_of
                     (Legacy.src_transform
                        (Legacy.layer_source (Legacy.toLayer digits volume)))) k
        = ((1e-9 * ToNumber (scale (Legacy.vm_transform volumeMeta) !! j))%float, "m")
        ∧ ∃ row, matrix (Legacy.src_transform
                           (Legacy.layer_source (Legacy.toLayer digits volume))) !! k
                 = Some row
                 ∧ row !! 3 = Some (translate (Legacy.vm_transform volumeMeta) !! j).
Proof.
  intros Hurl Hinv. unfold Legacy.fromVolumeMeta. rewrite Hurl. simpl.
  eexists. split; [reflexivity|]. split; [done|]. split; [done|].
  intros j a k Hj Ha.
  pose proof (reorder_self_inverse _ (scale (Legacy.vm_transform volumeMeta))
                j k a Hinv Hj Ha) as Hscale.
  pose proof (reorder_self_inverse _ (translate (Legacy.vm_transform volumeMeta))
                j k a Hinv Hj Ha) as Htranslate.
  unfold Legacy.axisOrder in Ha.
  destruct (String.eqb a "x");
    [|destruct (String.eqb a "y"); [|destruct (String.eqb a "z"); [|done]]];
    injection Ha as Ha.
  - assert (k = 0) as -> by lia.
    change (Z.of_nat 0) with 0%Z in Hscale, Htranslate.
    unfold Legacy.toLayer, Legacy.entry. cbn [Legacy.layer_source Legacy.src_transform inputDimensions_of matrix dimension cs_x cs_y cs_z Legacy.gridSpacing Legacy.origin].
    rewrite Hscale. split; [done|].
    eexists. split; [reflexivity|]. cbn [lookup list_lookup]. by rewrite Htranslate.
  - assert (k = 1) as -> by lia.
    change (Z.of_nat 1) with 1%Z in Hscale, Htranslate.
    unfold Legacy.toLayer, Legacy.entry. cbn [Legacy.layer_source Legacy.src_transform inputDimensions_of matrix dimension cs_x cs_y cs_z Legacy.gridSpacing Legacy.origin].
    rewrite Hscale. split; [done|].
    eexists. split; [reflexivity|]. cbn [lookup list_lookup]. by rewrite Htranslate.
  - assert (k = 2) as -> by lia.
    change (Z.of_nat 2) with 2%Z in Hscale, Htranslate.
    unfold Legacy.toLayer, Legacy.entry. cbn [Legacy.layer_source Legacy.src_transform inputDimensions_of matrix dimension cs_x cs_y cs_z Legacy.gridSpacing Legacy.origin].
    rewrite Hscale. split; [done|].
    eexists. split; [reflexivity|]. cbn [lookup list_lookup]. by rewrite Htranslate.
Qed.

Lemma zyx_self_inverse (j : nat) (a : string) (k : nat) :
  ["z"; "y"; "x"] !! j = Some a → Legacy.axisOrder a = Some (Z.of_nat k) →
  ∃ b, ["z"; "y"; "x"] !! k = Some b ∧ Legacy.axisOrder b = Some (Z.of_nat j).
Proof.
  intros Hj Ha. destruct j as [|[|[|j]]]; try done;
    injection Hj as <-; injection Ha as Ha.
  - assert (k = 2) as -> by lia. by exists "x".
  - assert (k = 1) as -> by lia. by exists "y".
  - assert (k = 0) as -> by lia. by exists "z".
Qed.

Lemma X23_layer_of_volume_metadata_witness :
  ∃ volume,
    Legacy.fromVolumeMeta legacy_resolveURL "https://bucket.example/jrc_1" "em"
      legacy_meta = Normal volume
    ∧ Legacy.layer_name (Legacy.toLayer plain_digits volume) = "FIB-SEM data"
    ∧ Legacy.src_url (Legacy.layer_source (Legacy.toLayer plain_digits volume))
      = "n5" +:+ "://" +:+ "https://bucket.example/jrc_1/em"
    ∧ ∀ j a k,
        ["z"; "y"; "x"] !! j = Some a →
        Legacy.axisOrder a = Some (Z.of_nat k) →
        dimension (inputDimensions_of
                     (Legacy.src_transform
                        (Legacy.layer_source (Legacy.toLayer plain_digits volume)))) k
        = ((1e-9 * ToNumber ([4; 8; 16]%float !! j))%float, "m")
        ∧ ∃ row, matrix (Legacy.src_transform
                           (Legacy.layer_source (Legacy.toLayer plain_digits volume))) !! k
                 = Some row
                 ∧ row !! 3 = Some ([10; 20; 30]%float !! j).
Proof.
  apply (X23_layer_of_volume_metadata plain_digits legacy_resolveURL
           "https://bucket.example/jrc_1" "em" "https://bucket.example/jrc_1/em"
           legacy_meta).
  - reflexivity.
  - exact zyx_self_inverse.
Defined.

Lemma includes_elem_of (l : list string) (x : string) : includes l x = true ↔ x ∈ l.
Proof.
  unfold includes. induction l as [|y l IH]; simpl.
  - split; [done | intros H; by apply elem_of_nil in H].
  - rewrite orb_true_iff, IH, elem_of_cons.
    destruct (String.eqb_spec x y); split; intros [?|?]; auto; done.
Qed.

Lemma legacy_makeShader_segmentation_nonempty (digits : float → string)
    (shaderArgs : Legacy.DisplaySettings) :
  Legacy.makeShader digits shaderArgs "segmentation" ≠ EmptyString.
Proof. unfold Legacy.makeShader. cbv [String.eqb Ascii.eqb Bool.eqb String.append]. done. Qed.

Lemma legacy_makeShader_em_nonempty (digits : float → string)
    (shaderArgs : Legacy.DisplaySettings) :
  Legacy.makeShader digits shaderArgs "em" ≠ EmptyString.
Proof. unfold Legacy.makeShader. cbv [String.eqb Ascii.eqb Bool.eqb String.append]. done. Qed.

(** X24: the shader of a layer is chosen by the data type of the volume
    alone: the segmentation shader for uint64, the image shader for int8,
    uint8 and uint16, whatever the content type says; the layer is left
    without a shader exactly when the data type is none of these. *)
Theorem X24_shader_by_data_type (digits : float → string) (volume : Legacy.Volume) :
  (Legacy.dtype volume ∈ Legacy.SEGMENTATION_DTYPES →
   Legacy.layer_shader (Legacy.toLayer digits volume)
   = Legacy.makeShader digits (Legacy.displaySettings volume) "segmentation")
  ∧ (Legacy.dtype volume ∈ Legacy.IMAGE_DTYPES →
     Legacy.layer_shader (Legacy.toLayer digits volume)
     = Legacy.makeShader digits (Legacy.displaySettings volume) "em")
  ∧ (Legacy.layer_shader (Legacy.toLayer digits volume) = EmptyString
     ↔ Legacy.dtype volume ∉ Legacy.SEGMENTATION_DTYPES ++ Legacy.IMAGE_DTYPES).
Proof.
  unfold Legacy.toLayer. cbn [Legacy.layer_shader].
  destruct (includes Legacy.SEGMENTATION_DTYPES (Legacy.dtype volume)) eqn:Hseg;
    [|destruct (includes Legacy.IMAGE_DTYPES (Legacy.dtype volume)) eqn:Himg].
  - apply includes_elem_of in Hseg. split; [done|]. split.
    + intros Himg. exfalso. revert Hseg Himg. unfold Legacy.SEGMENTATION_DTYPES,
        Legacy.IMAGE_DTYPES. rewrite list_elem_of_singleton. intros ->.
      rewrite !elem_of_cons. intros [?|[?|[?|H]]]; try done. by apply elem_of_nil in H.
    + split; [intros H; by apply legacy_makeShader_segmentation_nonempty in H|].
      intros H. destruct H. apply elem_of_app. by left.
  - apply includes_elem_of in Himg. split.
    { intros H. apply includes_elem_of in H. congruence. }
    split; [done|].
    split; [intros H; by apply legacy_makeShader_em_nonempty in H|].
    intros H. destruct H. apply elem_of_app. by right.
  - split. { intros H. apply includes_elem_of in H. congruence. }
    split. { intros H. apply includes_elem_of in H. congruence. }
    split; [intros _|done].
    rewrite elem_of_app, <- !includes_elem_of, Hseg, Himg. by intros [?|?].
Qed.

(** *** The catalog of the earlier revision *)

Lemma Map_set_keys_NoDup {V} (k : string) (v : V) (m : Map V) :
  NoDup (Map_keys m) → NoDup (Map_keys (Map_set k v m)).
Proof.
  unfold Map_keys. induction m as [|[k0 v0] m IH]; simpl; intros Hnd.
  - apply NoDup_singleton.
  - apply NoDup_cons in Hnd as [Hk0 Hnd].
    destruct (String.eqb_spec k0 k) as [->|Hne]; simpl.
    + by apply NoDup_cons.
    + apply NoDup_cons. split; [|by apply IH].
      intros Hin. apply (Map_keys_set k k0 v m) in Hin as [?|?]; done.
Qed.

Lemma new_Map_keys_NoDup {V} (l : list (string * V)) : NoDup (Map_keys (new_Map l)).
Proof.
  unfold new_Map. assert (Hnil : NoDup (Map_keys ([] : Map V))) by apply NoDup_nil_2.
  revert Hnil. generalize ([] : Map V). induction l as [|[k v] l IH]; intros acc Hacc.
  - done.
  - simpl. apply IH. by apply Map_set_keys_NoDup.
Qed.

Section legacy_catalog.
Context (resolveURL : string → string → completion string) (Description : Type).
Context (bucketNameToURL : string → string).
Context (s3ls_folders : string → completion (list string)).
Context (getObjectFromJSON_index : string → completion (option Legacy.DatasetIndex)).
Context (getObjectFromJSON_description : string → completion Description).

Local Abbreviation fromVolumeMeta := (Legacy.fromVolumeMeta resolveURL).
Local Abbreviation makeVolumes := (Legacy.makeVolumes resolveURL).
Local Abbreviation getDescription :=
  (Legacy.getDescription Description bucketNameToURL getObjectFromJSON_description).
Local Abbreviation getDatasetIndex :=
  (Legacy.getDatasetIndex bucketNameToURL getObjectFromJSON_index).
Local Abbreviation makeDatasets_loop :=
  (Legacy.makeDatasets_loop resolveURL Description bucketNameToURL
     getObjectFromJSON_index getObjectFromJSON_description).
Local Abbreviation makeDatasets :=
  (Legacy.makeDatasets resolveURL Description bucketNameToURL s3ls_folders
     getObjectFromJSON_index getObjectFromJSON_description).

Lemma fromVolumeMeta_throws (outerPath innerPath : string) (volumeMeta : Legacy.VolumeMeta) :
  is_Throw (fromVolumeMeta outerPath innerPath volumeMeta)
  ↔ is_Throw (resolveURL outerPath innerPath).
Proof.
  unfold Legacy.fromVolumeMeta. destruct (resolveURL outerPath innerPath) as [p|e]; simpl.
  - split; intros [e He]; done.
  - split; intros _; by exists e.
Qed.

Lemma makeVolumes_throws (outerPath : string)
    (volumeMeta : list (string * Legacy.VolumeMeta)) (volumes : Map Legacy.Volume) :
  is_Throw (makeVolumes outerPath volumeMeta volumes)
  ↔ ∃ k, k ∈ volumeMeta.*1 ∧ is_Throw (resolveURL outerPath k).
Proof.
  revert volumes. induction volumeMeta as [|[k v] rest IH]; intros volumes; simpl.
  - split; [intros [e He]; done | intros (k & Hk & _); by apply elem_of_nil in Hk].
  - destruct (fromVolumeMeta outerPath k v) as [volume|e] eqn:Hv; simpl.
    + rewrite IH. split; intros (k' & Hk' & Hthrow).
      * exists k'. split; [by right | done].
      * apply elem_of_cons in Hk' as [->|Hk']; [|by exists k'].
        apply (fromVolumeMeta_throws outerPath k v) in Hthrow.
        rewrite Hv in Hthrow. by destruct Hthrow.
    + split; [intros _ | intros _; by exists e].
      exists k. split; [left|]. apply (fromVolumeMeta_throws outerPath k v).
      rewrite Hv. by exists e.
Qed.

Lemma makeVolumes_fulfilled (outerPath : string)
    (volumeMeta : list (string * Legacy.VolumeMeta)) (acc volumes : Map Legacy.Volume) :
  NoDup (Map_keys acc ++ volumeMeta.*1) →
  makeVolumes outerPath volumeMeta acc = Normal volumes →
  ∃ new, volumes = acc ++ new
         ∧ Forall2 (λ kv kvol, kvol.1 = kv.1
                               ∧ fromVolumeMeta outerPath kv.1 kv.2 = Normal kvol.2)
                   volumeMeta new.
Proof.
  revert acc. induction volumeMeta as [|[k v] rest IH]; intros acc Hnd; simpl.
  - intros [= <-]. exists []. by rewrite app_nil_r.
  - destruct (fromVolumeMeta outerPath k v) as [volume|e] eqn:Hv; simpl; [|done].
    intros Hrest. rewrite Map_set_fresh in Hrest.
    + destruct (IH (acc ++ [(k, volume)])) as (new & -> & Hall); [|done|].
      * unfold Map_keys. rewrite fmap_app. simpl. by rewrite <- app_assoc.
      * exists ((k, volume) :: new). split; [by rewrite <- app_assoc|].
        by constructor.
    + apply NoDup_app in Hnd as (_ & Hdis & _). intros Hin.
      apply (Hdis k Hin). left.
Qed.

Lemma Forall2_Map_get {V W : Type} (R : string → V → W → Prop)
    (m : Map V) (m' : Map W) (k : string) (v : V) :
  Forall2 (λ kv kw, kw.1 = kv.1 ∧ R kv.1 kv.2 kw.2) m m' →
  Map_get k m = Some v → ∃ w, Map_get k m' = Some w ∧ R k v w.
Proof.
  induction 1 as [|[k0 v0] [k1 w0] m m' [Hk HR] _ IH]; simpl; [done|].
  simpl in Hk, HR. subst k1.
  destruct (String.eqb_spec k0 k) as [->|Hne]; [|done].
  intros [= <-]. by exists w0.
Qed.

(** X25: the volumes of a dataset are made all or not at all.  The making
    fails exactly when the address of one volume key cannot be resolved;
    otherwise there is one volume per key of the index, under the same
    keys in the same order, each made from the metadata that the index
    holds for its key. *)
Theorem X25_volumes_all_or_nothing (outerPath : string)
    (entries : list (string * Legacy.VolumeMeta)) :
  (is_Throw (makeVolumes outerPath (new_Map entries) [])
   ↔ ∃ k, k ∈ entries.*1 ∧ is_Throw (resolveURL outerPath k))
  ∧ ∀ volumes,
      makeVolumes outerPath (new_Map entries) [] = Normal volumes →
      Map_keys volumes = Map_keys (new_Map entries)
      ∧ ∀ k v, Map_get k (new_Map entries) = Some v →
               ∃ volume, Map_get k volumes = Some volume
                         ∧ fromVolumeMeta outerPath k v = Normal volume.
Proof.
  split.
  - rewrite makeVolumes_throws. split; intros (k & Hk & Hthrow); exists k.
    + split; [|done]. by apply Map_keys_new_Map.
    + split; [|done]. by apply Map_keys_new_Map.
  - intros volumes Hvolumes.
    destruct (makeVolumes_fulfilled outerPath (new_Map entries) [] volumes)
      as (new & -> & Hall); [apply new_Map_keys_NoDup | done |].
    simpl. split.
    + unfold Map_keys. clear Hvolumes. induction Hall as [|kv kvol m m' [Hk _] _ IH]; [done|].
      rewrite !fmap_cons. by f_equal.
    + intros k v Hget.
      by apply (Forall2_Map_get (λ k v w, fromVolumeMeta outerPath k v = Normal w)
                  (new_Map entries) new k v).
Qed.

Lemma makeDatasets_loop_app (bucket : string) (keys rest : list string)
    (datasets : Map (Legacy.Dataset Description)) :
  makeDatasets_loop bucket (keys ++ rest) datasets
  = bind (makeDatasets_loop bucket keys datasets) (makeDatasets_loop bucket rest).
Proof.
  revert datasets. induction keys as [|key keys IH]; intros datasets; [done|].
  simpl. destruct (getDescription bucket key) as [description|e]; [|done]. simpl.
  destruct (getDatasetIndex bucket key) as [[index|]|e]; [| |done]; simpl.
  - destruct (Legacy.makeVolumes _ _ _ _); apply IH.
  - apply IH.
Qed.

Lemma makeDatasets_loop_throws (bucket : string) (keys : list string)
    (datasets : Map (Legacy.Dataset Description)) :
  is_Throw (makeDatasets_loop bucket keys datasets)
  ↔ ∃ key, key ∈ keys ∧ (is_Throw (getDescription bucket key)
                          ∨ is_Throw (getDatasetIndex bucket key)).
Proof.
  revert datasets. induction keys as [|key keys IH]; intros datasets.
  - split; [intros [e He]; done | intros (k & Hk & _); by apply elem_of_nil in Hk].
  - assert (Hrest : ∀ ds,
              ¬ is_Throw (getDescription bucket key) →
              ¬ is_Throw (getDatasetIndex bucket key) →
              is_Throw (makeDatasets_loop bucket keys ds)
              ↔ ∃ k, k ∈ key :: keys ∧ (is_Throw (getDescription bucket k)
                                         ∨ is_Throw (getDatasetIndex bucket k))).
    { intros ds Hd Hi. rewrite IH. split; intros (k & Hk & Hthrow).
      - exists k. split; [by right | done].
      - apply elem_of_cons in Hk as [->|Hk]; [by destruct Hthrow | by exists k]. }
    cbn [Legacy.makeDatasets_loop].
    destruct (getDescription bucket key) as [description|e] eqn:Hd; simpl.
    + destruct (getDatasetIndex bucket key) as [[index|]|e] eqn:Hi; simpl.
      * destruct (Legacy.makeVolumes _ _ _ _);
          apply Hrest; intros [e' He']; done.
      * apply Hrest; intros [e' He']; done.
      * split; [intros _ | intros _; by exists e].
        exists key. split; [left|]. right. rewrite Hi. by exists e.
    + split; [intros _ | intros _; by exists e].
      exists key. split; [left|]. left. rewrite Hd. by exists e.
Qed.

(** X26: the catalog load of the earlier revision is rejected exactly when
    the folders cannot be listed or when, for one of the keys listed, the
    description or the index cannot be fetched.  An index that is
    undefined and a volume whose address cannot be resolved never reject
    it. *)
Theorem X26_legacy_catalog_rejection (bucket : string) :
  is_Throw (makeDatasets bucket)
  ↔ is_Throw (s3ls_folders bucket)
    ∨ ∃ folders key,
        s3ls_folders bucket = Normal folders
        ∧ key ∈ strip_trailing_slash <$> folders
        ∧ (is_Throw (getDescription bucket key)
           ∨ is_Throw (getDatasetIndex bucket key)).
Proof.
  unfold Legacy.makeDatasets, Legacy.getDatasetKeys.
  destruct (s3ls_folders bucket) as [folders|e]; simpl.
  - rewrite makeDatasets_loop_throws. split.
    + intros (key & Hkey & Hthrow). right. by exists folders, key.
    + intros [[e' He']|(folders' & key & [= <-] & Hkey & Hthrow)]; [done|]. by exists key.
  - split; [intros _; left | intros _]; by exists e.
Qed.

(** The dataset that the loop stores under [key]. *)
Local Abbreviation loaded bucket key d :=
  (∃ description index volumes,
      getDescription bucket key = Normal description
      ∧ getDatasetIndex bucket key = Normal (Some index)
      ∧ makeVolumes (bucketNameToURL bucket +:+ "/" +:+ key)
          (new_Map (Legacy.index_volumes index)) [] = Normal volumes
      ∧ d = {| Legacy.key := key;
               Legacy.space := outputDimensions;
               Legacy.volumes := volumes;
               Legacy.description := description;
               Legacy.thumbnailPath :=
                 (bucketNameToURL bucket +:+ "/" +:+ key) +:+ "/thumbnail.jpg" |}).

Lemma makeDatasets_loop_fulfilled (bucket : string) (keys : list string)
    (datasets : Map (Legacy.Dataset Description)) :
  makeDatasets_loop bucket keys [] = Normal datasets →
  ∀ key d, Map_get key datasets = Some d ↔ key ∈ keys ∧ loaded bucket key d.
Proof.
  revert datasets. induction keys as [|k keys IH] using rev_ind; intros datasets.
  - intros [= <-] key d. simpl. split; [done | intros [H _]; by apply elem_of_nil in H].
  - rewrite makeDatasets_loop_app.
    destruct (makeDatasets_loop bucket keys []) as [ds|e]; [|done].
    specialize (IH ds eq_refl). cbn [bind Legacy.makeDatasets_loop].
    assert (Hskip : (∀ d, ¬ loaded bucket k d) →
                    ∀ key d, Map_get key ds = Some d
                             ↔ key ∈ keys ++ [k] ∧ loaded bucket key d).
    { intros Hno key d. rewrite IH, elem_of_app, list_elem_of_singleton.
      split; [intros [? ?]; split; [by left | done]|].
      intros [[?| ->] Hd]; [done|]. by destruct (Hno d). }
    destruct (getDescription bucket k) as [description|e] eqn:Hd; [|done]. simpl.
    destruct (getDatasetIndex bucket k) as [[index|]|e] eqn:Hi; [| |done]; simpl.
    + destruct (Legacy.makeVolumes _ _ _ _) as [volumes|e] eqn:Hv.
      * intros [= <-] key d. rewrite elem_of_app, list_elem_of_singleton.
        destruct (decide (key = k)) as [->|Hne].
        -- rewrite Map_get_set_eq. split.
           ++ intros [= <-]. split; [by right|]. by exists description, index, volumes.
           ++ intros [_ (description' & index' & volumes' & Hd' & Hi' & Hv' & ->)].
              assert (description' = description) as -> by congruence.
              assert (index' = index) as -> by congruence.
              assert (volumes' = volumes) as -> by congruence. done.
        -- rewrite Map_get_set_ne by done. rewrite IH.
           split; [intros [? ?]; split; [by left | done]|].
           by intros [[?|?] ?].
      * intros [= <-]. apply Hskip.
        intros d (description' & index' & volumes' & _ & Hi' & Hv' & _).
        assert (index' = index) as -> by congruence. congruence.
    + intros [= <-]. apply Hskip.
      intros d (description' & index' & volumes' & _ & Hi' & _). congruence.
Qed.

(** X27: a catalog that is loaded holds, under each key listed whose index
    is defined and whose volumes can all be made, the dataset of that key
    with its description, its volumes and the address of its thumbnail,
    and nothing else: a key whose index is undefined or one of whose
    volumes cannot be made is left out, and the other keys are kept. *)
Theorem X27_legacy_catalog_keeps_the_other_entries (bucket : string)
    (datasets : Map (Legacy.Dataset Description)) :
  makeDatasets bucket = Normal datasets →
  ∃ folders,
    s3ls_folders bucket = Normal folders
    ∧ ∀ key d,
        Map_get key datasets = Some d
        ↔ key ∈ strip_trailing_slash <$> folders
          ∧ ∃ description index volumes,
              getDescription bucket key = Normal description
              ∧ getDatasetIndex bucket key = Normal (Some index)
              ∧ makeVolumes (bucketNameToURL bucket +:+ "/" +:+ key)
                  (new_Map (Legacy.index_volumes index)) [] = Normal volumes
              ∧ d = {| Legacy.key := key;
                       Legacy.space := outputDimensions;
                       Legacy.volumes := volumes;
                       Legacy.description := description;
                       Legacy.thumbnailPath :=
                         (bucketNameToURL bucket +:+ "/" +:+ key)
                           +:+ "/thumbnail.jpg" |}.
Proof.
  unfold Legacy.makeDatasets, Legacy.getDatasetKeys.
  destruct (s3ls_folders bucket) as [folders|e]; [|done]. simpl.
  intros Hloop. exists folders. split; [done|].
  exact (makeDatasets_loop_fulfilled bucket _ datasets Hloop).
Qed.

End legacy_catalog.

Lemma X27_legacy_catalog_keeps_the_other_entries_witness :
  ∃ folders,
    legacy_folders "bucket" = Normal folders
    ∧ ∀ key d,
        Map_get key legacy_catalog = Some d
        ↔ key ∈ strip_trailing_slash <$> folders
          ∧ ∃ description index volumes,
              Legacy.getDescription string legacy_bucketNameToURL legacy_description
                "bucket" key = Normal description
              ∧ Legacy.getDatasetIndex legacy_bucketNameToURL legacy_index
                  "bucket" key = Normal (Some index)
              ∧ Legacy.makeVolumes legacy_resolveURL
                  (legacy_bucketNameToURL "bucket" +:+ "/" +:+ key)
                  (new_Map (Legacy.index_volumes index)) [] = Normal volumes
              ∧ d = {| Legacy.key := key;
                       Legacy.space := outputDimensions;
                       Legacy.volumes := volumes;
                       Legacy.description := description;
                       Legacy.thumbnailPath :=
                         (legacy_bucketNameToURL "bucket" +:+ "/" +:+ key)
                           +:+ "/thumbnail.jpg" |}.
Proof.
  apply (X27_legacy_catalog_keeps_the_other_entries legacy_resolveURL string
           legacy_bucketNameToURL legacy_folders legacy_index legacy_description
           "bucket" legacy_catalog).
  vm_compute. reflexivity.
Defined.

Example legacy_catalog_keys : Map_keys legacy_catalog = ["jrc_1"].
Proof. reflexivity. Qed.

(** X28: the viewer state of the earlier revision cannot be made for an
    empty list of volumes.  For other lists it is made with one layer per
    volume, in order and under the names of the volumes, every layer an
    additive image layer of opacity 0.75, also for a segmentation; the
    first volume is the selected layer and the scale is 30. *)
Theorem X28_legacy_viewer_state
    (digits : float → string) (urlSafeStringify : Legacy.ViewerState → string)
    (encodeFragment : string → string) (volumes : list Legacy.Volume) :
  (is_Throw (Legacy.makeNeuroglancerViewerState digits urlSafeStringify
               encodeFragment volumes)
   ↔ volumes = [])
  ∧ ∀ first rest, volumes = first :: rest →
      ∃ vState,
        Legacy.makeNeuroglancerViewerState digits urlSafeStringify encodeFragment volumes
        = Normal (encodeFragment (urlSafeStringify vState))
        ∧ Legacy.vs_selectedLayer vState
          = {| Legacy.sl_layer := Legacy.name first; Legacy.sl_visible := true |}
        ∧ Legacy.vs_crossSectionScale vState = 30%float
        ∧ Legacy.layer_name <$> Legacy.vs_layers vState = Legacy.name <$> volumes
        ∧ Forall (λ layer, Legacy.layer_type layer = "image"
                           ∧ Legacy.layer_blend layer = "additive"
                           ∧ Legacy.layer_opacity layer = 0.75%float)
                 (Legacy.vs_layers vState).
Proof.
  unfold Legacy.makeNeuroglancerViewerState, Legacy.makeViewerState. split.
  - destruct volumes as [|first rest]; simpl.
    + split; [done | intros _; by eexists].
    + split; [intros [e He]; done | done].
  - intros first rest ->. rewrite fmap_cons. cbn [bind].
    eexists. split; [reflexivity|]. cbn [Legacy.vs_selectedLayer
      Legacy.vs_crossSectionScale Legacy.vs_layers].
    split; [done|]. split; [done|]. rewrite <- fmap_cons. split.
    + rewrite <- list_fmap_compose. done.
    + apply Forall_fmap, Forall_forall. intros volume _. done.
Qed.

(** ** The description of a dataset *)

Lemma append_paren_not_NA (s : string) : s +:+ ")" ≠ "N/A".
Proof.
  destruct s as [|a [|b [|c [|d s]]]]; cbv [String.append]; congruence.
Qed.

(** X29: a vector is printed as N/A exactly when it has no values. *)
Theorem X29_vector_without_values (toFixed : float → float → string)
    (vec : DescriptionText.UnitfulVector) (decimals : float) :
  DescriptionText.StringifyUnitfulVector toFixed vec decimals = "N/A"
  ↔ DescriptionText.uv_values vec = [].
Proof.
  unfold DescriptionText.StringifyUnitfulVector.
  destruct (DescriptionText.uv_values vec) as [|[axis value] values]; [done|].
  rewrite !length_fmap. cbn [length Nat.eqb]. split; [|done].
  rewrite <- !string_app_assoc. intros H. by apply append_paren_not_NA in H.
Qed.

(** ** The keys of the datasets of a bucket *)

Lemma append_slash_nonempty (t : string) : t +:+ "/" ≠ EmptyString.
Proof. by destruct t. Qed.

Lemma strip_trailing_slash_cases (s : string) :
  s = strip_trailing_slash s +:+ "/"
  ∨ (strip_trailing_slash s = s ∧ ∀ t, s ≠ t +:+ "/").
Proof.
  induction s as [|c s IH].
  - right. split; [done|]. intros t Ht. by apply (append_slash_nonempty t).
  - destruct s as [|c' s].
    + simpl. destruct (Ascii.eqb_spec c "/") as [->|Hc]; [by left|].
      right. split; [done|]. intros [|a t] Ht.
      * injection Ht as Ht. done.
      * injection Ht as _ Ht. by apply (append_slash_nonempty t).
    + change (strip_trailing_slash (String c (String c' s)))
        with (String c (strip_trailing_slash (String c' s))).
      destruct IH as [IH|[IH Hno]].
      * left. change (String c ?x +:+ "/") with (String c (x +:+ "/")).
        by rewrite <- IH.
      * right. rewrite IH. split; [done|]. intros [|a t] Ht.
        -- discriminate Ht.
        -- injection Ht as _ Ht. by apply (Hno t).
Qed.

(** X30: the keys of the datasets are the folders of the bucket, in the
    order of the listing, each without the slash that ends it; one slash is
    taken off, and a folder that ends in no slash is its own key. *)
Theorem X30_dataset_keys (s3ls_folders : string → completion (list string))
    (bucket : string) (folders : list string) :
  s3ls_folders bucket = Normal folders →
  ∃ datasetKeys,
    Legacy.getDatasetKeys s3ls_folders bucket = Normal datasetKeys
    ∧ Forall2 (λ folder key, folder = key +:+ "/"
                             ∨ (folder = key ∧ ∀ t, folder ≠ t +:+ "/"))
              folders datasetKeys.
Proof.
  intros Hfolders. unfold Legacy.getDatasetKeys. rewrite Hfolders. simpl.
  eexists. split; [reflexivity|]. apply Forall2_fmap_r, Forall_Forall2_diag, Forall_forall.
  intros folder _.
  destruct (strip_trailing_slash_cases folder) as [H|[H Hno]].
  - by left.
  - right. by rewrite H.
Qed.

Lemma X30_dataset_keys_witness :
  ∃ datasetKeys,
    Legacy.getDatasetKeys legacy_folders "bucket" = Normal datasetKeys
    ∧ Forall2 (λ folder key, folder = key +:+ "/"
                             ∨ (folder = key ∧ ∀ t, folder ≠ t +:+ "/"))
              ["jrc_1/"; "jrc_2/"] datasetKeys.
Proof.
  apply (X30_dataset_keys legacy_folders "bucket" ["jrc_1/"; "jrc_2/"]).
  reflexivity.
Defined.

Example dataset_keys_of_the_bucket :
  Legacy.getDatasetKeys legacy_folders "bucket" = Normal ["jrc_1"; "jrc_2"].
Proof. reflexivity. Qed.

Example vector_of_two_values :
  DescriptionText.StringifyUnitfulVector (λ v _, Number_toString plain_digits v)
    vector_xy 0
  = "4 x 8 (x, y)".
Proof. reflexivity. Qed.
